(** * GVM Agent: a shallow embedding of the agent's C sources

    The first half of the file follows the layout of [gvm-agent/src]:
    - [CStr]: the libc string routines the agent relies on ([strchr],
      [strstr], [strcmp], [atoi], [fgets], the truncation of [snprintf]);
    - [Config]: config.c, the INI parser [config_load] and
      [config_validate];
    - utils.c, http_client.c, heartbeat.c, nasl_executor.c,
      job_processor.c and agent.c: the effectful code, written in a small
      state-and-trace monad [M] over an explicit environment ([world]);
    - the start-up ([agent_init] of agent.c and [main]) over what the
      machine provides ([host_machine]), and the two functions of
      nvt_feed.c and auto_update.c that stand on the code above.

    The second half states what the specification says about this code
    ([ConfigSpec], [AgentSpec]) and the further notions the theorems use
    ([ConfigShape], [ConfigDoc], which describes configuration files apart
    from the code that reads them, and [RunShape]), fixes sample inputs
    ([Samples]) and proves
    the properties, module by module: first those of the specification,
    then further properties of the same code (the modules from
    [ConfigMore] on).

    Conventions. A C [int] is an integer of [Z], with the 32-bit
    wrap-around written out where the source computes with it, and a
    [long] likewise with 64 bits. A [char *]
    that may be [NULL] is an [option string]. A call that returns a code
    and fills out-parameters returns the tuple of both. Memory exhaustion
    ([malloc] or [calloc] returning [NULL]) is not modelled. *)

From Stdlib Require Import ZArith List String Ascii Bool Lia Floats DecimalString.
Import ListNotations.
Set Warnings "-abstract-large-number".
Open Scope string_scope.
Open Scope Z_scope.

(* ===================================================================== *)
(** ** libc strings *)
(* ===================================================================== *)

Module CStr.

Definition NUL : ascii := "000"%char.
Definition TAB : ascii := "009"%char.
Definition LF : ascii := "010"%char.
Definition VT : ascii := "011"%char.
Definition FF : ascii := "012"%char.
Definition CR : ascii := "013"%char.
Definition SP : ascii := " "%char.
Definition DQ : ascii := "034"%char.

(** A word between double quotes, as the C sources write keys and values
    of JSON documents. *)
Definition quoted (s : string) : string := String DQ (s ++ String DQ "").

(** The C string held in a buffer: the bytes before the first NUL. *)
Fixpoint c_str (buf : string) : string :=
  match buf with
  | EmptyString => EmptyString
  | String c rest => if Ascii.eqb c NUL then EmptyString else String c (c_str rest)
  end.

(** [strchr s c]: [None] when [c] does not occur, otherwise the text
    before the first occurrence and the text after it. *)
Fixpoint strchr (s : string) (c : ascii) : option (string * string) :=
  match s with
  | EmptyString => None
  | String a rest =>
      if Ascii.eqb a c then Some (EmptyString, rest)
      else match strchr rest c with
           | Some (before, after) => Some (String a before, after)
           | None => None
           end
  end.

(** [strcmp(a, b) == 0]. *)
Definition strcmp_eq (a b : string) : bool := String.eqb a b.

(** [strncmp(s, lit, strlen(lit)) == 0]. *)
Definition starts_with (lit s : string) : bool := String.prefix lit s.

(** [strstr hay needle]: the suffix of [hay] starting at the first
    occurrence of [needle]. *)
Fixpoint strstr (hay needle : string) : option string :=
  if starts_with needle hay then Some hay
  else match hay with
       | EmptyString => None
       | String _ rest => strstr rest needle
       end.

(** [snprintf(buf, size, ...)] keeps at most [size - 1] characters. *)
Definition snprintf (size : nat) (formatted : string) : string :=
  String.substring 0 (size - 1) formatted.

(** [strncat(dst, src, n)] appends at most [n] characters of [src]. *)
Definition strncat (dst src : string) (n : nat) : string :=
  dst ++ String.substring 0 n src.

(** [printf("%s", p)]: glibc prints a NULL pointer as [(null)]. *)
Definition fmt_s (p : option string) : string :=
  match p with Some s => s | None => "(null)" end.

(** [printf("%d", n)]. *)
Definition fmt_d (n : Z) : string := NilZero.string_of_int (Z.to_int n).

Definition isspace (c : ascii) : bool :=
  Ascii.eqb c SP || Ascii.eqb c TAB || Ascii.eqb c LF
  || Ascii.eqb c VT || Ascii.eqb c FF || Ascii.eqb c CR.

Definition digit_value (c : ascii) : option Z :=
  let n := Z.of_nat (nat_of_ascii c) in
  if (48 <=? n) && (n <=? 57) then Some (n - 48) else None.

Fixpoint skip_while (p : ascii -> bool) (s : string) : string :=
  match s with
  | EmptyString => EmptyString
  | String c rest => if p c then skip_while p rest else s
  end.

Fixpoint parse_digits (s : string) (acc : Z) : Z :=
  match s with
  | EmptyString => acc
  | String c rest =>
      match digit_value c with
      | Some d => parse_digits rest (acc * 10 + d)
      | None => acc
      end
  end.

Definition INT_MAX : Z := 2147483647.
Definition INT_MIN : Z := -2147483648.
Definition LONG_MAX : Z := 9223372036854775807.
Definition LONG_MIN : Z := -9223372036854775808.

(** Conversion of a wider value to a 32-bit [int]: two's complement
    wrap-around. *)
Definition wrap_int (z : Z) : Z := (z + 2147483648) mod 4294967296 - 2147483648.

(** The same for a 64-bit [long]. *)
Definition wrap_long (z : Z) : Z :=
  (z + 9223372036854775808) mod 18446744073709551616 - 9223372036854775808.

(** [strtol(s, NULL, 10)] on an LP64 target: leading white space, an
    optional sign, decimal digits; out-of-range values saturate. *)
Definition strtol (s : string) : Z :=
  let s1 := skip_while isspace s in
  let v :=
    match s1 with
    | String "-"%char rest => - parse_digits rest 0
    | String "+"%char rest => parse_digits rest 0
    | _ => parse_digits s1 0
    end in
  Z.max LONG_MIN (Z.min LONG_MAX v).

(** [atoi(s)] is [(int) strtol(s, NULL, 10)]. *)
Definition atoi (s : string) : Z := wrap_int (strtol s).

(** [fgets(buf, size, f)]: at most [size - 1] characters, stopping after
    a newline; [None] at end of file. The second component is the rest
    of the stream. *)
Fixpoint fgets_take (room : nat) (stream : string) : string * string :=
  match room, stream with
  | O, _ => (EmptyString, stream)
  | _, EmptyString => (EmptyString, EmptyString)
  | S room', String c rest =>
      if Ascii.eqb c LF then (String c EmptyString, rest)
      else let (line, rest') := fgets_take room' rest in (String c line, rest')
  end.

Definition fgets (size : nat) (stream : string) : option (string * string) :=
  match stream with
  | EmptyString => None
  | _ => Some (fgets_take (size - 1) stream)
  end.

(** The successive buffers a [while (fgets(buf, size, f))] loop sees.
    Every successful [fgets] consumes at least one character, so the
    length of the stream bounds the number of rounds. *)
Fixpoint fgets_rounds (rounds : nat) (size : nat) (stream : string) : list string :=
  match rounds with
  | O => []
  | S rounds' =>
      match fgets size stream with
      | None => []
      | Some (line, rest) => line :: fgets_rounds rounds' size rest
      end
  end.

Definition fgets_all (size : nat) (stream : string) : list string :=
  fgets_rounds (String.length stream) size stream.

(** The last character of [s], or [d] when [s] is empty. *)
Fixpoint string_last (s : string) (d : ascii) : ascii :=
  match s with
  | EmptyString => d
  | String c rest => string_last rest c
  end.

End CStr.

(* ===================================================================== *)
(** ** agent.h: error codes, configuration and context *)
(* ===================================================================== *)

Definition AGENT_VERSION : string := "1.0.0".

Definition ERR_SUCCESS : Z := 0.
Definition ERR_CONFIG_MISSING : Z := 1001.
Definition ERR_CONFIG_INVALID : Z := 1002.
Definition ERR_NETWORK_UNREACHABLE : Z := 2001.
Definition ERR_AUTH_FAILED : Z := 2002.
Definition ERR_SERVER_ERROR : Z := 2003.
Definition ERR_INVALID_RESPONSE : Z := 2004.
Definition ERR_AGENT_UNAUTHORIZED : Z := 3001.
Definition ERR_JOB_EXECUTION_FAILED : Z := 3002.

Inductive agent_state_t : Type :=
| AGENT_STATE_INITIALIZING
| AGENT_STATE_REGISTERING
| AGENT_STATE_ACTIVE
| AGENT_STATE_UNAUTHORIZED
| AGENT_STATE_ERROR
| AGENT_STATE_SHUTDOWN.

Record agent_config_t : Type := mk_config {
  agent_id : option string;
  hostname : option string;
  controller_url : option string;
  auth_token : option string;
  heartbeat_interval_seconds : Z;
  retry_attempts : Z;
  retry_delay_seconds : Z;
  max_jitter_seconds : Z;
  log_level : option string
}.

Record agent_context_t : Type := mk_context {
  config : agent_config_t;
  state : agent_state_t;
  authorized : bool;
  last_heartbeat : Z;
  retry_count : Z;
  operating_system : option string;
  architecture : option string;
  ip_addresses : list string;
  ip_address_count : Z
}.

(* ===================================================================== *)
(** ** config.c *)
(* ===================================================================== *)

Module Config.
Import CStr.

Definition MAX_LINE_LENGTH : nat := 1024.

Definition is_blank (c : ascii) : bool := Ascii.eqb c SP || Ascii.eqb c TAB.

Definition is_trailing_ws (c : ascii) : bool :=
  Ascii.eqb c SP || Ascii.eqb c TAB || Ascii.eqb c LF || Ascii.eqb c CR.

(** The backward scan of [trim_whitespace] over the characters that
    follow the first one. *)
Fixpoint strip_trailing (s : string) : string :=
  match s with
  | EmptyString => EmptyString
  | String c rest =>
      match strip_trailing rest with
      | EmptyString => if is_trailing_ws c then EmptyString else String c EmptyString
      | kept => String c kept
      end
  end.

(** [trim_whitespace]: leading blanks and tabs are skipped; trailing
    white space is cut, but the scan stops at the first character
    ([end > str]), which is therefore always kept. *)
Definition trim_whitespace (str : string) : string :=
  match skip_while is_blank str with
  | EmptyString => EmptyString
  | String c rest => String c (strip_trailing rest)
  end.

(** Removal of the quotes around a value. *)
Definition unquote (value : string) : string :=
  match value with
  | String c rest =>
      if Ascii.eqb c DQ then
        match strchr rest DQ with
        | Some (inner, _) => inner
        | None => rest
        end
      else value
  | EmptyString => value
  end.

(** What one round of the parsing loop makes of the buffer. *)
Inductive line_kind : Type :=
| LineSkip
| LineSection (name : string)
| LineAssign (key value : string).

Definition parse_key_value (trimmed : string) : line_kind :=
  match strchr trimmed "="%char with
  | None => LineSkip
  | Some (before, after) =>
      LineAssign (trim_whitespace before) (unquote (trim_whitespace after))
  end.

Definition classify_line (line : string) : line_kind :=
  let trimmed := trim_whitespace (c_str line) in
  match trimmed with
  | EmptyString => LineSkip
  | String c0 body =>
      if Ascii.eqb c0 "#"%char || Ascii.eqb c0 ";"%char then LineSkip
      else if Ascii.eqb c0 "["%char then
        (* strchr(trimmed, ']'): trimmed[0] is '[', so the search goes
           over trimmed + 1, which is also where strncpy reads from *)
        match strchr body "]"%char with
        | Some (name, _) => LineSection (String.substring 0 63 name)
        | None => parse_key_value trimmed
        end
      else parse_key_value trimmed
  end.

Definition set_agent_id v (c : agent_config_t) : agent_config_t :=
  mk_config v (hostname c) (controller_url c) (auth_token c)
    (heartbeat_interval_seconds c) (retry_attempts c) (retry_delay_seconds c)
    (max_jitter_seconds c) (log_level c).
Definition set_hostname v (c : agent_config_t) : agent_config_t :=
  mk_config (agent_id c) v (controller_url c) (auth_token c)
    (heartbeat_interval_seconds c) (retry_attempts c) (retry_delay_seconds c)
    (max_jitter_seconds c) (log_level c).
Definition set_controller_url v (c : agent_config_t) : agent_config_t :=
  mk_config (agent_id c) (hostname c) v (auth_token c)
    (heartbeat_interval_seconds c) (retry_attempts c) (retry_delay_seconds c)
    (max_jitter_seconds c) (log_level c).
Definition set_auth_token v (c : agent_config_t) : agent_config_t :=
  mk_config (agent_id c) (hostname c) (controller_url c) v
    (heartbeat_interval_seconds c) (retry_attempts c) (retry_delay_seconds c)
    (max_jitter_seconds c) (log_level c).
Definition set_heartbeat_interval_seconds v (c : agent_config_t) : agent_config_t :=
  mk_config (agent_id c) (hostname c) (controller_url c) (auth_token c)
    v (retry_attempts c) (retry_delay_seconds c)
    (max_jitter_seconds c) (log_level c).
Definition set_retry_attempts v (c : agent_config_t) : agent_config_t :=
  mk_config (agent_id c) (hostname c) (controller_url c) (auth_token c)
    (heartbeat_interval_seconds c) v (retry_delay_seconds c)
    (max_jitter_seconds c) (log_level c).
Definition set_retry_delay_seconds v (c : agent_config_t) : agent_config_t :=
  mk_config (agent_id c) (hostname c) (controller_url c) (auth_token c)
    (heartbeat_interval_seconds c) (retry_attempts c) v
    (max_jitter_seconds c) (log_level c).
Definition set_max_jitter_seconds v (c : agent_config_t) : agent_config_t :=
  mk_config (agent_id c) (hostname c) (controller_url c) (auth_token c)
    (heartbeat_interval_seconds c) (retry_attempts c) (retry_delay_seconds c)
    v (log_level c).
Definition set_log_level v (c : agent_config_t) : agent_config_t :=
  mk_config (agent_id c) (hostname c) (controller_url c) (auth_token c)
    (heartbeat_interval_seconds c) (retry_attempts c) (retry_delay_seconds c)
    (max_jitter_seconds c) v.

(** The section/key dispatch at the end of the loop body. *)
Definition config_assign (section key value : string) (c : agent_config_t)
  : agent_config_t :=
  if strcmp_eq section "agent" then
    if strcmp_eq key "agent_id" then set_agent_id (Some value) c
    else if strcmp_eq key "hostname" then set_hostname (Some value) c
    else c
  else if strcmp_eq section "controller" then
    if strcmp_eq key "url" then set_controller_url (Some value) c
    else if strcmp_eq key "auth_token" then set_auth_token (Some value) c
    else c
  else if strcmp_eq section "heartbeat" then
    if strcmp_eq key "interval_in_seconds" then set_heartbeat_interval_seconds (atoi value) c
    else if strcmp_eq key "miss_until_inactive" then c
    else c
  else if strcmp_eq section "retry" then
    if strcmp_eq key "attempts" then set_retry_attempts (atoi value) c
    else if strcmp_eq key "delay_in_seconds" then set_retry_delay_seconds (atoi value) c
    else if strcmp_eq key "max_jitter_in_seconds" then set_max_jitter_seconds (atoi value) c
    else c
  else if strcmp_eq section "logging" then
    if strcmp_eq key "level" then set_log_level (Some value) c
    else c
  else c.

(** The loop state: [current_section] and the configuration being
    filled in. *)
Record parse_state : Type := mk_parse_state {
  current_section : string;
  parsed : agent_config_t
}.

(** One round of [while (fgets(line, sizeof(line), file))]. *)
Definition config_process_line (st : parse_state) (line : string) : parse_state :=
  match classify_line line with
  | LineSkip => st
  | LineSection name => mk_parse_state name (parsed st)
  | LineAssign key value =>
      mk_parse_state (current_section st)
        (config_assign (current_section st) key value (parsed st))
  end.

(** [calloc] followed by the defaults of Section 7.2.4. *)
Definition config_defaults : agent_config_t :=
  mk_config None None None None 600 5 60 30 (Some "info").

Definition config_parse (content : string) : agent_config_t :=
  parsed (fold_left config_process_line (fgets_all MAX_LINE_LENGTH content)
            (mk_parse_state "" config_defaults)).

Definition missing_or_empty (field : option string) : bool :=
  match field with
  | None => true
  | Some s => (String.length s =? 0)%nat
  end.

Definition config_validate (config : option agent_config_t) : Z :=
  match config with
  | None => ERR_CONFIG_INVALID
  | Some c =>
      if missing_or_empty (controller_url c) then ERR_CONFIG_INVALID
      else if missing_or_empty (auth_token c) then ERR_CONFIG_INVALID
      else if heartbeat_interval_seconds c <? 60 then ERR_CONFIG_INVALID
      else ERR_SUCCESS
  end.

(** [config_load]: the file system maps a path to the content of a
    readable file. The result pairs the return code with [*config_out]. *)
Definition config_load (config_path : option string) (fs : string -> option string)
  : Z * option agent_config_t :=
  match config_path with
  | None => (ERR_CONFIG_MISSING, None)
  | Some path =>
      match fs path with
      | None => (ERR_CONFIG_MISSING, None)
      | Some content =>
          let config := config_parse content in
          let validate_result := config_validate (Some config) in
          if negb (validate_result =? ERR_SUCCESS) then (validate_result, None)
          else (ERR_SUCCESS, Some config)
      end
  end.

(** *** The file as a list of assignments

    [last_assigned section key lines cur acc] is the value given by the
    last [key = value] line that stands under a [[section]] header, when
    the scan starts in section [cur] with [acc] found so far. *)
Fixpoint last_assigned (section key : string) (lines : list string)
  (cur : string) (acc : option string) : option string :=
  match lines with
  | [] => acc
  | line :: rest =>
      match classify_line line with
      | LineSkip => last_assigned section key rest cur acc
      | LineSection name => last_assigned section key rest name acc
      | LineAssign k v =>
          if strcmp_eq cur section && strcmp_eq k key
          then last_assigned section key rest cur (Some v)
          else last_assigned section key rest cur acc
      end
  end.

Definition file_value (section key content : string) : option string :=
  last_assigned section key (fgets_all MAX_LINE_LENGTH content) "" None.

(** The recognised options of each section. *)
Definition recognized (section key : string) : bool :=
  (strcmp_eq section "agent" && (strcmp_eq key "agent_id" || strcmp_eq key "hostname"))
  || (strcmp_eq section "controller" && (strcmp_eq key "url" || strcmp_eq key "auth_token"))
  || (strcmp_eq section "heartbeat"
      && (strcmp_eq key "interval_in_seconds" || strcmp_eq key "miss_until_inactive"))
  || (strcmp_eq section "retry"
      && (strcmp_eq key "attempts" || strcmp_eq key "delay_in_seconds"
          || strcmp_eq key "max_jitter_in_seconds"))
  || (strcmp_eq section "logging" && strcmp_eq key "level").

End Config.


(* ===================================================================== *)
(** ** The environment and the monad of effects *)
(* ===================================================================== *)

(** What the agent does to the outside world, in order. *)
Inductive event : Type :=
| EvHttpPost (url : string) (headers : list string) (body : string)
| EvHttpGet (url : string) (headers : list string)
| EvSleep (seconds : Z)
| EvSystem (command : string)
| EvPopen (command : string).

(** What [curl_easy_perform] comes back with. *)
Inductive http_reply : Type :=
| TransportError (message : string)
| HttpReply (status : Z) (body : string).

(** nvt_feed.h *)
Record nvt_record_t : Type := mk_nvt {
  nvt_rec_oid : option string;
  nvt_rec_name : option string;
  nvt_rec_family : option string;
  nvt_rec_filename : option string;
  nvt_rec_version : option string;
  cvss_base : float;
  last_modification : Z;
  dependencies : option string
}.

(** The environment: the replies of the controller to the successive
    requests, the successive values of [rand()], the exit statuses of the
    successive [system()] calls, the output of the successive [popen()]
    pipes ([None]: the pipe could not be opened), the clock, the NVT cache
    behind [nvt_feed_lookup_by_oid] and the static flag of
    nasl_executor.c. *)
Record world : Type := mk_world {
  http_replies : list http_reply;
  rand_values : list N;
  system_statuses : list Z;
  popen_outputs : list (option string);
  clock : Z;
  nvt_cache : string -> option nvt_record_t;
  g_has_openvas_nasl : bool
}.

Definition M (A : Type) : Type := world -> A * world * list event.

Definition ret {A : Type} (a : A) : M A := fun w => (a, w, []).

Definition bind {A B : Type} (m : M A) (k : A -> M B) : M B :=
  fun w =>
    let '(a, w1, t1) := m w in
    let '(b, w2, t2) := k a w1 in
    (b, w2, t1 ++ t2)%list.

Declare Scope agent_scope.
Delimit Scope agent_scope with agent.
Notation "x <- m ;; k" := (bind m (fun x => k))
  (at level 61, m at next level, right associativity) : agent_scope.
Notation "' pat <- m ;; k" := (bind m (fun x => match x with pat => k end))
  (at level 61, pat pattern, m at next level, right associativity) : agent_scope.
Notation "m ;;; k" := (bind m (fun _ => k))
  (at level 61, right associativity) : agent_scope.
Open Scope agent_scope.

Definition emit (e : event) : M unit := fun w => (tt, w, [e]).

Definition result_of {A : Type} (r : A * world * list event) : A := fst (fst r).
Definition world_of {A : Type} (r : A * world * list event) : world := snd (fst r).
Definition trace_of {A : Type} (r : A * world * list event) : list event := snd r.

Definition with_http_replies (l : list http_reply) (w : world) : world :=
  mk_world l (rand_values w) (system_statuses w) (popen_outputs w) (clock w)
    (nvt_cache w) (g_has_openvas_nasl w).
Definition with_rand_values (l : list N) (w : world) : world :=
  mk_world (http_replies w) l (system_statuses w) (popen_outputs w) (clock w)
    (nvt_cache w) (g_has_openvas_nasl w).
Definition with_system_statuses (l : list Z) (w : world) : world :=
  mk_world (http_replies w) (rand_values w) l (popen_outputs w) (clock w)
    (nvt_cache w) (g_has_openvas_nasl w).
Definition with_popen_outputs (l : list (option string)) (w : world) : world :=
  mk_world (http_replies w) (rand_values w) (system_statuses w) l (clock w)
    (nvt_cache w) (g_has_openvas_nasl w).
Definition with_clock (t : Z) (w : world) : world :=
  mk_world (http_replies w) (rand_values w) (system_statuses w) (popen_outputs w) t
    (nvt_cache w) (g_has_openvas_nasl w).

(** Every event of every run of [m] satisfies [P]. *)
Definition emits {A : Type} (P : event -> Prop) (m : M A) : Prop :=
  forall w, Forall P (trace_of (m w)).

(** The next reply of the controller; a controller that has stopped
    answering is a transport error. *)
Definition curl_easy_perform : M http_reply :=
  fun w =>
    match http_replies w with
    | [] => (TransportError "Couldn't connect to server", w, [])
    | r :: rest => (r, with_http_replies rest w, [])
    end.

Definition rand : M Z :=
  fun w =>
    match rand_values w with
    | [] => (0, w, [])
    | r :: rest => (Z.of_N r, with_rand_values rest w, [])
    end.

Definition time : M Z := fun w => (clock w, w, []).

(** [system(cmd)]: the exit status. *)
Definition system (command : string) : M Z :=
  fun w =>
    match system_statuses w with
    | [] => (127, w, [EvSystem command])
    | st :: rest => (st, with_system_statuses rest w, [EvSystem command])
    end.

(** [popen(cmd, "r")] followed by reading the pipe to its end. *)
Definition popen (command : string) : M (option string) :=
  fun w =>
    match popen_outputs w with
    | [] => (None, w, [EvPopen command])
    | out :: rest => (out, with_popen_outputs rest w, [EvPopen command])
    end.

(** Formatting done by libc that the development leaves open:
    [printf("%.1f")] and [strftime("%Y-%m-%dT%H:%M:%SZ")] of [gmtime]. *)
Class LibcFormat : Type := {
  fmt_f1 : float -> string;
  fmt_iso8601 : Z -> string
}.

(* ===================================================================== *)
(** ** utils.c *)
(* ===================================================================== *)

(** [utils_sleep]: [sleep] takes an [unsigned int]. *)
Definition utils_sleep (seconds : Z) : M unit :=
  emit (EvSleep seconds) ;;;
  fun w => (tt, with_clock (clock w + seconds mod 4294967296) w, []).

Definition utils_get_random_jitter_ms (max_jitter_ms : Z) : M Z :=
  if max_jitter_ms <=? 0 then ret 0
  else r <- rand ;; ret (Z.rem r max_jitter_ms).

Definition utils_get_unix_timestamp : M Z := time.

Definition utils_get_iso8601_timestamp `{LibcFormat} : M (option string) :=
  now <- time ;; ret (Some (fmt_iso8601 now)).

Definition last_char (s : string) : option ascii :=
  match String.length s with
  | O => None
  | S n => String.get n s
  end.

Definition utils_build_url (base path : option string) : option string :=
  match base, path with
  | Some b, Some p =>
      let base_len := String.length b in
      let path_len := String.length p in
      let needs_slash :=
        ((0 <? base_len)%nat && negb (match last_char b with
                                      | Some c => Ascii.eqb c "/"%char
                                      | None => false
                                      end))
        && ((0 <? path_len)%nat && negb (match p with
                                         | String c _ => Ascii.eqb c "/"%char
                                         | EmptyString => false
                                         end)) in
      Some (b ++ (if needs_slash then "/" else "") ++ p)
  | _, _ => None
  end.

(* ===================================================================== *)
(** ** http_client.c *)
(* ===================================================================== *)

Record http_response_t : Type := mk_http_response {
  status_code : Z;
  body : string;
  error_message : option string
}.

Definition bearer_header (auth_token : option string) : list string :=
  match auth_token with
  | Some tok => [CStr.snprintf 512 ("Authorization: Bearer " ++ tok)]
  | None => []
  end.

(** [http_post]: the flag returned and [*response_out]. *)
Definition http_post (url : option string) (auth_token : option string)
  (json_body : option string) : M (bool * option http_response_t) :=
  match url, json_body with
  | Some u, Some b =>
      emit (EvHttpPost u ("Content-Type: application/json" :: bearer_header auth_token) b) ;;;
      res <- curl_easy_perform ;;
      match res with
      | TransportError msg => ret (false, Some (mk_http_response 0 "" (Some msg)))
      | HttpReply st bd => ret (true, Some (mk_http_response st (CStr.c_str bd) None))
      end
  | _, _ => ret (false, None)
  end.

Definition http_get (url : option string) (auth_token : option string)
  : M (bool * option http_response_t) :=
  match url with
  | Some u =>
      emit (EvHttpGet u ("Accept: application/json" :: bearer_header auth_token)) ;;;
      res <- curl_easy_perform ;;
      match res with
      | TransportError msg => ret (false, Some (mk_http_response 0 "" (Some msg)))
      | HttpReply st bd => ret (true, Some (mk_http_response st (CStr.c_str bd) None))
      end
  | None => ret (false, None)
  end.

(** The text after the colon that follows the first occurrence of the
    quoted key. *)
Definition json_after_colon (json_str key : string) : option string :=
  let search_key := CStr.snprintf 256 (CStr.quoted key) in
  match CStr.strstr json_str search_key with
  | None => None
  | Some key_pos =>
      match CStr.strchr key_pos ":"%char with
      | None => None
      | Some (_, after) => Some after
      end
  end.

Definition http_parse_json_string (json_str key : string) : option string :=
  match json_after_colon json_str key with
  | None => None
  | Some after =>
      match CStr.skip_while Config.is_blank after with
      | String c value_start =>
          if Ascii.eqb c CStr.DQ then
            match CStr.strchr value_start CStr.DQ with
            | Some (value, _) => Some value
            | None => None
            end
          else None
      | EmptyString => None
      end
  end.

Definition http_parse_json_bool (json_str key : string) : option bool :=
  match json_after_colon json_str key with
  | None => None
  | Some after =>
      let value_start := CStr.skip_while Config.is_blank after in
      if CStr.starts_with "true" value_start then Some true
      else if CStr.starts_with "false" value_start then Some false
      else None
  end.

Definition http_parse_json_int (json_str key : string) : option Z :=
  match json_after_colon json_str key with
  | None => None
  | Some after => Some (CStr.atoi after)
  end.

(* ===================================================================== *)
(** ** heartbeat.c *)
(* ===================================================================== *)

Record heartbeat_response_t : Type := mk_heartbeat_response {
  accepted : bool;
  config_updated : bool;
  next_heartbeat_in_seconds : Z;
  hb_authorized : bool
}.

Definition set_authorized (b : bool) (t : Z) (ctx : agent_context_t) : agent_context_t :=
  mk_context (config ctx) (state ctx) b t (retry_count ctx)
    (operating_system ctx) (architecture ctx) (ip_addresses ctx) (ip_address_count ctx).
Definition set_retry_count (n : Z) (ctx : agent_context_t) : agent_context_t :=
  mk_context (config ctx) (state ctx) (authorized ctx) (last_heartbeat ctx) n
    (operating_system ctx) (architecture ctx) (ip_addresses ctx) (ip_address_count ctx).
Definition set_state (s : agent_state_t) (ctx : agent_context_t) : agent_context_t :=
  mk_context (config ctx) s (authorized ctx) (last_heartbeat ctx) (retry_count ctx)
    (operating_system ctx) (architecture ctx) (ip_addresses ctx) (ip_address_count ctx).

Definition HEARTBEAT_PATH : string := "/api/v1/agents/heartbeat".
Definition JOBS_PATH : string := "/api/v1/agents/jobs".

Definition heartbeat_url (ctx : agent_context_t) : option string :=
  utils_build_url (controller_url (config ctx)) (Some HEARTBEAT_PATH).

(** The loop that fills [ip_addresses_json]. *)
Fixpoint ip_addresses_items (first : bool) (ips : list string) : string :=
  match ips with
  | [] => ""
  | ip :: rest =>
      (if first then "" else ", ") ++ CStr.snprintf 64 (CStr.quoted ip)
      ++ ip_addresses_items false rest
  end.

Definition heartbeat_body (ctx : agent_context_t) : string :=
  let ip_addresses_json :=
    "[" ++ ip_addresses_items true
             (firstn (Z.to_nat (ip_address_count ctx)) (ip_addresses ctx)) ++ "]" in
  let field k v := CStr.quoted k ++ ": " ++ CStr.quoted v in
  CStr.snprintf 4096
    ("{" ++ field "agent_id" (CStr.fmt_s (agent_id (config ctx))) ++ ", "
     ++ field "hostname" (CStr.fmt_s (hostname (config ctx))) ++ ", "
     ++ field "connection_status" "active" ++ ", "
     ++ CStr.quoted "ip_addresses" ++ ": " ++ ip_addresses_json ++ ", "
     ++ field "agent_version" AGENT_VERSION ++ ", "
     ++ field "operating_system"
          (match operating_system ctx with Some s => s | None => "" end) ++ ", "
     ++ field "architecture"
          (match architecture ctx with Some s => s | None => "" end)
     ++ "}").

(** [heartbeat_send]: the return code, [*response_out] and the context
    after the call. *)
Definition heartbeat_send (ctx : agent_context_t)
  : M (Z * option heartbeat_response_t * agent_context_t) :=
  match utils_build_url (controller_url (config ctx)) (Some HEARTBEAT_PATH) with
  | None => ret (ERR_NETWORK_UNREACHABLE, None, ctx)
  | Some heartbeat_url =>
      '(success, http_response) <-
         http_post (Some heartbeat_url) (auth_token (config ctx))
           (Some (heartbeat_body ctx)) ;;
      match success, http_response with
      | true, Some r =>
          if status_code r =? 401 then ret (ERR_AUTH_FAILED, None, ctx)
          else if negb (status_code r =? 200) then ret (ERR_SERVER_ERROR, None, ctx)
          else
            let accepted :=
              match http_parse_json_string (body r) "status" with
              | Some status => CStr.strcmp_eq status "accepted"
              | None => false
              end in
            let config_updated :=
              match http_parse_json_bool (body r) "config_updated" with
              | Some b => b | None => false end in
            let next :=
              match http_parse_json_int (body r) "next_heartbeat_in_seconds" with
              | Some n => n | None => 0 end in
            let authorized :=
              match http_parse_json_bool (body r) "authorized" with
              | Some b => b | None => false end in
            let response := mk_heartbeat_response accepted config_updated next authorized in
            now <- utils_get_unix_timestamp ;;
            ret (ERR_SUCCESS, Some response, set_authorized authorized now ctx)
      | _, _ => ret (ERR_NETWORK_UNREACHABLE, None, ctx)
      end
  end.

(** The block under [if (attempt < max_attempts)] in the loop of
    [heartbeat_send_with_retry]: the exponential back-off and the jitter. *)
Definition heartbeat_retry_wait (ctx : agent_context_t) (attempt : Z) : M unit :=
  let max_attempts := retry_attempts (config ctx) in
  let base_delay := retry_delay_seconds (config ctx) in
  let max_jitter := CStr.wrap_int (max_jitter_seconds (config ctx) * 1000) in
  if attempt <? max_attempts then
    let backoff_multiplier := CStr.wrap_int (Z.shiftl 1 (attempt - 1)) in
    let delay_seconds := CStr.wrap_int (base_delay * backoff_multiplier) in
    jitter_ms <- utils_get_random_jitter_ms max_jitter ;;
    utils_sleep delay_seconds ;;;
    (if 0 <? jitter_ms then utils_sleep (Z.quot jitter_ms 1000) else ret tt)
  else ret tt.

(** The body of the [for] loop of [heartbeat_send_with_retry], run
    [rounds] more times from [attempt]; the loop runs for
    [attempt = 1 .. max_attempts]. [response_out] still holds what the
    caller put there when no attempt succeeds. *)
Fixpoint heartbeat_retry_loop (rounds : nat) (attempt : Z) (ctx : agent_context_t)
  : M (Z * option heartbeat_response_t * agent_context_t) :=
  match rounds with
  | O =>
      ret (ERR_NETWORK_UNREACHABLE, None, set_retry_count (retry_count ctx + 1) ctx)
  | S rounds' =>
      '(result, response, ctx1) <- heartbeat_send ctx ;;
      if result =? ERR_SUCCESS then ret (ERR_SUCCESS, response, set_retry_count 0 ctx1)
      else if result =? ERR_AUTH_FAILED then ret (result, response, ctx1)
      else
        heartbeat_retry_wait ctx1 attempt ;;;
        heartbeat_retry_loop rounds' (attempt + 1) ctx1
  end.

Definition heartbeat_send_with_retry (ctx : agent_context_t)
  : M (Z * option heartbeat_response_t * agent_context_t) :=
  heartbeat_retry_loop (Z.to_nat (retry_attempts (config ctx))) 1 ctx.

(** The three components of what a heartbeat run gives back. *)
Definition hb_run : Type :=
  (Z * option heartbeat_response_t * agent_context_t) * world * list event.
Definition hb_code (r : hb_run) : Z := fst (fst (result_of r)).
Definition hb_response (r : hb_run) : option heartbeat_response_t := snd (fst (result_of r)).
Definition hb_context (r : hb_run) : agent_context_t := snd (result_of r).

(* ===================================================================== *)
(** ** nasl_executor.c *)
(* ===================================================================== *)

Record scan_result_t : Type := mk_scan_result {
  nvt_oid : option string;
  nvt_name : option string;
  severity : float;
  cvss_base_vector : option string;
  host : option string;
  port : option string;
  threat : option string;
  description : option string;
  qod : Z
}.

Record scan_result_list_t : Type := mk_scan_result_list {
  results : list scan_result_t;
  result_count : Z
}.

Record scan_preferences_t : Type := mk_scan_preferences {
  max_checks : Z;
  max_hosts : Z;
  timeout_minutes : Z
}.

Definition nasl_executor_has_openvas_nasl : M bool :=
  fun w => (g_has_openvas_nasl w, w, []).

(** nvt_feed.c, [nvt_feed_lookup_by_oid]: the row of the cache, if any. *)
Definition nvt_feed_lookup_by_oid (oid : option string) : M (option nvt_record_t) :=
  fun w =>
    match oid with
    | Some o => (nvt_cache w o, w, [])
    | None => (None, w, [])
    end.

Definition create_scan_result (oid name : option string) (severity : float)
  (host port description : option string) : scan_result_t :=
  mk_scan_result oid name severity (Some "AV:N/AC:L/Au:N/C:N/I:N/A:N") host port
    (if PrimFloat.leb 7.0%float severity then Some "High"
     else if PrimFloat.leb 4.0%float severity then Some "Medium"
     else Some "Low")
    description 70.

Definition is_vulnerability_line (line : string) : bool :=
  match CStr.strstr line "ALARM", CStr.strstr line "HOLE", CStr.strstr line "WARNING" with
  | None, None, None => false
  | _, _, _ => true
  end.

(** The loop over the output of openvas-nasl: [found_vulnerability] and
    [description]. *)
Fixpoint scan_nasl_output (lines : list string) (found : bool) (description : string)
  : bool * string :=
  match lines with
  | [] => (found, description)
  | buf :: rest =>
      let line := CStr.c_str buf in
      if is_vulnerability_line line then
        scan_nasl_output rest true
          (CStr.strncat description line (1024 - String.length description - 1))
      else scan_nasl_output rest found description
  end.

Definition nasl_executor_run_script (nvt : option nvt_record_t) (target : option string)
  : M (Z * option scan_result_list_t) :=
  match nvt, target with
  | Some nvt, Some tgt =>
      has_nasl <- nasl_executor_has_openvas_nasl ;;
      if has_nasl then
        let nasl_cmd :=
          CStr.snprintf 2048
            ("openvas-nasl -t " ++ tgt ++ " "
             ++ CStr.quoted (CStr.fmt_s (nvt_rec_filename nvt)) ++ " 2>&1") in
        fp <- popen nasl_cmd ;;
        match fp with
        | None => ret (ERR_JOB_EXECUTION_FAILED, None)
        | Some output =>
            let '(found_vulnerability, description) :=
              scan_nasl_output (CStr.fgets_all 512 output) false "" in
            if found_vulnerability then
              let result :=
                create_scan_result (nvt_rec_oid nvt) (nvt_rec_name nvt) (cvss_base nvt)
                  (Some tgt) (Some "general/tcp")
                  (Some (match description with
                         | EmptyString => "Vulnerability detected by NASL script"
                         | _ => description
                         end)) in
              ret (ERR_SUCCESS, Some (mk_scan_result_list [result] 1))
            else ret (ERR_SUCCESS, Some (mk_scan_result_list [] 0))
        end
      else if PrimFloat.ltb 0%float (cvss_base nvt) then
        let result :=
          create_scan_result (nvt_rec_oid nvt) (nvt_rec_name nvt) (cvss_base nvt)
            (Some tgt) (Some "general/tcp")
            (Some "Phase 2: Simplified check result (install openvas-nasl for full scanning)") in
        ret (ERR_SUCCESS, Some (mk_scan_result_list [result] 1))
      else ret (ERR_SUCCESS, Some (mk_scan_result_list [] 0))
  | _, _ => ret (ERR_JOB_EXECUTION_FAILED, None)
  end.

(** The loop [for (i = 0; i < oid_count; i++)] of [nasl_executor_run_scan]
    from index [i] on, with the results gathered so far. *)
Fixpoint run_scan_loop (oids : list string) (i oid_count : Z) (target : option string)
  (preferences : option scan_preferences_t) (all_results : list scan_result_t)
  : M (list scan_result_t) :=
  match oids with
  | [] => ret all_results
  | oid :: rest =>
      nvt <- nvt_feed_lookup_by_oid (Some oid) ;;
      match nvt with
      | None => run_scan_loop rest (i + 1) oid_count target preferences all_results
      | Some _ =>
          '(exec_result, script_results) <- nasl_executor_run_script nvt target ;;
          let all_results' :=
            match script_results with
            | Some sr =>
                if exec_result =? ERR_SUCCESS
                then (all_results ++ firstn (Z.to_nat (result_count sr)) (results sr))%list
                else all_results
            | None => all_results
            end in
          (match preferences with
           | Some _ => if i <? oid_count - 1 then utils_sleep 1 else ret tt
           | None => ret tt
           end) ;;;
          run_scan_loop rest (i + 1) oid_count target preferences all_results'
      end
  end.

Definition nasl_executor_run_scan (oids : option (list string)) (oid_count : Z)
  (target : option string) (preferences : option scan_preferences_t)
  : M (Z * option scan_result_list_t) :=
  match oids, target with
  | Some l, Some _ =>
      if oid_count =? 0 then ret (ERR_JOB_EXECUTION_FAILED, None)
      else
        all <- run_scan_loop (firstn (Z.to_nat oid_count) l) 0 oid_count target
                 preferences [] ;;
        ret (ERR_SUCCESS, Some (mk_scan_result_list all (Z.of_nat (List.length all))))
  | _, _ => ret (ERR_JOB_EXECUTION_FAILED, None)
  end.

(** One of the three port checks of [nasl_executor_run_basic_checks]. *)
Definition basic_check (target : string) (port_number oid name port text : string)
  (found : list scan_result_t) : M (list scan_result_t) :=
  st <- system (CStr.snprintf 256
                  ("nc -zv -w2 " ++ target ++ " " ++ port_number
                   ++ " 2>&1 | grep -q succeeded")) ;;
  if st =? 0 then
    ret (found ++ [create_scan_result (Some oid) (Some name) 0%float (Some target)
                     (Some port) (Some text)])%list
  else ret found.

Definition nasl_executor_run_basic_checks (target : option string)
  : M (Z * option scan_result_list_t) :=
  match target with
  | None => ret (ERR_JOB_EXECUTION_FAILED, None)
  | Some tgt =>
      r1 <- basic_check tgt "22" "1.3.6.1.4.1.25623.1.0.900001" "SSH Service Detection"
              "22/tcp" "SSH service is running on port 22" [] ;;
      r2 <- basic_check tgt "80" "1.3.6.1.4.1.25623.1.0.900002" "HTTP Service Detection"
              "80/tcp" "HTTP service is running on port 80" r1 ;;
      r3 <- basic_check tgt "443" "1.3.6.1.4.1.25623.1.0.900003" "HTTPS Service Detection"
              "443/tcp" "HTTPS service is running on port 443" r2 ;;
      ret (ERR_SUCCESS, Some (mk_scan_result_list r3 (Z.of_nat (List.length r3))))
  end.

(** The results behind [*results_out]; none when it was left NULL. *)
Definition results_of_scan (results_out : option scan_result_list_t) : list scan_result_t :=
  match results_out with
  | Some sr => results sr
  | None => []
  end.

(* ===================================================================== *)
(** ** job_processor.c *)
(* ===================================================================== *)

Record job_t : Type := mk_job {
  job_id : option string;
  scan_id : option string;
  job_type : option string;
  priority : option string;
  created_at : option string;
  config_json : option string
}.

Record job_list_t : Type := mk_job_list {
  jobs : option (list job_t);
  job_count : Z
}.

Definition job_poll_headers (ctx : agent_context_t) : list string :=
  [ "Accept: application/json";
    CStr.snprintf 512 ("Authorization: Bearer " ++ CStr.fmt_s (auth_token (config ctx)));
    CStr.snprintf 256 ("X-Agent-ID: " ++ CStr.fmt_s (agent_id (config ctx))) ].

Definition is_some {A : Type} (o : option A) : bool :=
  match o with Some _ => true | None => false end.

(** [job_poll]: the return code and [*jobs_out]. *)
Definition job_poll (ctx : agent_context_t) : M (Z * option job_list_t) :=
  match utils_build_url (controller_url (config ctx)) (Some JOBS_PATH) with
  | None => ret (ERR_NETWORK_UNREACHABLE, None)
  | Some jobs_url =>
      emit (EvHttpGet jobs_url (job_poll_headers ctx)) ;;;
      res <- curl_easy_perform ;;
      match res with
      | TransportError _ => ret (ERR_NETWORK_UNREACHABLE, None)
      | HttpReply st raw =>
          let body := CStr.c_str raw in
          if st =? 401 then ret (ERR_AUTH_FAILED, None)
          else if negb (st =? 200) then ret (ERR_SERVER_ERROR, None)
          else if is_some (CStr.strstr body (CStr.quoted "jobs" ++ ": []"))
                  || is_some (CStr.strstr body (CStr.quoted "jobs" ++ ":[]"))
          then ret (ERR_SUCCESS, Some (mk_job_list None 0))
          else
            (* Phase 2: the body is logged, not parsed *)
            ret (ERR_SUCCESS, Some (mk_job_list None 0))
      end
  end.

Section JobExecution.
Context `{LibcFormat}.

Definition or_empty (p : option string) : string :=
  match p with Some s => s | None => "" end.

Definition result_item (first : bool) (r : scan_result_t) : string :=
  let q := CStr.quoted in
  CStr.snprintf 1024
    ((if first then "" else ",") ++ "{"
     ++ q "nvt" ++ ":{" ++ q "oid" ++ ":" ++ q (or_empty (nvt_oid r)) ++ ","
     ++ q "name" ++ ":" ++ q (or_empty (nvt_name r)) ++ ","
     ++ q "severity" ++ ":" ++ fmt_f1 (severity r) ++ ","
     ++ q "cvss_base_vector" ++ ":" ++ q (or_empty (cvss_base_vector r)) ++ "},"
     ++ q "host" ++ ":" ++ q (or_empty (host r)) ++ ","
     ++ q "port" ++ ":" ++ q (or_empty (port r)) ++ ","
     ++ q "threat" ++ ":" ++ q (or_empty (threat r)) ++ ","
     ++ q "description" ++ ":" ++ q (or_empty (description r)) ++ ","
     ++ q "qod" ++ ":" ++ CStr.fmt_d (qod r)
     ++ "}").

(** The loop that fills [results_array]. *)
Fixpoint results_array_loop (first : bool) (rs : list scan_result_t)
  (results_array : string) : string :=
  match rs with
  | [] => results_array
  | r :: rest =>
      results_array_loop false rest
        (CStr.strncat results_array (result_item first r)
           (8192 - String.length results_array - 1))
  end.

Definition TEST_OIDS : list string :=
  [ "1.3.6.1.4.1.25623.1.0.10662"; "1.3.6.1.4.1.25623.1.0.10330" ].

(** [job_execute]: the return code and [*results_json_out]. *)
Definition job_execute (ctx : agent_context_t) (job : job_t) : M (Z * option string) :=
  started_at <- utils_get_iso8601_timestamp ;;
  let target := Some "localhost" in
  has_nasl <- nasl_executor_has_openvas_nasl ;;
  '(_, scan_results) <-
     (if has_nasl then
        nasl_executor_run_scan (Some TEST_OIDS) 2 target
          (Some (mk_scan_preferences 4 20 60))
      else nasl_executor_run_basic_checks target) ;;
  completed_at <- utils_get_iso8601_timestamp ;;
  let results_array :=
    match scan_results with
    | Some sr =>
        if 0 <? result_count sr
        then results_array_loop true
               (firstn (Z.to_nat (result_count sr)) (results sr)) "["
        else "["
    | None => "["
    end ++ "]" in
  let q := CStr.quoted in
  let results_json :=
    CStr.snprintf 16384
      ("{" ++ q "job_id" ++ ":" ++ q (CStr.fmt_s (job_id job)) ++ ","
       ++ q "scan_id" ++ ":" ++ q (CStr.fmt_s (scan_id job)) ++ ","
       ++ q "agent_id" ++ ":" ++ q (CStr.fmt_s (agent_id (config ctx))) ++ ","
       ++ q "status" ++ ":" ++ q "completed" ++ ","
       ++ q "started_at" ++ ":" ++ q (or_empty started_at) ++ ","
       ++ q "completed_at" ++ ":" ++ q (or_empty completed_at) ++ ","
       ++ q "results" ++ ":" ++ results_array
       ++ "}") in
  ret (ERR_SUCCESS, Some results_json).

End JobExecution.

Definition results_path (job_id : string) : string :=
  CStr.snprintf 512 ("/api/v1/agents/jobs/" ++ job_id ++ "/results").

Definition job_submit_results (ctx : agent_context_t) (job_id scan_id : option string)
  (results_json : option string) : M Z :=
  match job_id, scan_id, results_json with
  | Some jid, Some _, Some _ =>
      match utils_build_url (controller_url (config ctx)) (Some (results_path jid)) with
      | None => ret ERR_NETWORK_UNREACHABLE
      | Some results_url =>
          '(success, http_response) <-
             http_post (Some results_url) (auth_token (config ctx)) results_json ;;
          match success, http_response with
          | true, Some r =>
              if status_code r =? 401 then ret ERR_AUTH_FAILED
              else if negb (status_code r =? 202) then ret ERR_SERVER_ERROR
              else ret ERR_SUCCESS
          | _, _ => ret ERR_NETWORK_UNREACHABLE
          end
      end
  | _, _, _ => ret ERR_JOB_EXECUTION_FAILED
  end.

(* ===================================================================== *)
(** ** agent.c *)
(* ===================================================================== *)

Inductive sa_family_t : Type := AF_INET | AF_INET6 | AF_OTHER.

(** An interface address: its family and, for an [AF_INET] address, the
    text [inet_ntop] gives. *)
Record sockaddr : Type := mk_sockaddr {
  sa_family : sa_family_t;
  sa_text : string
}.

(** What the operating system reports to [agent_get_system_info]:
    - on POSIX builds (the [#else] branches, also taken on macOS), the
      result of [uname] and the list behind [getifaddrs], whose entries may
      have a NULL [ifa_addr];
    - on [_WIN32] builds, the version and processor of the machine and the
      adapters of [GetAdaptersAddresses], each with its unicast
      addresses.
    [None] stands for a failed call. *)
Record utsname : Type := mk_utsname {
  sysname : string;
  release : string;
  machine : string
}.

Inductive processor_architecture : Type :=
| PROCESSOR_ARCHITECTURE_AMD64
| PROCESSOR_ARCHITECTURE_ARM64
| PROCESSOR_ARCHITECTURE_OTHER.

Inductive host_os : Type :=
| PosixHost (uname : option utsname) (getifaddrs : option (list (option sockaddr)))
| Win32Host (dwMajorVersion dwMinorVersion : Z)
    (wProcessorArchitecture : processor_architecture)
    (adapter_addresses : option (list (list sockaddr))).

Definition is_af_inet (f : sa_family_t) : bool :=
  match f with AF_INET => true | _ => false end.

(** POSIX: [for (ifa = ifaddr; ifa != NULL && ip_count < 16; ifa = ifa->ifa_next)]. *)
Fixpoint posix_collect_ips (ifa : list (option sockaddr)) (ip_addresses : list string)
  : list string :=
  match ifa with
  | [] => ip_addresses
  | entry :: next =>
      if (Z.of_nat (List.length ip_addresses) <? 16) then
        match entry with
        | None => posix_collect_ips next ip_addresses
        | Some sa =>
            if is_af_inet (sa_family sa) then
              (* Skip loopback *)
              if negb (CStr.strcmp_eq (sa_text sa) "127.0.0.1")
              then posix_collect_ips next (ip_addresses ++ [sa_text sa])%list
              else posix_collect_ips next ip_addresses
            else posix_collect_ips next ip_addresses
        end
      else ip_addresses
  end.

(** Windows: [while (unicast && ip_count < 16)]. *)
Fixpoint win32_collect_unicast (unicast : list sockaddr) (ip_addresses : list string)
  : list string :=
  match unicast with
  | [] => ip_addresses
  | sa :: next =>
      if (Z.of_nat (List.length ip_addresses) <? 16) then
        if is_af_inet (sa_family sa)
        then win32_collect_unicast next (ip_addresses ++ [sa_text sa])%list
        else win32_collect_unicast next ip_addresses
      else ip_addresses
  end.

(** Windows: [while (adapter && ip_count < 16)]. *)
Fixpoint win32_collect_adapters (adapter : list (list sockaddr)) (ip_addresses : list string)
  : list string :=
  match adapter with
  | [] => ip_addresses
  | unicast :: next =>
      if (Z.of_nat (List.length ip_addresses) <? 16) then
        win32_collect_adapters next (win32_collect_unicast unicast ip_addresses)
      else ip_addresses
  end.

Record system_info : Type := mk_system_info {
  os_out : option string;
  arch_out : option string;
  ips_out : list string;
  ip_count_out : Z
}.

(** [agent_get_system_info]: the return code and the four out-parameters. *)
Definition agent_get_system_info (os : host_os) : Z * system_info :=
  let '(os_name, arch, collected) :=
    match os with
    | Win32Host major minor cpu adapters =>
        (CStr.snprintf 256 ("Windows " ++ CStr.fmt_d major ++ "." ++ CStr.fmt_d minor),
         match cpu with
         | PROCESSOR_ARCHITECTURE_AMD64 => "amd64"
         | PROCESSOR_ARCHITECTURE_ARM64 => "arm64"
         | PROCESSOR_ARCHITECTURE_OTHER => "x86"
         end,
         match adapters with
         | Some l => win32_collect_adapters l []
         | None => []
         end)
    | PosixHost un ifaddr =>
        (match un with
         | Some u => CStr.snprintf 256 (sysname u ++ " " ++ release u)
         | None => "Unknown"
         end,
         match un with
         | Some u => machine u
         | None => "Unknown"
         end,
         match ifaddr with
         | Some l => posix_collect_ips l []
         | None => []
         end)
    end in
  (* Always include at least one IP *)
  let ip_addresses :=
    if Z.of_nat (List.length collected) =? 0 then ["127.0.0.1"] else collected in
  (ERR_SUCCESS,
   mk_system_info (Some os_name) (Some arch) ip_addresses
     (Z.of_nat (List.length ip_addresses))).

Definition agent_state_eqb (a b : agent_state_t) : bool :=
  match a, b with
  | AGENT_STATE_INITIALIZING, AGENT_STATE_INITIALIZING
  | AGENT_STATE_REGISTERING, AGENT_STATE_REGISTERING
  | AGENT_STATE_ACTIVE, AGENT_STATE_ACTIVE
  | AGENT_STATE_UNAUTHORIZED, AGENT_STATE_UNAUTHORIZED
  | AGENT_STATE_ERROR, AGENT_STATE_ERROR
  | AGENT_STATE_SHUTDOWN, AGENT_STATE_SHUTDOWN => true
  | _, _ => false
  end.

Section AgentRun.
Context `{LibcFormat}.

(** The body of [for (int i = 0; i < jobs->job_count; i++)]. *)
Definition agent_run_job (ctx : agent_context_t) (job : job_t) : M unit :=
  '(exec_result, results_json) <- job_execute ctx job ;;
  if (exec_result =? ERR_SUCCESS) && is_some results_json then
    job_submit_results ctx (job_id job) (scan_id job) results_json ;;; ret tt
  else ret tt.

Fixpoint agent_run_jobs (ctx : agent_context_t) (js : list job_t) : M unit :=
  match js with
  | [] => ret tt
  | job :: rest => agent_run_job ctx job ;;; agent_run_jobs ctx rest
  end.

(** What the main loop does with the outcome of [job_poll]. The loop
    reads [jobs->jobs[0 .. job_count - 1]]. *)
Definition agent_process_jobs (ctx : agent_context_t) (job_result : Z)
  (polled : option job_list_t) : M unit :=
  match polled with
  | Some jl =>
      if job_result =? ERR_SUCCESS then
        if 0 <? job_count jl then
          agent_run_jobs ctx
            (firstn (Z.to_nat (job_count jl))
               (match jobs jl with Some l => l | None => [] end))
        else ret tt
      else ret tt
  | None => ret tt
  end.

(** One round of [while (1)] in [agent_run]. *)
Definition agent_run_iteration (ctx : agent_context_t) : M agent_context_t :=
  '(hb_result, hb_response, ctx) <- heartbeat_send_with_retry ctx ;;
  if negb (hb_result =? ERR_SUCCESS) then
    utils_sleep (heartbeat_interval_seconds (config ctx)) ;;; ret ctx
  else if negb (authorized ctx) then
    let ctx := set_state AGENT_STATE_UNAUTHORIZED ctx in
    utils_sleep (heartbeat_interval_seconds (config ctx)) ;;; ret ctx
  else
    let ctx :=
      if negb (agent_state_eqb (state ctx) AGENT_STATE_ACTIVE)
      then set_state AGENT_STATE_ACTIVE ctx else ctx in
    '(job_result, polled) <- job_poll ctx ;;
    agent_process_jobs ctx job_result polled ;;;
    utils_sleep (heartbeat_interval_seconds (config ctx)) ;;;
    ret ctx.

(** The first [n] rounds of the main loop of [agent_run], which never
    leaves it. *)
Fixpoint agent_run (n : nat) (ctx : agent_context_t) : M agent_context_t :=
  match n with
  | O => ret ctx
  | S n' => ctx' <- agent_run_iteration ctx ;; agent_run n' ctx'
  end.

End AgentRun.

(* ===================================================================== *)
(** ** agent.c: start-up; main.c *)
(* ===================================================================== *)

(** The three builds that config.c tells apart. *)
Inductive platform : Type := PLATFORM_WIN32 | PLATFORM_APPLE | PLATFORM_OTHER.

(** config.c, [config_get_default_path]. *)
Definition config_get_default_path (built_for : platform) : string :=
  match built_for with
  | PLATFORM_WIN32 => "C:\Program Files\GVM Agent\agent.conf"
  | PLATFORM_APPLE => "/Library/Application Support/GVM Agent/agent.conf"
  | PLATFORM_OTHER => "/etc/gvm-agent/agent.conf"
  end.

(** What [agent_init] finds on the machine: whether libcurl initializes,
    the readable files, the UUID that [utils_generate_uuid] produces
    ([None] when it fails), the name [gethostname] writes, and what the
    operating system reports to [agent_get_system_info]. *)
Record host_machine : Type := mk_host_machine {
  built_for : platform;
  curl_global_init_ok : bool;
  files : string -> option string;
  utils_generate_uuid : option string;
  gethostname : string;
  system_report : host_os
}.

(** [http_client_init]. *)
Definition http_client_init (m : host_machine) : bool := curl_global_init_ok m.

(** [agent_get_or_generate_uuid]: the return code and [*uuid_out]; the
    path is not looked at. *)
Definition agent_get_or_generate_uuid (config_path : option string) (m : host_machine)
  : Z * option string :=
  match utils_generate_uuid m with
  | None => (ERR_INVALID_RESPONSE, None)
  | Some uuid => (ERR_SUCCESS, Some uuid)
  end.

(** [agent_init]: the context, or [None] for NULL. The two calls of
    [utils_log_init] only set the level of the log. *)
Definition agent_init (config_path : option string) (m : host_machine)
  : option agent_context_t :=
  if negb (http_client_init m) then None
  else
    let conf_path :=
      match config_path with
      | Some path => path
      | None => config_get_default_path (built_for m)
      end in
    let '(load_result, loaded) := Config.config_load (Some conf_path) (files m) in
    if negb (load_result =? ERR_SUCCESS) then None
    else
      match loaded with
      | None => None
      | Some config =>
          let identified :=
            if Config.missing_or_empty (agent_id config) then
              let '(uuid_result, uuid) :=
                agent_get_or_generate_uuid (Some conf_path) m in
              if negb (uuid_result =? ERR_SUCCESS) then None
              else Some (Config.set_agent_id uuid config)
            else Some config in
          match identified with
          | None => None
          | Some config =>
              let config :=
                if Config.missing_or_empty (hostname config)
                then Config.set_hostname (Some (CStr.c_str (gethostname m))) config
                else config in
              let '(_, info) := agent_get_system_info (system_report m) in
              Some (mk_context config AGENT_STATE_REGISTERING false 0 0
                      (os_out info) (arch_out info) (ips_out info) (ip_count_out info))
          end
      end.

(** What the loop over [argv[1 .. argc - 1]] of [main] ends with: an exit
    code, or the path that goes to [agent_init]. *)
Inductive arguments_outcome : Type :=
| ArgumentsExit (code : Z)
| ArgumentsPath (config_path : option string).

Fixpoint parse_arguments (args : list string) (config_path : option string)
  : arguments_outcome :=
  match args with
  | [] => ArgumentsPath config_path
  | arg :: rest =>
      if CStr.strcmp_eq arg "-h" || CStr.strcmp_eq arg "--help" then ArgumentsExit 0
      else if CStr.strcmp_eq arg "-v" || CStr.strcmp_eq arg "--version"
      then ArgumentsExit 0
      else if CStr.strcmp_eq arg "-c" || CStr.strcmp_eq arg "--config" then
        match rest with
        | path :: after => parse_arguments after (Some path)
        | [] => ArgumentsExit 1
        end
      else ArgumentsExit 1
  end.

(** [main]: the code it returns, or the context with which it enters
    [agent_run], which has no exit. *)
Inductive main_outcome : Type :=
| MainReturns (code : Z)
| MainRuns (ctx : agent_context_t).

Definition main (argv : list string) (m : host_machine) : main_outcome :=
  match parse_arguments (tl argv) None with
  | ArgumentsExit code => MainReturns code
  | ArgumentsPath config_path =>
      match agent_init config_path m with
      | None => MainReturns 1
      | Some ctx => MainRuns ctx
      end
  end.

(** nasl_executor.c, [nasl_executor_init]: the only place where the
    static flag is written. No function of the sources calls it. *)
Definition with_g_has_openvas_nasl (b : bool) (w : world) : world :=
  mk_world (http_replies w) (rand_values w) (system_statuses w) (popen_outputs w)
    (clock w) (nvt_cache w) b.

Definition nasl_executor_init : M Z :=
  check <- system "which openvas-nasl > /dev/null 2>&1" ;;
  (fun w => (tt, with_g_has_openvas_nasl (check =? 0) w, [])) ;;;
  ret ERR_SUCCESS.

(* ===================================================================== *)
(** ** nvt_feed.c and auto_update.c: the parts that stand on the above *)
(* ===================================================================== *)

(** [nvt_feed_sync_needed]: [last_sync_time], [now], [diff_seconds] and
    [diff_hours] are [long] (64 bits), [sync_interval_hours] is an [int],
    converted to [long] for the comparison. *)
Definition nvt_feed_sync_needed (last_sync_time sync_interval_hours : Z) : M bool :=
  now <- utils_get_unix_timestamp ;;
  let diff_seconds := CStr.wrap_long (now - last_sync_time) in
  let diff_hours := CStr.wrap_long (Z.quot diff_seconds 3600) in
  ret (sync_interval_hours <=? diff_hours).

Record update_info_t : Type := mk_update_info {
  update_available : bool;
  latest_version : option string;
  download_url : option string;
  checksum : option string;
  release_notes : option string
}.

Definition UPDATES_PATH : string := "/api/v1/agents/updates".

(** [auto_update_check]: the return code and [*update_info_out]; the
    structure comes from [calloc], so what is not found stays off or
    NULL. *)
Definition auto_update_check (ctx : agent_context_t) : M (Z * option update_info_t) :=
  match utils_build_url (controller_url (config ctx)) (Some UPDATES_PATH) with
  | None => ret (ERR_NETWORK_UNREACHABLE, None)
  | Some update_url =>
      '(success, http_response) <-
         http_get (Some update_url) (auth_token (config ctx)) ;;
      match success, http_response with
      | true, Some r =>
          if negb (status_code r =? 200) then ret (ERR_SERVER_ERROR, None)
          else
            let info :=
              mk_update_info
                (match http_parse_json_bool (body r) "update_available" with
                 | Some b => b
                 | None => false
                 end)
                (http_parse_json_string (body r) "latest_version")
                (http_parse_json_string (body r) "download_url")
                (http_parse_json_string (body r) "checksum")
                (http_parse_json_string (body r) "release_notes") in
            ret (ERR_SUCCESS, Some info)
      | _, _ => ret (ERR_NETWORK_UNREACHABLE, None)
      end
  end.

(* ===================================================================== *)
(** ** Specification-side notions *)
(* ===================================================================== *)

Module ConfigSpec.
Import CStr Config.

(** The reading loop finds no value for a required key, or an empty one
    last. *)
Definition key_missing_or_empty (section key content : string) : Prop :=
  file_value section key content = None \/ file_value section key content = Some "".

(** Some [key = value] line of the file names a key that is not an option
    of the section it stands in. *)
Fixpoint unknown_key_in (lines : list string) (cur : string) : bool :=
  match lines with
  | [] => false
  | line :: rest =>
      match classify_line line with
      | LineSkip => unknown_key_in rest cur
      | LineSection name => unknown_key_in rest name
      | LineAssign k _ => negb (recognized cur k) || unknown_key_in rest cur
      end
  end.

Definition has_unknown_key (content : string) : bool :=
  unknown_key_in (fgets_all MAX_LINE_LENGTH content) "".

End ConfigSpec.

Module AgentSpec.

Definition is_sleep (e : event) : Prop :=
  match e with EvSleep _ => True | _ => False end.

(** An HTTP request, of either method, to [url]. *)
Definition requests (url : string) (e : event) : Prop :=
  match e with
  | EvHttpPost u _ _ => u = url
  | EvHttpGet u _ => u = url
  | _ => False
  end.

Definition requestsb (url : string) (e : event) : bool :=
  match e with
  | EvHttpPost u _ _ => String.eqb u url
  | EvHttpGet u _ => String.eqb u url
  | _ => false
  end.

(** The method and URL of an HTTP request; [None] for any other event. *)
Definition request_target (e : event) : option (string * string) :=
  match e with
  | EvHttpPost u _ _ => Some ("POST", u)
  | EvHttpGet u _ => Some ("GET", u)
  | _ => None
  end.

(** The endpoints of the agent surface that the specification names and
    the sources do not. *)
Definition CONFIG_PATH : string := "/api/v1/agents/config".


Definition is_http_post (e : event) : bool :=
  match e with EvHttpPost _ _ _ => true | _ => false end.

(** The number of POST requests in a trace. *)
Definition count_posts (trace : list event) : nat :=
  List.length (filter is_http_post trace).

(** The value [rand()] gives next in [w]. *)
Definition next_rand (w : world) : Z :=
  match rand_values w with
  | [] => 0
  | r :: _ => Z.of_N r
  end.

(** The jitter drawn from the random value [r], in milliseconds: [r]
    modulo the configured bound; none when the bound is not positive. *)
Definition jitter_ms (c : agent_config_t) (r : Z) : Z :=
  if max_jitter_seconds c <=? 0 then 0
  else Z.rem r (max_jitter_seconds c * 1000).

(** The wait after [attempt] takes a random value. *)
Definition draws_jitter (c : agent_config_t) (attempt : Z) : bool :=
  (attempt <? retry_attempts c) && (0 <? max_jitter_seconds c).

(** The wait between a failed attempt and the next one, when [rand()]
    gives [r]: the base delay doubled with every attempt, with no ceiling;
    then the jitter drawn from [r], in whole seconds, which is at most the
    configured number of seconds (a jitter under one millisecond is not
    slept at all). No wait follows the last attempt. *)
Definition backoff_wait (c : agent_config_t) (attempt r : Z) (waits : list event)
  : Prop :=
  if attempt <? retry_attempts c then
    waits = EvSleep (retry_delay_seconds c * 2 ^ (attempt - 1))
            :: (if 0 <? jitter_ms c r
                then [EvSleep (Z.quot (jitter_ms c r) 1000)]
                else [])
    /\ 0 <= Z.quot (jitter_ms c r) 1000 <= max_jitter_seconds c
  else waits = [].

(** The retry protocol of the heartbeat, attempt by attempt:
    [retry_spec attempt ctx w code trace] says that the attempts numbered
    from [attempt] on, started in context [ctx] and world [w], end with
    [code] after the events of [trace]. The random values are taken from
    the world in their order, one for each wait that has a jitter. *)
Inductive retry_spec : Z -> agent_context_t -> world -> Z -> list event -> Prop :=
| retry_exhausted (attempt : Z) ctx w :
    retry_attempts (config ctx) < attempt ->
    retry_spec attempt ctx w ERR_NETWORK_UNREACHABLE []
| retry_success (attempt : Z) ctx w response ctx1 w1 t :
    attempt <= retry_attempts (config ctx) ->
    heartbeat_send ctx w = (ERR_SUCCESS, response, ctx1, w1, t) ->
    retry_spec attempt ctx w ERR_SUCCESS t
| retry_auth_failed (attempt : Z) ctx w response ctx1 w1 t :
    attempt <= retry_attempts (config ctx) ->
    heartbeat_send ctx w = (ERR_AUTH_FAILED, response, ctx1, w1, t) ->
    retry_spec attempt ctx w ERR_AUTH_FAILED t
| retry_transient (attempt : Z) ctx w code response ctx1 w1 t waits w2 result rest :
    attempt <= retry_attempts (config ctx) ->
    heartbeat_send ctx w = (code, response, ctx1, w1, t) ->
    code <> ERR_SUCCESS ->
    code <> ERR_AUTH_FAILED ->
    backoff_wait (config ctx) attempt (next_rand w1) waits ->
    http_replies w2 = http_replies w1 ->
    rand_values w2
    = (if draws_jitter (config ctx) attempt then tl (rand_values w1)
       else rand_values w1) ->
    retry_spec (attempt + 1) ctx1 w2 result rest ->
    retry_spec attempt ctx w result (t ++ waits ++ rest)%list.

(** The events of a heartbeat: POSTs to the heartbeat endpoint and
    sleeps. *)
Definition heartbeat_event (c : agent_config_t) (e : event) : Prop :=
  match e with
  | EvHttpPost u _ _ => utils_build_url (controller_url c) (Some HEARTBEAT_PATH) = Some u
  | EvSleep _ => True
  | _ => False
  end.

(** The events of a round of the main loop that runs no job: heartbeat
    POSTs, the GET of the job poll, sleeps. *)
Definition idle_event (c : agent_config_t) (e : event) : Prop :=
  match e with
  | EvHttpPost u _ _ => utils_build_url (controller_url c) (Some HEARTBEAT_PATH) = Some u
  | EvHttpGet u _ => utils_build_url (controller_url c) (Some JOBS_PATH) = Some u
  | EvSleep _ => True
  | _ => False
  end.


(** What the execution of a scan does on the host: commands, pipes and
    pauses; no HTTP request. *)
Definition local_event (e : event) : Prop :=
  match e with
  | EvSystem _ | EvPopen _ | EvSleep _ => True
  | _ => False
  end.

Definition LOOPBACK : string := "127.0.0.1".

(** The threat labels of the result schema. *)
Definition THREAT_LABELS : list string := ["Log"; "Low"; "Medium"; "High"; "Critical"].

Definition well_labelled (r : scan_result_t) : Prop :=
  exists label, threat r = Some label /\ In label THREAT_LABELS.

End AgentSpec.

(** *** Further notions about configuration files *)

Module ConfigShape.
Import CStr Config.

(** Every character of [s] satisfies [p]. *)
Fixpoint string_forall (p : ascii -> bool) (s : string) : bool :=
  match s with
  | EmptyString => true
  | String c rest => p c && string_forall p rest
  end.

(** What [trim_whitespace] leaves: no blank or tab in front and, unless a
    single character is left, no white space at the end. *)
Definition trimmed_shape (t : string) : bool :=
  match t with
  | EmptyString => true
  | String c rest =>
      negb (is_blank c)
      && match rest with
         | EmptyString => true
         | String a more => negb (is_trailing_ws (string_last more a))
         end
  end.

Definition not_nul (c : ascii) : bool := negb (Ascii.eqb c NUL).
Definition not_ws (c : ascii) : bool := negb (is_trailing_ws c).
Definition not_dq (c : ascii) : bool := negb (Ascii.eqb c DQ).
Definition not_lf (c : ascii) : bool := negb (Ascii.eqb c LF).

(** A character of a bare word: no NUL, no white space, no quote. *)
Definition word_char (c : ascii) : bool := not_nul c && not_ws c && not_dq c.

(** A character of a key: a word character other than ['=']. *)
Definition key_char (c : ascii) : bool := word_char c && negb (Ascii.eqb c "="%char).

(** A key as a configuration file writes it: a non-empty word without
    ['='] that does not open a comment or a section header. *)
Definition is_key (k : string) : bool :=
  match k with
  | EmptyString => false
  | String c rest =>
      key_char c
      && negb (Ascii.eqb c "#"%char || Ascii.eqb c ";"%char || Ascii.eqb c "["%char)
      && string_forall key_char rest
  end.

(** A bare value: a non-empty word (it may contain ['=']). *)
Definition is_word (v : string) : bool :=
  match v with
  | EmptyString => false
  | String _ _ => string_forall word_char v
  end.

(** A value that can stand between quotes: no NUL and no quote; spaces
    are fine, and so is the empty value. *)
Definition quotable (v : string) : bool :=
  string_forall (fun c => not_nul c && not_dq c) v.

(** The smallest configuration file: the two required keys. *)
Definition render_minimal_config (url token : string) : string :=
  "[controller]" ++ String LF
    ("url = " ++ url ++ String LF
       ("auth_token = " ++ token ++ String LF "")).

(** The value an optional numeric key ends up with. *)
Definition numeric_option (section key content : string) (default : Z) : Z :=
  match file_value section key content with
  | Some v => atoi v
  | None => default
  end.

(** A file made of these lines, each ended by a newline. *)
Definition join_lines (lines : list string) : string :=
  fold_right (fun line rest => line ++ String LF rest) "" lines.

(** A line that, with its newline, fits the buffer of [config_load], so
    that one [fgets] takes it whole. *)
Definition short_line (line : string) : bool :=
  string_forall not_lf line && (String.length line + 1 <? MAX_LINE_LENGTH)%nat.

(** [*config_out] is left unset. *)
Definition unreadable (config_path : option string) (fs : string -> option string)
  : bool :=
  match config_path with
  | None => true
  | Some path => match fs path with None => true | Some _ => false end
  end.

End ConfigShape.

(** *** Configuration files as documents

    The file format, apart from the code that reads it: a file is a list
    of lines, each one blank, a comment, a section header, or the
    assignment of a value to a key. *)

Module ConfigDoc.
Import CStr Config ConfigShape.

Inductive conf_line : Type :=
| BlankLine
| CommentLine (mark : ascii) (text : string)
| SectionLine (name : string)
| AssignLine (key value : string) (in_quotes : bool).

(** The text of a line, without its newline. *)
Definition render_line (l : conf_line) : string :=
  match l with
  | BlankLine => ""
  | CommentLine mark text => String mark text
  | SectionLine name => "[" ++ name ++ "]"
  | AssignLine key value in_quotes =>
      key ++ " = " ++ (if in_quotes then quoted value else value)
  end.

(** The text of the lines of [doc], each ended by a newline, followed by
    the text [rest]. *)
Definition render_then (doc : list conf_line) (rest : string) : string :=
  fold_right (fun l text => render_line l ++ String LF text) rest doc.

Definition render_document (doc : list conf_line) : string := render_then doc "".

(** A character of a section name. *)
Definition section_char (c : ascii) : bool :=
  not_nul c && negb (Ascii.eqb c "]"%char).

(** The line is written by the rules of the format: a comment opens with
    ['#'] or [';'], a section name has at most 63 characters and no [']'],
    a key is a word, a value is a bare word or stands between quotes. *)
Definition line_ok (l : conf_line) : bool :=
  match l with
  | BlankLine => true
  | CommentLine mark _ => Ascii.eqb mark "#"%char || Ascii.eqb mark ";"%char
  | SectionLine name =>
      string_forall section_char name && (String.length name <=? 63)%nat
  | AssignLine key value in_quotes =>
      is_key key && (if in_quotes then quotable value else is_word value)
  end.

(** The line, with its newline, fits the line buffer of [config_load]. *)
Definition fits_buffer (l : conf_line) : bool := short_line (render_line l).

Definition well_formed (doc : list conf_line) : bool :=
  forallb (fun l => line_ok l && fits_buffer l) doc.

(** What a line says. *)
Definition line_reading (l : conf_line) : line_kind :=
  match l with
  | BlankLine | CommentLine _ _ => LineSkip
  | SectionLine name => LineSection name
  | AssignLine key value _ => LineAssign key value
  end.

(** The section in force after the lines of [doc], when [cur] is in force
    before them: the name of the last header. *)
Fixpoint section_after (doc : list conf_line) (cur : string) : string :=
  match doc with
  | [] => cur
  | SectionLine name :: rest => section_after rest name
  | _ :: rest => section_after rest cur
  end.

(** The value of [key] under [[section]]: that of the last assignment to
    [key] among the lines that follow a header [[section]] with no other
    header in between. *)
Fixpoint assigned_value (section key : string) (doc : list conf_line)
  (cur : string) (acc : option string) : option string :=
  match doc with
  | [] => acc
  | SectionLine name :: rest => assigned_value section key rest name acc
  | AssignLine k v _ :: rest =>
      if String.eqb cur section && String.eqb k key
      then assigned_value section key rest cur (Some v)
      else assigned_value section key rest cur acc
  | _ :: rest => assigned_value section key rest cur acc
  end.

Definition document_value (section key : string) (doc : list conf_line)
  : option string :=
  assigned_value section key doc "" None.

(** The document gives no value to [key] under [[section]], or an empty
    one. *)
Definition document_lacks (section key : string) (doc : list conf_line) : Prop :=
  document_value section key doc = None \/ document_value section key doc = Some "".

End ConfigDoc.

(** *** Further notions about replies and runs *)

Module RunShape.
Import CStr Config ConfigShape.

Definition not_colon (c : ascii) : bool := negb (Ascii.eqb c ":"%char).

(** [body] holds the quoted [key], then the first colon after it, blanks
    or tabs, and [literal]. *)
Definition json_member (body key literal : string) : Prop :=
  exists pre between blanks rest,
    body = pre ++ quoted key ++ between ++ ":" ++ blanks ++ literal ++ rest
    /\ string_forall not_colon between = true
    /\ string_forall is_blank blanks = true.

(** [needle] does not occur in [body] before the end of [pre]: an
    occurrence that follows [pre] is the first one. *)
Definition first_at (needle pre body : string) : Prop :=
  forall p q, body = p ++ needle ++ q -> (String.length pre <= String.length p)%nat.

(** [body] holds, after the first occurrence of the quoted [key] and the
    first colon that follows it, the text [after]. *)
Definition json_first_colon (body key after : string) : Prop :=
  exists pre between,
    body = pre ++ quoted key ++ between ++ ":" ++ after
    /\ first_at (quoted key) pre body
    /\ string_forall not_colon between = true.

(** [body] holds, after the first occurrence of the quoted [key] and the
    first colon that follows it, blanks or tabs and then [literal]. *)
Definition json_first_member (body key literal : string) : Prop :=
  exists after blanks rest,
    json_first_colon body key after
    /\ after = blanks ++ literal ++ rest
    /\ string_forall is_blank blanks = true.

(** The seconds a trace spends in [utils_sleep]. *)
Definition sleep_seconds (e : event) : Z :=
  match e with EvSleep seconds => seconds | _ => 0 end.

Definition total_sleep (trace : list event) : Z :=
  fold_right (fun e acc => sleep_seconds e + acc) 0 trace.

(** The waits of a run in which every attempt fails: the doubled delays
    between the attempts and the largest jitter after each of them. *)
Definition backoff_budget (c : agent_config_t) : Z :=
  retry_delay_seconds c * (2 ^ (retry_attempts c - 1) - 1)
  + (retry_attempts c - 1) * max_jitter_seconds c.

(** A finding about [target] as the executor builds them: quality of
    detection 70 and a description that is not empty and fits the buffer
    it was gathered in. *)
Definition finding_of (target : string) (r : scan_result_t) : Prop :=
  host r = Some target
  /\ qod r = 70
  /\ exists text,
       description r = Some text /\ text <> "" /\ (String.length text <= 1023)%nat.

(** At the end of a round of the main loop the state tells whether the
    agent is authorized. *)
Definition state_agrees (ctx : agent_context_t) : bool :=
  match state ctx with
  | AGENT_STATE_ACTIVE => authorized ctx
  | AGENT_STATE_REGISTERING | AGENT_STATE_UNAUTHORIZED => negb (authorized ctx)
  | _ => false
  end.

(** What an agent tells about itself: its configuration and the system
    information gathered at start-up. *)
Definition same_identity (a b : agent_context_t) : Prop :=
  config a = config b
  /\ operating_system a = operating_system b
  /\ architecture a = architecture b
  /\ ip_addresses a = ip_addresses b
  /\ ip_address_count a = ip_address_count b.

(** The requests of the main loop of an agent in context [ctx]: the
    heartbeat with its headers and body, the poll with its headers; and
    sleeps. *)
Definition protocol_event (ctx : agent_context_t) (e : event) : Prop :=
  match e with
  | EvHttpPost url headers body =>
      utils_build_url (controller_url (config ctx)) (Some HEARTBEAT_PATH) = Some url
      /\ headers
         = "Content-Type: application/json" :: bearer_header (auth_token (config ctx))
      /\ body = heartbeat_body ctx
  | EvHttpGet url headers =>
      utils_build_url (controller_url (config ctx)) (Some JOBS_PATH) = Some url
      /\ headers = job_poll_headers ctx
  | EvSleep _ => True
  | _ => False
  end.

(** The requests of an agent with the id [aid] and the token [token] to
    the controller at [base], as they go over the wire: the heartbeat, a
    POST of [body] with the content type and the bearer token; the poll,
    a GET with the bearer token and the id of the agent; and sleeps. *)
Definition wire_event (base token aid body : string) (e : event) : Prop :=
  match e with
  | EvHttpPost url headers sent =>
      url = base ++ "/api/v1/agents/heartbeat"
      /\ headers
         = ["Content-Type: application/json"; "Authorization: Bearer " ++ token]
      /\ sent = body
  | EvHttpGet url headers =>
      url = base ++ "/api/v1/agents/jobs"
      /\ headers
         = ["Accept: application/json"; "Authorization: Bearer " ++ token;
            "X-Agent-ID: " ++ aid]
  | EvSleep _ => True
  | _ => False
  end.

(** A command line made of pairs of a [-c] or [--config] flag and a
    path, and nothing else: the paths of the pairs, in their order. *)
Fixpoint config_pairs (args : list string) : option (list string) :=
  match args with
  | [] => Some []
  | flag :: path :: rest =>
      if String.eqb flag "-c" || String.eqb flag "--config"
      then option_map (cons path) (config_pairs rest)
      else None
  | _ :: [] => None
  end.

(** The last of the paths, or [default] when there is none. *)
Fixpoint last_path (paths : list string) (default : option string) : option string :=
  match paths with
  | [] => default
  | path :: rest => last_path rest (Some path)
  end.

(** The GET requests of a trace. *)
Definition is_http_get (e : event) : bool :=
  match e with EvHttpGet _ _ => true | _ => false end.

(** [m] takes no reply of the controller. *)
Definition keeps_replies {A : Type} (m : M A) : Prop :=
  forall w, http_replies (world_of (m w)) = http_replies w.

(** The addresses the POSIX loop may take: the [AF_INET] entries other
    than the loopback address, in the order of the list. *)
Definition posix_candidates (ifa : list (option sockaddr)) : list string :=
  flat_map (fun entry =>
              match entry with
              | Some sa =>
                  if is_af_inet (sa_family sa)
                     && negb (strcmp_eq (sa_text sa) "127.0.0.1")
                  then [sa_text sa] else []
              | None => []
              end) ifa.

(** The addresses the Windows loops may take: every [AF_INET] unicast
    address, adapter after adapter. *)
Definition win32_candidates (adapters : list (list sockaddr)) : list string :=
  map sa_text (filter (fun sa => is_af_inet (sa_family sa)) (List.concat adapters)).

(** The first sixteen of the candidates, or the loopback address when
    there is none. *)
Definition reported_addresses (candidates : list string) : list string :=
  match firstn 16 candidates with
  | [] => ["127.0.0.1"]
  | taken => taken
  end.

(** The array of addresses as [heartbeat_send] builds it. *)
Definition ip_addresses_json (ctx : agent_context_t) : string :=
  "[" ++ ip_addresses_items true
           (firstn (Z.to_nat (ip_address_count ctx)) (ip_addresses ctx)) ++ "]".

(** Every address is the text of an IPv4 address: at most 15
    characters. *)
Definition ipv4_texts (ips : list string) : bool :=
  forallb (fun ip => (String.length ip <=? 15)%nat) ips.

(** The three commands of the built-in checks against this machine. *)
Definition LOCALHOST_PROBES : list event :=
  [ EvSystem "nc -zv -w2 localhost 22 2>&1 | grep -q succeeded";
    EvSystem "nc -zv -w2 localhost 80 2>&1 | grep -q succeeded";
    EvSystem "nc -zv -w2 localhost 443 2>&1 | grep -q succeeded" ].

End RunShape.

(* ===================================================================== *)
(** ** Sample inputs *)
(* ===================================================================== *)

Module Samples.
Import CStr Config.

(** A file system that holds one configuration file. *)
Definition sample_fs (content : string) : string -> option string :=
  fun _ => Some content.

Definition conf_without_token : string :=
  "[controller]" ++ String LF ("url = https://controller.example.org" ++ String LF "").

Definition conf_with_unknown_keys : string :=
  "[controller]" ++ String LF
  ("url = https://controller.example.org" ++ String LF
  ("auth_token = s3cr3t" ++ String LF
  ("bogus_option = 1" ++ String LF
  ("[nonsense]" ++ String LF
  ("foo = bar" ++ String LF ""))))).

Definition conf_interval_30 : string :=
  "[controller]" ++ String LF
  ("url = https://controller.example.org" ++ String LF
  ("auth_token = s3cr3t" ++ String LF
  ("[heartbeat]" ++ String LF
  ("interval_in_seconds = 30" ++ String LF "")))).

Definition config_interval (n : Z) : agent_config_t :=
  mk_config None None (Some "https://controller.example.org") (Some "s3cr3t")
    n 5 60 30 (Some "info").

(** What [conf_with_unknown_keys] loads as. *)
Definition loaded_config : agent_config_t :=
  mk_config None None (Some "https://controller.example.org") (Some "s3cr3t")
    600 5 60 30 (Some "info").

Definition sample_config : agent_config_t :=
  mk_config (Some "11111111-1111-4111-8111-111111111111") (Some "host1")
    (Some "https://controller.example.org") (Some "s3cr3t") 600 5 60 30 (Some "info").

Definition sample_context : agent_context_t :=
  mk_context sample_config AGENT_STATE_REGISTERING false 0 0
    (Some "Linux 6.1") (Some "x86_64") ["192.168.1.10"] 1.

(** The body of an accepted heartbeat, with the two flags as given. *)
Definition heartbeat_reply (authorized config_updated : string) : http_reply :=
  HttpReply 200
    ("{" ++ quoted "status" ++ ": " ++ quoted "accepted" ++ ", "
     ++ quoted "config_updated" ++ ": " ++ config_updated ++ ", "
     ++ quoted "next_heartbeat_in_seconds" ++ ": 600, "
     ++ quoted "authorized" ++ ": " ++ authorized ++ "}").

(** A host without openvas-nasl where no port answers. *)
Definition sample_world (replies : list http_reply) : world :=
  mk_world replies [12345%N; 999%N] [1; 1; 1] [] 1000 (fun _ => None) false.

Definition sample_job : job_t :=
  mk_job (Some "job-12345") (Some "550e8400-e29b-41d4-a716-446655440000")
    (Some "vulnerability_scan") (Some "normal") (Some "2025-01-15T10:25:00Z") (Some "{}").

Definition jobs_reply : http_reply :=
  HttpReply 200
    ("{" ++ quoted "jobs" ++ ": [{" ++ quoted "job_id" ++ ": " ++ quoted "job-12345" ++ "}]}").

(** A host without openvas-nasl where the SSH port answers, and a
    controller that accepts one submission. *)
Definition scanning_world : world :=
  mk_world [HttpReply 202 "{}"] [] [0; 1; 1] [] 1000 (fun _ => None) false.

Definition unauthorized_response : heartbeat_response_t :=
  mk_heartbeat_response true false 600 false.

(** A Windows machine with its loopback pseudo-interface and one network
    adapter. *)
Definition windows_host : host_os :=
  Win32Host 10 0 PROCESSOR_ARCHITECTURE_AMD64
    (Some [ [mk_sockaddr AF_INET6 "::1"; mk_sockaddr AF_INET "127.0.0.1"];
            [mk_sockaddr AF_INET "192.168.1.10"] ]).

(** The same interfaces on a POSIX machine. *)
Definition posix_host : host_os :=
  PosixHost (Some (mk_utsname "Linux" "6.1.0" "x86_64"))
    (Some [ Some (mk_sockaddr AF_INET "127.0.0.1"); Some (mk_sockaddr AF_INET6 "::1");
            None; Some (mk_sockaddr AF_INET "192.168.1.10") ]).

Definition sample_libc : LibcFormat :=
  {| fmt_f1 := fun _ => "0.0"; fmt_iso8601 := fun _ => "2025-01-15T10:30:00Z" |}.

(** A configuration that passes validation with no heartbeat attempt
    allowed. *)
Definition context_without_attempts : agent_context_t :=
  mk_context
    (mk_config (Some "11111111-1111-4111-8111-111111111111") (Some "host1")
       (Some "https://controller.example.org") (Some "s3cr3t") 600 0 60 30 (Some "info"))
    AGENT_STATE_REGISTERING false 0 0
    (Some "Linux 6.1") (Some "x86_64") ["192.168.1.10"] 1.

(** A machine with the configuration file in place, and the context
    [agent_init] makes of it. *)
Definition sample_machine : host_machine :=
  mk_host_machine PLATFORM_OTHER true (sample_fs conf_with_unknown_keys)
    (Some "11111111-1111-4111-8111-111111111111") "host1" posix_host.

Definition started_context : agent_context_t :=
  mk_context sample_config AGENT_STATE_REGISTERING false 0 0
    (Some "Linux 6.1.0") (Some "x86_64") ["192.168.1.10"] 1.

(** [n] times the character [c]. *)
Fixpoint repeat_char (c : ascii) (n : nat) : string :=
  match n with
  | O => ""
  | S n' => String c (repeat_char c n')
  end.

(** A file with a [[controller]] header and one line, which sets the
    token between quotes; the line is longer than the line buffer, and
    what lies beyond the first 1023 characters reads like the assignment
    of an address. The file has no [url] line. *)
Definition overlong_token : string :=
  repeat_char "A" 1009 ++ "url = https://evil.example.org".

Definition conf_overlong : list ConfigDoc.conf_line :=
  [ ConfigDoc.SectionLine "controller";
    ConfigDoc.AssignLine "auth_token" overlong_token true ].

(** A file whose last line sets an unknown key. *)
Definition conf_bogus_prefix : list ConfigDoc.conf_line :=
  [ ConfigDoc.CommentLine "#" " agent configuration";
    ConfigDoc.SectionLine "controller";
    ConfigDoc.AssignLine "url" "https://controller.example.org" false;
    ConfigDoc.AssignLine "auth_token" "s3cr3t" true;
    ConfigDoc.BlankLine ].

(** A configuration file that sets the retry policy, and the context of
    an agent started with the configuration it loads as. *)
Definition conf_retry_policy (attempts delay jitter : string)
  : list ConfigDoc.conf_line :=
  [ ConfigDoc.SectionLine "agent";
    ConfigDoc.AssignLine "agent_id" "11111111-1111-4111-8111-111111111111" false;
    ConfigDoc.AssignLine "hostname" "host1" false;
    ConfigDoc.SectionLine "controller";
    ConfigDoc.AssignLine "url" "https://controller.example.org" false;
    ConfigDoc.AssignLine "auth_token" "s3cr3t" false;
    ConfigDoc.SectionLine "retry";
    ConfigDoc.AssignLine "attempts" attempts false;
    ConfigDoc.AssignLine "delay_in_seconds" delay false;
    ConfigDoc.AssignLine "max_jitter_in_seconds" jitter false ].

Definition retry_policy_config (attempts delay jitter : Z) : agent_config_t :=
  mk_config (Some "11111111-1111-4111-8111-111111111111") (Some "host1")
    (Some "https://controller.example.org") (Some "s3cr3t")
    600 attempts delay jitter (Some "info").

Definition retry_policy_context (attempts delay jitter : Z) : agent_context_t :=
  mk_context (retry_policy_config attempts delay jitter)
    AGENT_STATE_REGISTERING false 0 0
    (Some "Linux 6.1") (Some "x86_64") ["192.168.1.10"] 1.

(** A host with openvas-nasl and a feed that knows every script; the
    first script that is run raises an alarm, the second does not. *)
Definition feed_world : world :=
  mk_world [] [] []
    [ Some ("ALARM: weak key exchange" ++ String LF ""); Some ("done" ++ String LF "") ]
    1000
    (fun oid => Some (mk_nvt (Some oid) (Some "SSH check") (Some "General")
                        (Some "ssh_check.nasl") (Some "1.0") 7.5%float 0 None))
    true.

(** A host whose controller cannot be reached. *)
Definition unreachable_world : world :=
  mk_world [] [] [] [] 1000 (fun _ => None) false.

(** An update notice. *)
Definition update_reply : http_reply :=
  HttpReply 200
    ("{" ++ quoted "update_available" ++ ": true, "
     ++ quoted "latest_version" ++ ": " ++ quoted "1.1.0" ++ "}").

End Samples.

(* ===================================================================== *)
(** ** The embedding at sample inputs *)
(* ===================================================================== *)

Module Examples.
Import CStr Config Samples.

Example trim_whitespace_crlf :
  trim_whitespace ("  url = x  " ++ String CR (String LF "")) = "url = x".
Proof. reflexivity. Qed.

(** The backward scan stops at the first character: a lone newline
    stays. *)
Example trim_whitespace_keeps_first : trim_whitespace (String LF "") = String LF "".
Proof. reflexivity. Qed.

Example classify_comment : classify_line "; comment = 1" = LineSkip.
Proof. reflexivity. Qed.

Example classify_section_header :
  classify_line ("[controller] trailing text" ++ String LF "") = LineSection "controller".
Proof. reflexivity. Qed.

(** Without a closing bracket the line is read as an assignment. *)
Example classify_open_bracket : classify_line "[a = b" = LineAssign "[a" "b".
Proof. reflexivity. Qed.

Example classify_quoted_value :
  classify_line ("auth_token = " ++ quoted "tok en" ++ " rest" ++ String LF "")
  = LineAssign "auth_token" "tok en".
Proof. reflexivity. Qed.

Example classify_after_nul :
  classify_line ("url = a" ++ String NUL "b") = LineAssign "url" "a".
Proof. reflexivity. Qed.

Example atoi_prefix : atoi " 42abc" = 42.
Proof. reflexivity. Qed.

Example atoi_negative : atoi "-7" = -7.
Proof. reflexivity. Qed.

Example atoi_no_digits : atoi "sixty" = 0.
Proof. reflexivity. Qed.

Example atoi_wraps : atoi "4294967297" = 1.
Proof. reflexivity. Qed.

(** A line longer than the buffer comes in several rounds. *)
Example fgets_splits_long_lines :
  fgets_all 4 ("abcdefg" ++ String LF "h") = ["abc"; "def"; String "g" (String LF ""); "h"].
Proof. reflexivity. Qed.

(** The minimal configuration of the README. *)
Example readme_config_loads :
  config_load (Some "/etc/gvm-agent/agent.conf")
    (sample_fs
       ("[controller]" ++ String LF
        ("url = https://agent-controller.example.com" ++ String LF
        ("auth_token = your-auth-token-here" ++ String LF
        (String LF
        ("[heartbeat]" ++ String LF
        ("interval_in_seconds = 600" ++ String LF
        (String LF
        ("[logging]" ++ String LF
        ("level = info" ++ String LF ""))))))))))
  = (ERR_SUCCESS,
     Some (mk_config None None (Some "https://agent-controller.example.com")
             (Some "your-auth-token-here") 600 5 60 30 (Some "info"))).
Proof. vm_compute. reflexivity. Qed.

Example config_load_no_path : config_load None (sample_fs "") = (ERR_CONFIG_MISSING, None).
Proof. reflexivity. Qed.

Example config_load_unreadable :
  config_load (Some "agent.conf") (fun _ => None) = (ERR_CONFIG_MISSING, None).
Proof. reflexivity. Qed.

Example build_url_plain :
  utils_build_url (Some "https://c.example.org") (Some HEARTBEAT_PATH)
  = Some "https://c.example.org/api/v1/agents/heartbeat".
Proof. reflexivity. Qed.

Example build_url_adds_slash :
  utils_build_url (Some "https://c.example.org") (Some "api") = Some "https://c.example.org/api".
Proof. reflexivity. Qed.

Example build_url_null : utils_build_url None (Some HEARTBEAT_PATH) = None.
Proof. reflexivity. Qed.

Example parse_heartbeat_reply :
  match heartbeat_reply "true" "false" with
  | HttpReply _ body =>
      (http_parse_json_string body "status",
       http_parse_json_bool body "config_updated",
       http_parse_json_int body "next_heartbeat_in_seconds",
       http_parse_json_bool body "authorized")
  | TransportError _ => (None, None, None, None)
  end
  = (Some "accepted", Some false, Some 600, Some true).
Proof. vm_compute. reflexivity. Qed.

Example parse_missing_key : http_parse_json_bool "{}" "authorized" = None.
Proof. reflexivity. Qed.

(** The jitter is the remainder of [rand()] by the bound, in
    milliseconds. *)
Example jitter_sample :
  result_of (utils_get_random_jitter_ms 30000 (sample_world [])) = 12345.
Proof. reflexivity. Qed.

Example jitter_disabled :
  result_of (utils_get_random_jitter_ms 0 (sample_world [])) = 0.
Proof. reflexivity. Qed.

End Examples.

(* ===================================================================== *)
(** ** Theorems: libc strings *)
(* ===================================================================== *)

Module CStrFacts.
Import CStr.

Lemma length_app : forall s1 s2,
  String.length (s1 ++ s2) = (String.length s1 + String.length s2)%nat.
Proof.
  induction s1 as [|c s1 IH]; intros s2; simpl; [reflexivity|].
  rewrite IH. reflexivity.
Qed.

Lemma fgets_take_app : forall room s line rest,
  fgets_take room s = (line, rest) -> line ++ rest = s.
Proof.
  induction room as [|room IH]; intros s line rest Hf.
  - simpl in Hf. destruct s; inversion Hf; reflexivity.
  - destruct s as [|c s]; simpl in Hf.
    + inversion Hf; reflexivity.
    + destruct (Ascii.eqb c LF).
      * inversion Hf; reflexivity.
      * destruct (fgets_take room s) as [l r] eqn:E.
        inversion Hf; subst. simpl. f_equal. apply IH; assumption.
Qed.

Lemma fgets_take_progress : forall room c s line rest,
  fgets_take (S room) (String c s) = (line, rest) ->
  (String.length rest < String.length (String c s))%nat.
Proof.
  intros room c s line rest Hf.
  pose proof (fgets_take_app _ _ _ _ Hf) as Happ.
  simpl in Hf. destruct (Ascii.eqb c LF).
  - inversion Hf; subst. simpl. lia.
  - destruct (fgets_take room s) as [l r] eqn:E. inversion Hf; subst.
    apply fgets_take_app in E. subst s. simpl.
    rewrite length_app. lia.
Qed.

(** The rounds allotted to [fgets_all] exhaust the stream: put together,
    the buffers it delivers are the whole file. *)
Lemma fgets_rounds_complete : forall rounds size s,
  (String.length s <= rounds)%nat -> (2 <= size)%nat ->
  fold_right String.append "" (fgets_rounds rounds size s) = s.
Proof.
  induction rounds as [|rounds IH]; intros size s Hlen Hsize.
  - destruct s; simpl in *; [reflexivity | lia].
  - destruct s as [|c s]; [reflexivity|].
    cbn [fgets_rounds fgets].
    destruct (fgets_take (size - 1) (String c s)) as [line rest] eqn:E.
    cbn [fold_right].
    destruct (size - 1)%nat as [|room] eqn:Hroom; [lia|].
    pose proof (fgets_take_progress _ _ _ _ _ E) as Hlt.
    rewrite IH; [ | simpl in *; lia | assumption ].
    eapply fgets_take_app; eassumption.
Qed.

Lemma fgets_all_complete : forall s,
  fold_right String.append "" (fgets_all 1024 s) = s.
Proof.
  intros s. unfold fgets_all. apply fgets_rounds_complete; lia.
Qed.

Lemma wrap_int_small : forall z, INT_MIN <= z <= INT_MAX -> wrap_int z = z.
Proof.
  intros z Hz. unfold wrap_int, INT_MIN, INT_MAX in *.
  rewrite Z.mod_small; lia.
Qed.

Lemma strchr_app : forall s c before after,
  strchr s c = Some (before, after) -> s = before ++ String c after.
Proof.
  induction s as [|a s IH]; intros c before after Hs; simpl in Hs; [discriminate|].
  destruct (Ascii.eqb_spec a c).
  - inversion Hs; subst. reflexivity.
  - destruct (strchr s c) as [[b r]|] eqn:E; [|discriminate].
    inversion Hs; subst. simpl. f_equal. apply IH. assumption.
Qed.

Lemma app_inv_head : forall b x y : string, b ++ x = b ++ y -> x = y.
Proof.
  induction b as [|c b IH]; intros x y Hxy; cbn in Hxy; [assumption|].
  inversion Hxy. apply IH. assumption.
Qed.


Lemma substring_all : forall s n,
  (String.length s <= n)%nat -> String.substring 0 n s = s.
Proof.
  induction s as [|c s IH]; intros n Hn.
  - destruct n; reflexivity.
  - destruct n as [|n]; [cbn in Hn; lia|]. cbn. f_equal. apply IH. cbn in Hn. lia.
Qed.

End CStrFacts.

(* ===================================================================== *)
(** ** Theorems: config.c *)
(* ===================================================================== *)

Module ConfigFacts.
Import CStr Config ConfigSpec Samples.

Ltac case_strcmp :=
  repeat match goal with
         | |- context [strcmp_eq ?a ?b] =>
             unfold strcmp_eq;
             destruct (String.eqb_spec a b); subst; cbn
         | |- context [String.eqb ?a ?b] =>
             destruct (String.eqb_spec a b); subst; cbn
         end;
  try reflexivity; try congruence.

Section FieldOfParse.
Context {A : Type} (field : agent_config_t -> A) (convert : string -> A).
Context (section key : string).
Hypothesis assign_field : forall sec k v c,
  field (config_assign sec k v c)
  = if strcmp_eq sec section && strcmp_eq k key then convert v else field c.

Lemma last_assigned_acc : forall lines cur a,
  last_assigned section key lines cur (Some a)
  = match last_assigned section key lines cur None with
    | Some v => Some v
    | None => Some a
    end.
Proof.
  induction lines as [|line lines IH]; intros cur a; simpl; [reflexivity|].
  destruct (classify_line line) as [|name|k v]; try apply IH.
  destruct (strcmp_eq cur section && strcmp_eq k key); [|apply IH].
  rewrite (IH cur v).
  destruct (last_assigned section key lines cur None); reflexivity.
Qed.

(** The field after the loop is the last value the file assigns to it, or
    what it held before the loop. *)
Lemma field_of_fold : forall lines st,
  field (parsed (fold_left config_process_line lines st))
  = match last_assigned section key lines (current_section st) None with
    | Some v => convert v
    | None => field (parsed st)
    end.
Proof.
  induction lines as [|line lines IH]; intros st; simpl; [reflexivity|].
  unfold config_process_line at 2.
  destruct (classify_line line) as [|name|k v].
  - apply IH.
  - rewrite IH. reflexivity.
  - rewrite IH. cbn [current_section parsed]. rewrite assign_field.
    destruct (strcmp_eq (current_section st) section && strcmp_eq k key);
      [|reflexivity].
    rewrite last_assigned_acc.
    destruct (last_assigned section key lines (current_section st) None); reflexivity.
Qed.

End FieldOfParse.

Lemma assign_controller_url : forall sec k v c,
  controller_url (config_assign sec k v c)
  = if strcmp_eq sec "controller" && strcmp_eq k "url" then Some v else controller_url c.
Proof. intros. unfold config_assign. case_strcmp. Qed.

Lemma assign_auth_token : forall sec k v c,
  auth_token (config_assign sec k v c)
  = if strcmp_eq sec "controller" && strcmp_eq k "auth_token" then Some v else auth_token c.
Proof. intros. unfold config_assign. case_strcmp. Qed.

Lemma assign_heartbeat_interval : forall sec k v c,
  heartbeat_interval_seconds (config_assign sec k v c)
  = if strcmp_eq sec "heartbeat" && strcmp_eq k "interval_in_seconds"
    then atoi v else heartbeat_interval_seconds c.
Proof. intros. unfold config_assign. case_strcmp. Qed.

Lemma parse_controller_url : forall content,
  controller_url (config_parse content) = file_value "controller" "url" content.
Proof.
  intros. unfold config_parse, file_value.
  rewrite (field_of_fold controller_url Some "controller" "url" assign_controller_url).
  cbn [current_section parsed config_defaults controller_url].
  destruct (last_assigned _ _ _ _ _); reflexivity.
Qed.

Lemma parse_auth_token : forall content,
  auth_token (config_parse content) = file_value "controller" "auth_token" content.
Proof.
  intros. unfold config_parse, file_value.
  rewrite (field_of_fold auth_token Some "controller" "auth_token" assign_auth_token).
  cbn [current_section parsed config_defaults auth_token].
  destruct (last_assigned _ _ _ _ _); reflexivity.
Qed.

Lemma parse_heartbeat_interval : forall content,
  heartbeat_interval_seconds (config_parse content)
  = match file_value "heartbeat" "interval_in_seconds" content with
    | Some v => atoi v
    | None => 600
    end.
Proof.
  intros. unfold config_parse, file_value.
  rewrite (field_of_fold heartbeat_interval_seconds atoi "heartbeat"
             "interval_in_seconds" assign_heartbeat_interval).
  reflexivity.
Qed.

Lemma missing_or_empty_spec : forall field,
  missing_or_empty field = true <-> field = None \/ field = Some "".
Proof.
  intros [s|]; simpl.
  - destruct s; simpl; split; intros Hx; try reflexivity; try discriminate; auto.
    destruct Hx as [Hx|Hx]; discriminate.
  - split; auto.
Qed.

Lemma config_load_cases : forall path fs content,
  fs path = Some content ->
  config_load (Some path) fs
  = if config_validate (Some (config_parse content)) =? ERR_SUCCESS
    then (ERR_SUCCESS, Some (config_parse content))
    else (config_validate (Some (config_parse content)), None).
Proof.
  intros path fs content Hfs. unfold config_load. rewrite Hfs. cbv zeta.
  destruct (config_validate (Some (config_parse content)) =? ERR_SUCCESS); reflexivity.
Qed.

(** The required keys as the reading loop finds them: when the loop finds
    no [url] or no [auth_token] under [[controller]], or an empty one,
    [config_load] returns [ERR_CONFIG_INVALID] and no configuration; and
    whenever it does produce a configuration, both fields hold the values
    the loop found, never a default. *)
Lemma config_load_by_file_value :
  forall path fs content,
    fs path = Some content ->
    ((key_missing_or_empty "controller" "url" content
      \/ key_missing_or_empty "controller" "auth_token" content) ->
     config_load (Some path) fs = (ERR_CONFIG_INVALID, None))
    /\ (forall rc cfg,
          config_load (Some path) fs = (rc, Some cfg) ->
          controller_url cfg = file_value "controller" "url" content
          /\ auth_token cfg = file_value "controller" "auth_token" content
          /\ ~ key_missing_or_empty "controller" "url" content
          /\ ~ key_missing_or_empty "controller" "auth_token" content).
Proof.
  intros path fs content Hfs.
  rewrite (config_load_cases _ _ _ Hfs).
  unfold config_validate, key_missing_or_empty.
  rewrite parse_controller_url, parse_auth_token.
  split.
  - intros [Hurl|Htok].
    + apply missing_or_empty_spec in Hurl. rewrite Hurl. reflexivity.
    + apply missing_or_empty_spec in Htok. rewrite Htok.
      destruct (missing_or_empty (file_value "controller" "url" content)); reflexivity.
  - intros rc cfg.
    destruct (missing_or_empty (file_value "controller" "url" content)) eqn:Eurl;
      [cbn; intros Hx; discriminate|].
    destruct (missing_or_empty (file_value "controller" "auth_token" content)) eqn:Etok;
      [cbn; intros Hx; discriminate|].
    destruct (heartbeat_interval_seconds (config_parse content) <? 60);
      cbn; intros Hx; inversion Hx; subst.
    rewrite parse_controller_url, parse_auth_token.
    repeat split; try reflexivity; intros Hm; apply missing_or_empty_spec in Hm; congruence.
Qed.

(** C2, counterexample. A file with an unknown key under [[controller]]
    and a key under an unknown section loads with [ERR_SUCCESS]. *)
Lemma config_load_accepts_unknown_key :
  has_unknown_key conf_with_unknown_keys = true
  /\ config_load (Some "agent.conf") (sample_fs conf_with_unknown_keys)
     = (ERR_SUCCESS, Some loaded_config).
Proof. split; vm_compute; reflexivity. Qed.

Lemma config_assign_unrecognized : forall sec k v c,
  recognized sec k = false -> config_assign sec k v c = c.
Proof.
  intros sec k v c Hrec. unfold recognized, strcmp_eq in Hrec.
  unfold config_assign.
  repeat match goal with
         | |- context [strcmp_eq ?a ?b] =>
             unfold strcmp_eq;
             destruct (String.eqb_spec a b); subst; cbn in Hrec |- *
         | |- context [String.eqb ?a ?b] =>
             destruct (String.eqb_spec a b); subst; cbn in Hrec |- *
         end;
  try reflexivity; try discriminate.
Qed.

(** A buffer that reads as [key = value] with a key that is not an option
    of the current section leaves the loop state as it was. *)
Lemma unknown_key_line_skipped :
  forall pre line post k v st,
    classify_line line = LineAssign k v ->
    recognized (current_section (fold_left config_process_line pre st)) k = false ->
    fold_left config_process_line (pre ++ line :: post) st
    = fold_left config_process_line (pre ++ post) st.
Proof.
  intros pre line post k v st Hline Hrec.
  rewrite !fold_left_app. cbn [fold_left]. f_equal.
  unfold config_process_line at 1. rewrite Hline.
  rewrite (config_assign_unrecognized _ _ _ _ Hrec).
  destruct (fold_left config_process_line pre st); reflexivity.
Qed.

(** C7. A configuration whose heartbeat interval is below 60 is rejected
    by [config_validate] with [ERR_CONFIG_INVALID], and a file that sets
    such an interval is rejected by [config_load]; with both required
    fields present, an interval of 60 or more passes. *)
Theorem config_validate_heartbeat_interval :
  forall c,
    (heartbeat_interval_seconds c < 60 ->
     config_validate (Some c) = ERR_CONFIG_INVALID)
    /\ (forall path fs content v,
          fs path = Some content ->
          file_value "heartbeat" "interval_in_seconds" content = Some v ->
          atoi v < 60 ->
          config_load (Some path) fs = (ERR_CONFIG_INVALID, None))
    /\ (60 <= heartbeat_interval_seconds c ->
        missing_or_empty (controller_url c) = false ->
        missing_or_empty (auth_token c) = false ->
        config_validate (Some c) = ERR_SUCCESS).
Proof.
  intros c. split; [|split].
  - intros Hlt. unfold config_validate.
    destruct (missing_or_empty (controller_url c)); [reflexivity|].
    destruct (missing_or_empty (auth_token c)); [reflexivity|].
    destruct (Z.ltb_spec (heartbeat_interval_seconds c) 60); [reflexivity|lia].
  - intros path fs content v Hfs Hval Hlt.
    rewrite (config_load_cases _ _ _ Hfs).
    assert (Hinv : config_validate (Some (config_parse content)) = ERR_CONFIG_INVALID).
    { unfold config_validate.
      destruct (missing_or_empty (controller_url (config_parse content))); [reflexivity|].
      destruct (missing_or_empty (auth_token (config_parse content))); [reflexivity|].
      rewrite parse_heartbeat_interval, Hval.
      destruct (Z.ltb_spec (atoi v) 60); [reflexivity|lia]. }
    rewrite Hinv. reflexivity.
  - intros Hge Hurl Htok. unfold config_validate. rewrite Hurl, Htok.
    destruct (Z.ltb_spec (heartbeat_interval_seconds c) 60); [lia|reflexivity].
Qed.

(** C7 at the intervals 59, 30 (in a file) and 60. *)
Lemma config_validate_heartbeat_interval_witness :
  config_validate (Some (config_interval 59)) = ERR_CONFIG_INVALID
  /\ config_load (Some "agent.conf") (sample_fs conf_interval_30)
     = (ERR_CONFIG_INVALID, None)
  /\ config_validate (Some (config_interval 60)) = ERR_SUCCESS.
Proof.
  split; [|split].
  - apply (proj1 (config_validate_heartbeat_interval (config_interval 59))).
    vm_compute. reflexivity.
  - apply (proj1 (proj2 (config_validate_heartbeat_interval (config_interval 59)))
             "agent.conf" (sample_fs conf_interval_30) conf_interval_30 "30").
    + reflexivity.
    + vm_compute. reflexivity.
    + vm_compute. reflexivity.
  - apply (proj2 (proj2 (config_validate_heartbeat_interval (config_interval 60)))).
    + vm_compute. discriminate.
    + reflexivity.
    + reflexivity.
Defined.

End ConfigFacts.

(* ===================================================================== *)
(** ** Theorems: the monad of effects *)
(* ===================================================================== *)

Module MonadFacts.

Lemma bind_run : forall {A B : Type} (m : M A) (k : A -> M B) (w : world),
  bind m k w
  = (result_of (k (result_of (m w)) (world_of (m w))),
     world_of (k (result_of (m w)) (world_of (m w))),
     trace_of (m w) ++ trace_of (k (result_of (m w)) (world_of (m w))))%list.
Proof.
  intros A B m k w. unfold bind, result_of, world_of, trace_of.
  destruct (m w) as [[a w1] t1]. cbn.
  destruct (k a w1) as [[b w2] t2]. reflexivity.
Qed.

Lemma run_eta : forall {A : Type} (r : A * world * list event),
  r = (result_of r, world_of r, trace_of r).
Proof. intros A [[a w] t]. reflexivity. Qed.

Lemma emits_ret : forall {A : Type} (P : event -> Prop) (a : A), emits P (ret a).
Proof. intros A P a w. constructor. Qed.

Lemma emits_bind : forall {A B : Type} (P : event -> Prop) (m : M A) (k : A -> M B),
  emits P m -> (forall a, emits P (k a)) -> emits P (bind m k).
Proof.
  intros A B P m k Hm Hk w. rewrite bind_run. cbn [trace_of snd].
  apply Forall_app. split; [apply Hm | apply Hk].
Qed.

Lemma emits_emit : forall (P : event -> Prop) e, P e -> emits P (emit e).
Proof. intros P e He w. cbn. constructor; [assumption | constructor]. Qed.

Lemma emits_silent : forall {A : Type} (P : event -> Prop) (m : M A),
  (forall w, trace_of (m w) = []) -> emits P m.
Proof. intros A P m Hm w. rewrite Hm. constructor. Qed.

Lemma emits_weaken : forall {A : Type} (P Q : event -> Prop) (m : M A),
  (forall e, P e -> Q e) -> emits P m -> emits Q m.
Proof.
  intros A P Q m HPQ Hm w. eapply Forall_impl; [exact HPQ | apply Hm].
Qed.

Lemma emits_curl : forall P, emits P curl_easy_perform.
Proof.
  intros P. apply emits_silent. intros w. unfold curl_easy_perform.
  destruct (http_replies w); reflexivity.
Qed.

Lemma emits_rand : forall P, emits P rand.
Proof.
  intros P. apply emits_silent. intros w. unfold rand.
  destruct (rand_values w); reflexivity.
Qed.

Lemma emits_time : forall P, emits P time.
Proof. intros P. apply emits_silent. reflexivity. Qed.

Lemma emits_sleep : forall (P : event -> Prop) n,
  P (EvSleep n) -> emits P (utils_sleep n).
Proof.
  intros P n Hn. unfold utils_sleep. apply emits_bind.
  - apply emits_emit. assumption.
  - intros _. apply emits_silent. reflexivity.
Qed.

Lemma emits_jitter : forall P n, emits P (utils_get_random_jitter_ms n).
Proof.
  intros P n. unfold utils_get_random_jitter_ms.
  destruct (n <=? 0); [apply emits_ret|].
  apply emits_bind; [apply emits_rand | intros; apply emits_ret].
Qed.

End MonadFacts.

(* ===================================================================== *)
(** ** Theorems: heartbeat.c *)
(* ===================================================================== *)

Module HeartbeatFacts.
Import MonadFacts AgentSpec Samples.

Lemma heartbeat_send_no_url : forall ctx w,
  heartbeat_url ctx = None ->
  heartbeat_send ctx w = (ERR_NETWORK_UNREACHABLE, None, ctx, w, []).
Proof.
  intros ctx w Hurl. unfold heartbeat_send. unfold heartbeat_url in Hurl.
  rewrite Hurl. reflexivity.
Qed.

(** With a controller URL, one attempt is one POST to the heartbeat
    endpoint; it takes one reply of the controller and leaves the
    configuration alone. On success the response is there and the context
    holds its [authorized] flag. *)
Lemma heartbeat_send_url : forall ctx w url,
  heartbeat_url ctx = Some url ->
  let r := heartbeat_send ctx w in
  (exists headers, trace_of r = [EvHttpPost url headers (heartbeat_body ctx)])
  /\ config (hb_context r) = config ctx
  /\ http_replies (world_of r) = tl (http_replies w)
  /\ (hb_code r = ERR_SUCCESS ->
      exists response,
        hb_response r = Some response
        /\ authorized (hb_context r) = hb_authorized response
        /\ state (hb_context r) = state ctx).
Proof.
  intros ctx w url Hurl. unfold heartbeat_url in Hurl.
  unfold heartbeat_send. rewrite Hurl.
  unfold http_post, bind, emit, curl_easy_perform, hb_code, hb_response, hb_context,
    result_of, world_of, trace_of.
  cbn -[heartbeat_body http_parse_json_bool http_parse_json_int http_parse_json_string].
  destruct (http_replies w) as [|[msg|st bd] rest] eqn:Hrep;
    cbn -[heartbeat_body http_parse_json_bool http_parse_json_int http_parse_json_string];
    [ | | destruct (st =? 401);
          [ | destruct (st =? 200) ];
          cbn -[heartbeat_body http_parse_json_bool http_parse_json_int
                http_parse_json_string] ];
    (split; [eexists; reflexivity
            | split; [reflexivity
                     | split; [first [assumption | reflexivity]
                              | intros Hx; try discriminate Hx ]]]).
  eexists. repeat split.
Qed.

Lemma heartbeat_send_config : forall ctx w,
  config (hb_context (heartbeat_send ctx w)) = config ctx.
Proof.
  intros ctx w. destruct (heartbeat_url ctx) as [url|] eqn:Hurl.
  - apply (heartbeat_send_url ctx w url Hurl).
  - rewrite (heartbeat_send_no_url ctx w Hurl). reflexivity.
Qed.

Lemma heartbeat_send_success_url : forall ctx w,
  hb_code (heartbeat_send ctx w) = ERR_SUCCESS ->
  exists url, heartbeat_url ctx = Some url.
Proof.
  intros ctx w Hok. destruct (heartbeat_url ctx) as [url|] eqn:Hurl; [eauto|].
  rewrite (heartbeat_send_no_url ctx w Hurl) in Hok. discriminate.
Qed.

Lemma retry_loop_step : forall rounds attempt ctx w,
  let r := heartbeat_send ctx w in
  let wait := heartbeat_retry_wait (hb_context r) attempt (world_of r) in
  let rest := heartbeat_retry_loop rounds (attempt + 1) (hb_context r) (world_of wait) in
  heartbeat_retry_loop (S rounds) attempt ctx w
  = if hb_code r =? ERR_SUCCESS then
      (ERR_SUCCESS, hb_response r, set_retry_count 0 (hb_context r), world_of r, trace_of r)
    else if hb_code r =? ERR_AUTH_FAILED then
      (hb_code r, hb_response r, hb_context r, world_of r, trace_of r)
    else
      (result_of rest, world_of rest, (trace_of r ++ trace_of wait ++ trace_of rest)%list).
Proof.
  intros rounds attempt ctx w. cbv zeta.
  cbn [heartbeat_retry_loop]. rewrite bind_run.
  unfold hb_code, hb_response, hb_context.
  destruct (heartbeat_send ctx w) as [[[[code response] ctx1] w1] t].
  cbn [result_of world_of trace_of fst snd].
  destruct (code =? ERR_SUCCESS).
  - cbn. rewrite app_nil_r. reflexivity.
  - destruct (code =? ERR_AUTH_FAILED).
    + cbn. rewrite app_nil_r. reflexivity.
    + rewrite bind_run. cbn [result_of world_of trace_of fst snd]. reflexivity.
Qed.

Section Backoff.
Variable c : agent_config_t.
Hypothesis attempts_range : retry_attempts c <= 32.
Hypothesis delay_nonneg : 0 <= retry_delay_seconds c.
Hypothesis delay_range :
  retry_delay_seconds c * 2 ^ (retry_attempts c - 2) <= CStr.INT_MAX.
Hypothesis jitter_range : 0 <= max_jitter_seconds c <= 2147483.

Lemma backoff_multiplier_exact : forall attempt,
  1 <= attempt < retry_attempts c ->
  CStr.wrap_int (Z.shiftl 1 (attempt - 1)) = 2 ^ (attempt - 1).
Proof.
  intros attempt Hrange. rewrite Z.shiftl_1_l.
  apply CStrFacts.wrap_int_small. unfold CStr.INT_MIN, CStr.INT_MAX.
  assert (0 < 2 ^ (attempt - 1)) by (apply Z.pow_pos_nonneg; lia).
  assert (2 ^ (attempt - 1) <= 2 ^ 30) by (apply Z.pow_le_mono_r; lia).
  change (2 ^ 30) with 1073741824 in *. lia.
Qed.

Lemma delay_seconds_exact : forall attempt,
  1 <= attempt < retry_attempts c ->
  CStr.wrap_int (retry_delay_seconds c * 2 ^ (attempt - 1))
  = retry_delay_seconds c * 2 ^ (attempt - 1).
Proof.
  intros attempt Hrange. apply CStrFacts.wrap_int_small.
  assert (0 < 2 ^ (attempt - 1)) by (apply Z.pow_pos_nonneg; lia).
  assert (2 ^ (attempt - 1) <= 2 ^ (retry_attempts c - 2))
    by (apply Z.pow_le_mono_r; lia).
  unfold CStr.INT_MIN, CStr.INT_MAX in *. split; [nia|].
  apply Z.le_trans with (retry_delay_seconds c * 2 ^ (retry_attempts c - 2));
    [apply Z.mul_le_mono_nonneg_l; assumption | assumption].
Qed.

Lemma jitter_seconds_bound : forall r,
  0 < max_jitter_seconds c ->
  0 <= Z.quot (Z.rem (Z.of_N r) (max_jitter_seconds c * 1000)) 1000
    <= max_jitter_seconds c.
Proof.
  intros r Hpos.
  assert (Hr : 0 <= Z.of_N r) by lia.
  rewrite Z.rem_mod_nonneg by lia.
  pose proof (Z.mod_pos_bound (Z.of_N r) (max_jitter_seconds c * 1000)) as Hm.
  rewrite Z.quot_div_nonneg by lia.
  split.
  - apply Z.div_pos; lia.
  - apply Z.div_le_upper_bound; lia.
Qed.

(** The wait the code performs after a failed attempt is the wait of the
    protocol for the next random value; it takes no reply of the
    controller, and a random value only for a jitter. *)
Lemma heartbeat_retry_wait_spec : forall ctx attempt w,
  config ctx = c ->
  1 <= attempt <= retry_attempts c ->
  backoff_wait c attempt (next_rand w) (trace_of (heartbeat_retry_wait ctx attempt w))
  /\ http_replies (world_of (heartbeat_retry_wait ctx attempt w)) = http_replies w
  /\ rand_values (world_of (heartbeat_retry_wait ctx attempt w))
     = (if draws_jitter c attempt then tl (rand_values w) else rand_values w).
Proof.
  intros ctx attempt w Hc Hrange.
  unfold heartbeat_retry_wait, backoff_wait, draws_jitter, jitter_ms, next_rand.
  rewrite Hc. destruct (Z.ltb_spec attempt (retry_attempts c)) as [Hlt|Hge].
  2: { split; [reflexivity|]. split; reflexivity. }
  rewrite backoff_multiplier_exact by lia.
  rewrite delay_seconds_exact by lia.
  rewrite CStrFacts.wrap_int_small
    by (unfold CStr.INT_MIN, CStr.INT_MAX; lia).
  unfold utils_get_random_jitter_ms. cbn [andb].
  destruct (Z.leb_spec (max_jitter_seconds c * 1000) 0) as [Hz|Hpos].
  - destruct (Z.leb_spec (max_jitter_seconds c) 0) as [_|Hx]; [|lia].
    destruct (Z.ltb_spec 0 (max_jitter_seconds c)) as [Hx|_]; [lia|].
    cbn. split; [|split; reflexivity]. split; [reflexivity|lia].
  - destruct (Z.leb_spec (max_jitter_seconds c) 0) as [Hx|_]; [lia|].
    destruct (Z.ltb_spec 0 (max_jitter_seconds c)) as [_|Hx]; [|lia].
    unfold rand, bind, ret, utils_sleep, emit.
    destruct (rand_values w) as [|r rest] eqn:Hrand.
    + rewrite Z.rem_0_l by lia. cbn. rewrite Hrand.
      split; [|split; reflexivity]. split; [reflexivity|lia].
    + pose proof (jitter_seconds_bound r ltac:(lia)) as Hbound.
      cbn -[Z.rem Z.quot Z.mul Z.pow Z.modulo].
      destruct (Z.ltb_spec 0 (Z.rem (Z.of_N r) (max_jitter_seconds c * 1000)))
        as [Hj|Hj];
        cbn -[Z.rem Z.quot Z.mul Z.pow Z.modulo];
        (split; [split; [reflexivity|exact Hbound]|split; reflexivity]).
Qed.

Lemma retry_loop_refines : forall rounds attempt ctx w,
  config ctx = c ->
  1 <= attempt ->
  Z.of_nat rounds = Z.max 0 (retry_attempts c - attempt + 1) ->
  retry_spec attempt ctx w
    (hb_code (heartbeat_retry_loop rounds attempt ctx w))
    (trace_of (heartbeat_retry_loop rounds attempt ctx w)).
Proof.
  induction rounds as [|rounds IH]; intros attempt ctx w Hc Hattempt Hrounds.
  - cbn. apply retry_exhausted. rewrite Hc. lia.
  - assert (Hle : attempt <= retry_attempts c) by lia.
    rewrite retry_loop_step. cbv zeta.
    pose proof (heartbeat_send_config ctx w) as Hcfg.
    destruct (heartbeat_send ctx w) as [[[[code response] ctx1] w1] t] eqn:Hsend.
    unfold hb_code, hb_response, hb_context in *.
    cbn [result_of world_of trace_of fst snd] in *.
    destruct (Z.eqb_spec code ERR_SUCCESS) as [Hok|Hnok].
    + cbn [result_of trace_of fst snd]. subst code.
      eapply retry_success; [rewrite Hc; exact Hle | exact Hsend].
    + destruct (Z.eqb_spec code ERR_AUTH_FAILED) as [Hauth|Hnauth].
      * cbn [result_of trace_of fst snd]. subst code.
        eapply retry_auth_failed; [rewrite Hc; exact Hle | exact Hsend].
      * cbn [result_of trace_of fst snd].
        destruct (heartbeat_retry_wait_spec ctx1 attempt w1
                    (eq_trans Hcfg Hc) (conj Hattempt Hle))
          as (Hwait & Hreplies & Hrand).
        eapply retry_transient.
        -- rewrite Hc. exact Hle.
        -- exact Hsend.
        -- exact Hnok.
        -- exact Hnauth.
        -- rewrite Hc. exact Hwait.
        -- exact Hreplies.
        -- rewrite Hc. exact Hrand.
        -- apply (IH (attempt + 1) ctx1); [exact (eq_trans Hcfg Hc) | lia | lia].
Qed.

End Backoff.

Lemma heartbeat_retry_wait_emits : forall ctx attempt,
  emits is_sleep (heartbeat_retry_wait ctx attempt).
Proof.
  intros ctx attempt. unfold heartbeat_retry_wait.
  destruct (attempt <? retry_attempts (config ctx)); [|apply emits_ret].
  apply emits_bind; [apply emits_jitter|]. intros jitter_ms.
  apply emits_bind; [apply emits_sleep; exact I|]. intros _.
  destruct (0 <? jitter_ms); [apply emits_sleep; exact I | apply emits_ret].
Qed.

Lemma count_posts_app : forall t1 t2,
  count_posts (t1 ++ t2) = (count_posts t1 + count_posts t2)%nat.
Proof.
  intros t1 t2. unfold count_posts. rewrite filter_app, length_app. reflexivity.
Qed.

Lemma count_posts_sleeps : forall t, Forall is_sleep t -> count_posts t = 0%nat.
Proof.
  induction t as [|e t IH]; intros Ht; [reflexivity|].
  inversion Ht; subst. destruct e; try contradiction.
  unfold count_posts in *. cbn. apply IH. assumption.
Qed.

Lemma heartbeat_send_one_post : forall ctx w,
  (count_posts (trace_of (heartbeat_send ctx w)) <= 1)%nat.
Proof.
  intros ctx w. destruct (heartbeat_url ctx) as [url|] eqn:Hurl.
  - destruct (heartbeat_send_url ctx w url Hurl) as [[headers Ht] _].
    rewrite Ht. cbn. lia.
  - rewrite (heartbeat_send_no_url ctx w Hurl). cbn. lia.
Qed.

(** Each round of the loop sends at most one heartbeat. *)
Lemma retry_loop_posts : forall rounds attempt ctx w,
  (count_posts (trace_of (heartbeat_retry_loop rounds attempt ctx w)) <= rounds)%nat.
Proof.
  induction rounds as [|rounds IH]; intros attempt ctx w.
  - cbn. lia.
  - rewrite retry_loop_step. cbv zeta.
    pose proof (heartbeat_send_one_post ctx w) as Hone.
    destruct (hb_code (heartbeat_send ctx w) =? ERR_SUCCESS);
      [cbn [trace_of snd]; lia|].
    destruct (hb_code (heartbeat_send ctx w) =? ERR_AUTH_FAILED);
      [cbn [trace_of snd]; lia|].
    cbn [trace_of snd]. rewrite !count_posts_app.
    rewrite (count_posts_sleeps _ (heartbeat_retry_wait_emits _ _ _)).
    specialize (IH (attempt + 1) (hb_context (heartbeat_send ctx w))
                  (world_of (heartbeat_retry_wait (hb_context (heartbeat_send ctx w))
                               attempt (world_of (heartbeat_send ctx w))))).
    unfold trace_of in *. lia.
Qed.

(** C6, counterexample. Two configuration files that [config_load]
    accepts. With twelve attempts and the default delay, against a
    controller that cannot be reached, the waits double from 60 seconds to
    61440 seconds: none is cut, so that a ceiling on the waits of the run
    is at least [delay * 2 ^ (attempts - 2)], and the back-off has no cap.
    With a delay of [2 ^ 30] seconds and four attempts the [int]
    arithmetic overflows: the wait before the fourth attempt is 0 seconds,
    where the formula gives [2 ^ 32]. *)
Lemma heartbeat_backoff_has_no_cap :
  Config.config_load (Some "agent.conf")
    (sample_fs (ConfigDoc.render_document (conf_retry_policy "12" "60" "30")))
  = (ERR_SUCCESS, Some (retry_policy_config 12 60 30))
  /\ map RunShape.sleep_seconds
       (filter (fun e => negb (is_http_post e))
          (trace_of (heartbeat_send_with_retry (retry_policy_context 12 60 30)
                       unreachable_world)))
     = [60; 120; 240; 480; 960; 1920; 3840; 7680; 15360; 30720; 61440]
  /\ (forall cap,
        Forall (fun e => RunShape.sleep_seconds e <= cap)
          (trace_of (heartbeat_send_with_retry (retry_policy_context 12 60 30)
                       unreachable_world)) ->
        60 * 2 ^ (12 - 2) <= cap)
  /\ Config.config_load (Some "agent.conf")
       (sample_fs (ConfigDoc.render_document (conf_retry_policy "4" "1073741824" "0")))
     = (ERR_SUCCESS, Some (retry_policy_config 4 1073741824 0))
  /\ map RunShape.sleep_seconds
       (filter (fun e => negb (is_http_post e))
          (trace_of (heartbeat_send_with_retry (retry_policy_context 4 1073741824 0)
                       unreachable_world)))
     = [1073741824; -2147483648; 0]
  /\ 1073741824 * 2 ^ (3 - 1) = 4294967296.
Proof.
  split; [vm_compute; reflexivity|].
  split; [vm_compute; reflexivity|].
  split.
  - intros cap Hcap. rewrite Forall_forall in Hcap.
    apply (Hcap (EvSleep 61440)). vm_compute. tauto.
  - split; [vm_compute; reflexivity|].
    split; vm_compute; reflexivity.
Qed.

(** C6, as the code has it. [heartbeat_send_with_retry] follows the retry
    protocol: at most [retry.attempts] attempts; after a failed attempt that
    is not the last one and not an authentication failure, a wait of
    [retry.delay_in_seconds * 2 ^ (attempt - 1)] seconds, doubled with every
    attempt and never cut, and then the jitter drawn from the next random
    value, [rand () % (retry.max_jitter_in_seconds * 1000)] milliseconds in
    whole seconds, which is at most [retry.max_jitter_in_seconds]; then the
    next attempt; [ERR_AUTH_FAILED] ends the run at once with that code; and
    the run sends at most [retry.attempts] heartbeats. The hypotheses keep
    the configured values where the C [int] arithmetic is exact. *)
Theorem heartbeat_retry_backoff :
  forall ctx w,
    retry_attempts (config ctx) <= 32 ->
    0 <= retry_delay_seconds (config ctx) ->
    retry_delay_seconds (config ctx) * 2 ^ (retry_attempts (config ctx) - 2)
      <= CStr.INT_MAX ->
    0 <= max_jitter_seconds (config ctx) <= 2147483 ->
    retry_spec 1 ctx w
      (hb_code (heartbeat_send_with_retry ctx w))
      (trace_of (heartbeat_send_with_retry ctx w))
    /\ (count_posts (trace_of (heartbeat_send_with_retry ctx w))
        <= Z.to_nat (retry_attempts (config ctx)))%nat.
Proof.
  intros ctx w Hattempts Hdelay Hrange Hjitter.
  unfold heartbeat_send_with_retry. split.
  - apply (retry_loop_refines (config ctx)); try assumption; try reflexivity; lia.
  - apply retry_loop_posts.
Qed.

(** C6 at the default policy (5 attempts, 60 s, 30 s of jitter). *)
Lemma heartbeat_retry_backoff_witness :
  retry_spec 1 sample_context
    (sample_world [TransportError "timeout"; HttpReply 503 "busy";
                   heartbeat_reply "true" "false"])
    (hb_code (heartbeat_send_with_retry sample_context
                (sample_world [TransportError "timeout"; HttpReply 503 "busy";
                               heartbeat_reply "true" "false"])))
    (trace_of (heartbeat_send_with_retry sample_context
                 (sample_world [TransportError "timeout"; HttpReply 503 "busy";
                                heartbeat_reply "true" "false"])))
  /\ (count_posts
        (trace_of (heartbeat_send_with_retry sample_context
                     (sample_world [TransportError "timeout"; HttpReply 503 "busy";
                                    heartbeat_reply "true" "false"])))
      <= Z.to_nat (retry_attempts (config sample_context)))%nat.
Proof.
  apply (heartbeat_retry_backoff sample_context
           (sample_world [TransportError "timeout"; HttpReply 503 "busy";
                          heartbeat_reply "true" "false"])).
  - vm_compute. discriminate.
  - vm_compute. discriminate.
  - vm_compute. discriminate.
  - split; vm_compute; discriminate.
Defined.

(** The run of the sample: two transient failures, waits of 60 and 120
    seconds with their jitter, success at the third attempt. *)
Example heartbeat_retry_sample_run :
  let r := heartbeat_send_with_retry sample_context
             (sample_world [TransportError "timeout"; HttpReply 503 "busy";
                            heartbeat_reply "true" "false"]) in
  hb_code r = ERR_SUCCESS
  /\ map (fun e => match e with EvSleep n => Some n | _ => None end) (trace_of r)
     = [None; Some 60; Some 12; None; Some 120; Some 0; None].
Proof. vm_compute. split; reflexivity. Qed.

(** An authentication failure at the second attempt ends the run there. *)
Example heartbeat_retry_auth_failure_run :
  let r := heartbeat_send_with_retry sample_context
             (sample_world [TransportError "timeout"; HttpReply 401 "denied";
                            heartbeat_reply "true" "false"]) in
  hb_code r = ERR_AUTH_FAILED
  /\ map (fun e => match e with EvSleep n => Some n | _ => None end) (trace_of r)
     = [None; Some 60; Some 12; None]
  /\ List.length (http_replies (world_of r)) = 1%nat.
Proof. vm_compute. repeat split; reflexivity. Qed.

(** *** What a run of the retry loop leaves behind *)

Lemma heartbeat_send_emits : forall ctx w,
  Forall (heartbeat_event (config ctx)) (trace_of (heartbeat_send ctx w)).
Proof.
  intros ctx w. destruct (heartbeat_url ctx) as [url|] eqn:Hurl.
  - destruct (heartbeat_send_url ctx w url Hurl) as [[headers Ht] _].
    rewrite Ht. constructor; [exact Hurl | constructor].
  - rewrite (heartbeat_send_no_url ctx w Hurl). constructor.
Qed.

Lemma heartbeat_url_config : forall ctx ctx',
  config ctx' = config ctx -> heartbeat_url ctx' = heartbeat_url ctx.
Proof. intros ctx ctx' Hc. unfold heartbeat_url. rewrite Hc. reflexivity. Qed.

Lemma retry_loop_invariants : forall rounds attempt ctx w,
  let r := heartbeat_retry_loop rounds attempt ctx w in
  config (hb_context r) = config ctx
  /\ Forall (heartbeat_event (config ctx)) (trace_of r)
  /\ (hb_code r = ERR_SUCCESS ->
      (0 < rounds)%nat
      /\ (exists url, heartbeat_url ctx = Some url)
      /\ (exists response,
            hb_response r = Some response
            /\ authorized (hb_context r) = hb_authorized response)).
Proof.
  induction rounds as [|rounds IH]; intros attempt ctx w; cbv zeta.
  - cbn. repeat split; try constructor; discriminate.
  - rewrite retry_loop_step. cbv zeta.
    pose proof (heartbeat_send_config ctx w) as Hcfg.
    pose proof (heartbeat_send_emits ctx w) as Hev.
    pose proof (heartbeat_send_success_url ctx w) as Hsurl.
    pose proof (fun url H => proj2 (proj2 (proj2 (heartbeat_send_url ctx w url H))))
      as Hresp.
    cbv zeta in Hresp.
    specialize (IH (attempt + 1) (hb_context (heartbeat_send ctx w))
                  (world_of (heartbeat_retry_wait (hb_context (heartbeat_send ctx w))
                               attempt (world_of (heartbeat_send ctx w))))).
    pose proof (heartbeat_retry_wait_emits (hb_context (heartbeat_send ctx w)) attempt
                  (world_of (heartbeat_send ctx w))) as Hwait.
    cbv zeta in IH.
    destruct (heartbeat_send ctx w) as [[[[code response] ctx1] w1] t].
    unfold hb_code, hb_response, hb_context in *.
    cbn [result_of world_of trace_of fst snd] in *.
    destruct (Z.eqb_spec code ERR_SUCCESS) as [Hok|Hnok].
    + cbn [result_of world_of trace_of fst snd config authorized set_retry_count].
      destruct (Hsurl Hok) as [url Hurl].
      destruct (Hresp url Hurl Hok) as (resp & Hr & Ha & _).
      split; [exact Hcfg|]. split; [exact Hev|]. intros _.
      split; [lia|]. split; [eauto|]. exists resp. split; assumption.
    + destruct (Z.eqb_spec code ERR_AUTH_FAILED) as [Hauth|Hnauth].
      * cbn [result_of world_of trace_of fst snd].
        split; [exact Hcfg|]. split; [exact Hev|].
        rewrite Hauth. discriminate.
      * destruct IH as (IHc & IHe & IHs).
        cbn [result_of world_of trace_of fst snd].
        split; [exact (eq_trans IHc Hcfg)|]. split.
        -- apply Forall_app. split; [exact Hev|]. apply Forall_app. split.
           ++ eapply Forall_impl; [|exact Hwait].
              intros [] He; try contradiction. exact I.
           ++ rewrite <- Hcfg. exact IHe.
        -- intros Hs. destruct (IHs Hs) as (_ & Hurl & Hrsp).
           split; [lia|]. split; [|exact Hrsp].
           rewrite <- (heartbeat_url_config ctx _ Hcfg). exact Hurl.
Qed.

End HeartbeatFacts.

(* ===================================================================== *)
(** ** Theorems: nasl_executor.c *)
(* ===================================================================== *)

Module NaslFacts.
Import MonadFacts AgentSpec Samples.

(** *** Comparison of floating-point numbers *)

Lemma SFcompare_antisym : forall x y,
  SFcompare y x
  = match SFcompare x y with Some c => Some (CompOpp c) | None => None end.
Proof.
  intros x y.
  destruct x as [sx|sx| |sx mx ex], y as [sy|sy| |sy my ey]; cbn;
    try destruct sx; try destruct sy; cbn; try reflexivity;
    rewrite (Z.compare_antisym ey ex);
    destruct (ey ?= ex); cbn; try reflexivity;
    rewrite ?CompOpp_involutive, ?Pos.compare_cont_antisym; reflexivity.
Qed.

Lemma SFcompare_none : forall x y,
  SFcompare x y = None -> x = S754_nan \/ y = S754_nan.
Proof.
  intros x y. destruct x, y; cbn; intros Hx; try discriminate; auto.
Qed.

(** [x < y] excludes [y <= x]. *)
Lemma float_ltb_leb : forall x y : float,
  PrimFloat.ltb x y = true -> PrimFloat.leb y x = false.
Proof.
  intros x y. rewrite ltb_spec, leb_spec. unfold SFltb, SFleb.
  rewrite (SFcompare_antisym (Prim2SF x) (Prim2SF y)).
  destruct (SFcompare (Prim2SF x) (Prim2SF y)) as [[| |]|]; cbn; congruence.
Qed.

(** A number that compares with [z] and is not at least [y] is below
    [y], when [y] is a number. *)
Lemma float_not_leb_ltb : forall x y z : float,
  Prim2SF y <> S754_nan ->
  PrimFloat.leb z x = true -> PrimFloat.leb y x = false -> PrimFloat.ltb x y = true.
Proof.
  intros x y z Hy. rewrite ltb_spec, !leb_spec. unfold SFltb, SFleb.
  rewrite (SFcompare_antisym (Prim2SF x) (Prim2SF y)).
  destruct (SFcompare (Prim2SF x) (Prim2SF y)) as [[| |]|] eqn:Hc; cbn;
    try congruence.
  intros Hz _. apply SFcompare_none in Hc. destruct Hc as [Hc|Hc]; [|contradiction].
  rewrite Hc in Hz. destruct (Prim2SF z); cbn in Hz; discriminate.
Qed.

(** *** Threat labels *)

Lemma create_scan_result_labelled : forall oid name sev host port descr,
  well_labelled (create_scan_result oid name sev host port descr).
Proof.
  intros. unfold well_labelled, create_scan_result, THREAT_LABELS. cbn [threat].
  destruct (PrimFloat.leb 7 sev); [|destruct (PrimFloat.leb 4 sev)];
    eexists; (split; [reflexivity|]); cbn; auto.
Qed.

Lemma Forall_firstn : forall {A : Type} (P : A -> Prop) n (l : list A),
  Forall P l -> Forall P (firstn n l).
Proof.
  intros A P n. induction n as [|n IH]; intros l Hl; cbn; [constructor|].
  destruct l as [|x l]; [constructor|].
  inversion Hl; subst. constructor; [assumption | apply IH; assumption].
Qed.

Lemma run_script_labelled : forall nvt target w,
  Forall well_labelled
    (results_of_scan (snd (result_of (nasl_executor_run_script nvt target w)))).
Proof.
  intros nvt target w. unfold nasl_executor_run_script.
  destruct nvt as [nvt|]; [|constructor].
  destruct target as [tgt|]; [|constructor].
  unfold bind, nasl_executor_has_openvas_nasl, popen.
  destruct (g_has_openvas_nasl w).
  - destruct (popen_outputs w) as [|[output|] rest]; try (cbn; constructor).
    cbn -[scan_nasl_output CStr.fgets_all create_scan_result].
    destruct (scan_nasl_output (CStr.fgets_all 512 output) false "") as [found descr].
    destruct found; cbn -[create_scan_result]; [|constructor].
    constructor; [apply create_scan_result_labelled | constructor].
  - destruct (PrimFloat.ltb 0 (cvss_base nvt)); cbn -[create_scan_result];
      [|constructor].
    constructor; [apply create_scan_result_labelled | constructor].
Qed.

Lemma run_scan_loop_labelled : forall oids i oid_count target preferences acc w,
  Forall well_labelled acc ->
  Forall well_labelled
    (result_of (run_scan_loop oids i oid_count target preferences acc w)).
Proof.
  induction oids as [|oid oids IH]; intros i oid_count target preferences acc w Hacc.
  - exact Hacc.
  - cbn [run_scan_loop]. rewrite bind_run.
    unfold nvt_feed_lookup_by_oid. cbn [result_of world_of fst snd].
    destruct (nvt_cache w oid) as [nvt|]; cbn [result_of world_of fst snd];
      [|apply IH; exact Hacc].
    rewrite bind_run. cbn [result_of world_of fst snd].
    pose proof (run_script_labelled (Some nvt) target w) as Hscript.
    unfold result_of in *.
    destruct (nasl_executor_run_script (Some nvt) target w) as [[[rc sr] w1] t1].
    cbn [fst snd] in *. rewrite bind_run. cbn [result_of world_of fst snd].
    apply IH. destruct sr as [sr|]; [|exact Hacc].
    destruct (rc =? ERR_SUCCESS); [|exact Hacc].
    apply Forall_app. split; [exact Hacc|]. apply Forall_firstn. exact Hscript.
Qed.

Lemma run_scan_labelled : forall oids oid_count target preferences w,
  Forall well_labelled
    (results_of_scan
       (snd (result_of (nasl_executor_run_scan oids oid_count target preferences w)))).
Proof.
  intros oids oid_count target preferences w. unfold nasl_executor_run_scan.
  destruct oids as [l|]; [|constructor].
  destruct target as [tgt|]; [|constructor].
  destruct (oid_count =? 0); [constructor|].
  rewrite bind_run. cbn [result_of fst snd results_of_scan results ret].
  apply run_scan_loop_labelled. constructor.
Qed.

Lemma basic_check_labelled : forall tgt pn oid name port text found w,
  Forall well_labelled found ->
  Forall well_labelled (result_of (basic_check tgt pn oid name port text found w)).
Proof.
  intros tgt pn oid name port text found w Hfound.
  unfold basic_check. rewrite bind_run.
  destruct (result_of (system _ w) =? 0); cbn -[create_scan_result]; [|exact Hfound].
  apply Forall_app. split; [exact Hfound|].
  constructor; [apply create_scan_result_labelled | constructor].
Qed.

Lemma run_basic_checks_labelled : forall target w,
  Forall well_labelled
    (results_of_scan (snd (result_of (nasl_executor_run_basic_checks target w)))).
Proof.
  intros target w. unfold nasl_executor_run_basic_checks.
  destruct target as [tgt|]; [|constructor].
  rewrite !bind_run. cbn [result_of fst snd results_of_scan results ret].
  repeat apply basic_check_labelled. constructor.
Qed.

(** C8. [create_scan_result] derives the threat label from the severity
    alone: High from 7.0 up, Medium from 4.0 up to 7.0 excluded, Low
    otherwise (also for a NaN); and every result that the two scan drivers
    of the agent return carries one of the labels of the schema. *)
Theorem scan_result_threat_label :
  forall oid name sev host port descr,
    let r := create_scan_result oid name sev host port descr in
    well_labelled r
    /\ (PrimFloat.leb 7 sev = true -> threat r = Some "High")
    /\ (PrimFloat.leb 4 sev = true -> PrimFloat.ltb sev 7 = true ->
        threat r = Some "Medium")
    /\ (PrimFloat.leb 7 sev = false ->
        PrimFloat.leb 4 sev && PrimFloat.ltb sev 7 = false ->
        threat r = Some "Low")
    /\ (forall oids oid_count target preferences w,
          Forall well_labelled
            (results_of_scan
               (snd (result_of
                       (nasl_executor_run_scan oids oid_count target preferences w)))))
    /\ (forall target w,
          Forall well_labelled
            (results_of_scan
               (snd (result_of (nasl_executor_run_basic_checks target w))))).
Proof.
  intros oid name sev host port descr r.
  split; [apply create_scan_result_labelled|].
  unfold r, create_scan_result. cbn [threat].
  split; [intros H7; rewrite H7; reflexivity|].
  split.
  { intros H4 Hlt. rewrite (float_ltb_leb _ _ Hlt), H4. reflexivity. }
  split.
  { intros H7 Hmid. rewrite H7.
    destruct (PrimFloat.leb 4 sev) eqn:H4; [|reflexivity].
    assert (Hlt : PrimFloat.ltb sev 7 = true).
    { apply (float_not_leb_ltb sev 7 4); [vm_compute; discriminate | exact H4 | exact H7]. }
    rewrite Hlt in Hmid. discriminate. }
  split; [apply run_scan_labelled | apply run_basic_checks_labelled].
Qed.

(** C8 at the severities 7.5, 5.0 and NaN. *)
Lemma scan_result_threat_label_witness :
  threat (create_scan_result (Some "1.3.6.1.4.1.25623.1.0.10662") (Some "SSH")
            7.5%float (Some "localhost") (Some "22/tcp") (Some "finding"))
  = Some "High"
  /\ threat (create_scan_result (Some "1.3.6.1.4.1.25623.1.0.10662") (Some "SSH")
               5%float (Some "localhost") (Some "22/tcp") (Some "finding"))
     = Some "Medium"
  /\ threat (create_scan_result (Some "1.3.6.1.4.1.25623.1.0.10662") (Some "SSH")
               nan (Some "localhost") (Some "22/tcp") (Some "finding"))
     = Some "Low".
Proof.
  split; [|split].
  - apply (scan_result_threat_label (Some "1.3.6.1.4.1.25623.1.0.10662") (Some "SSH")
             7.5%float (Some "localhost") (Some "22/tcp") (Some "finding")).
    vm_compute. reflexivity.
  - apply (scan_result_threat_label (Some "1.3.6.1.4.1.25623.1.0.10662") (Some "SSH")
             5%float (Some "localhost") (Some "22/tcp") (Some "finding")).
    + vm_compute. reflexivity.
    + vm_compute. reflexivity.
  - apply (scan_result_threat_label (Some "1.3.6.1.4.1.25623.1.0.10662") (Some "SSH")
             nan (Some "localhost") (Some "22/tcp") (Some "finding")).
    + vm_compute. reflexivity.
    + vm_compute. reflexivity.
Defined.

(** *** The events of a scan *)

Lemma emits_system : forall cmd, emits local_event (system cmd).
Proof.
  intros cmd w. unfold system. destruct (system_statuses w); cbn;
    (constructor; [exact I | constructor]).
Qed.

Lemma emits_popen : forall cmd, emits local_event (popen cmd).
Proof.
  intros cmd w. unfold popen. destruct (popen_outputs w); cbn;
    (constructor; [exact I | constructor]).
Qed.

Lemma run_script_emits : forall nvt target,
  emits local_event (nasl_executor_run_script nvt target).
Proof.
  intros nvt target. unfold nasl_executor_run_script.
  destruct nvt as [nvt|]; [|apply emits_ret].
  destruct target as [tgt|]; [|apply emits_ret].
  apply emits_bind; [apply emits_silent; reflexivity|]. intros has_nasl.
  destruct has_nasl.
  - apply emits_bind; [apply emits_popen|]. intros [output|]; [|apply emits_ret].
    destruct (scan_nasl_output _ _ _) as [found descr].
    destruct found; apply emits_ret.
  - destruct (PrimFloat.ltb 0 (cvss_base nvt)); apply emits_ret.
Qed.

Lemma run_scan_loop_emits : forall oids i oid_count target preferences acc,
  emits local_event (run_scan_loop oids i oid_count target preferences acc).
Proof.
  induction oids as [|oid oids IH]; intros i oid_count target preferences acc.
  - apply emits_ret.
  - cbn [run_scan_loop].
    apply emits_bind.
    { apply emits_silent. intros w. reflexivity. }
    intros [nvt|]; [|apply IH].
    apply emits_bind; [apply run_script_emits|]. intros [exec_result script_results].
    apply emits_bind; [|intros _; apply IH].
    destruct preferences; [|apply emits_ret].
    destruct (i <? oid_count - 1); [apply emits_sleep; exact I | apply emits_ret].
Qed.

Lemma run_scan_emits : forall oids oid_count target preferences,
  emits local_event (nasl_executor_run_scan oids oid_count target preferences).
Proof.
  intros oids oid_count target preferences. unfold nasl_executor_run_scan.
  destruct oids as [l|]; [|apply emits_ret].
  destruct target as [tgt|]; [|apply emits_ret].
  destruct (oid_count =? 0); [apply emits_ret|].
  apply emits_bind; [apply run_scan_loop_emits | intros; apply emits_ret].
Qed.

Lemma basic_check_emits : forall tgt pn oid name port text found,
  emits local_event (basic_check tgt pn oid name port text found).
Proof.
  intros. unfold basic_check.
  apply emits_bind; [apply emits_system|]. intros st.
  destruct (st =? 0); apply emits_ret.
Qed.

Lemma run_basic_checks_emits : forall target,
  emits local_event (nasl_executor_run_basic_checks target).
Proof.
  intros target. unfold nasl_executor_run_basic_checks.
  destruct target as [tgt|]; [|apply emits_ret].
  repeat (apply emits_bind; [apply basic_check_emits | intros ?]).
  apply emits_ret.
Qed.

Lemma job_execute_emits : forall `{LibcFormat} ctx job,
  emits local_event (job_execute ctx job).
Proof.
  intros Hlibc ctx job. unfold job_execute, utils_get_iso8601_timestamp.
  apply emits_bind.
  { apply emits_bind; [apply emits_time | intros; apply emits_ret]. }
  intros started_at.
  apply emits_bind; [apply emits_silent; reflexivity|]. intros has_nasl.
  apply emits_bind.
  { destruct has_nasl; [apply run_scan_emits | apply run_basic_checks_emits]. }
  intros [rc scan_results].
  apply emits_bind.
  { apply emits_bind; [apply emits_time | intros; apply emits_ret]. }
  intros completed_at. apply emits_ret.
Qed.

(** [job_execute] always comes back with [ERR_SUCCESS] and a document. *)
Lemma job_execute_succeeds : forall `{LibcFormat} ctx job w,
  exists results_json,
    result_of (job_execute ctx job w) = (ERR_SUCCESS, Some results_json).
Proof.
  intros Hlibc ctx job w. unfold job_execute.
  repeat (rewrite bind_run; cbn [result_of world_of fst snd]).
  match goal with
  | |- context [let (_, _) := ?x in _] => destruct x as [rc scan_results]
  end.
  repeat (rewrite bind_run; cbn [result_of world_of fst snd]).
  eexists. reflexivity.
Qed.

End NaslFacts.

(* ===================================================================== *)
(** ** Theorems: job_processor.c and agent.c *)
(* ===================================================================== *)

Module AgentFacts.
Import MonadFacts AgentSpec HeartbeatFacts Samples.

(** [job_poll] issues at most one request, the GET of the jobs endpoint,
    and whatever the controller answers, the list it hands out is empty. *)
Lemma job_poll_outcome : forall ctx w,
  let r := job_poll ctx w in
  (snd (result_of r) = None \/ snd (result_of r) = Some (mk_job_list None 0))
  /\ (fst (result_of r) = ERR_SUCCESS -> snd (result_of r) = Some (mk_job_list None 0))
  /\ Forall (idle_event (config ctx)) (trace_of r).
Proof.
  intros ctx w. cbv zeta. unfold job_poll.
  destruct (utils_build_url (controller_url (config ctx)) (Some JOBS_PATH))
    as [url|] eqn:Hurl.
  2: { cbn. repeat split; auto. discriminate. }
  unfold bind, emit, curl_easy_perform.
  destruct (http_replies w) as [|[msg|st raw] rest];
    cbn -[CStr.strstr CStr.c_str CStr.quoted].
  1,2: (split; [left; reflexivity|]; split; [discriminate|];
        constructor; [exact Hurl | constructor]).
  destruct (st =? 401); [|destruct (st =? 200)];
    cbn -[CStr.strstr CStr.c_str CStr.quoted].
  1,3: (split; [left; reflexivity|]; split; [discriminate|];
        constructor; [exact Hurl | constructor]).
  destruct (is_some _ || is_some _);
    cbn -[CStr.strstr CStr.c_str CStr.quoted];
    (split; [right; reflexivity|]; split; [reflexivity|];
     constructor; [exact Hurl | constructor]).
Qed.

Section WithLibc.
Context `{LibcFormat}.

Lemma agent_process_jobs_empty : forall ctx rc polled,
  polled = None \/ polled = Some (mk_job_list None 0) ->
  agent_process_jobs ctx rc polled = ret tt.
Proof.
  intros ctx rc polled [Hp|Hp]; subst polled; unfold agent_process_jobs.
  - reflexivity.
  - destruct (rc =? ERR_SUCCESS); reflexivity.
Qed.

Lemma agent_run_iteration_prefix : forall ctx w,
  exists rest,
    trace_of (agent_run_iteration ctx w)
    = (trace_of (heartbeat_send_with_retry ctx w) ++ rest)%list.
Proof.
  intros ctx w. unfold agent_run_iteration. rewrite bind_run.
  cbn [trace_of snd]. eexists. reflexivity.
Qed.

(** A round whose heartbeat fails, or succeeds and reports the agent as
    not authorized, ends with the sleep until the next heartbeat. *)
Lemma agent_run_iteration_waiting : forall ctx w,
  let hb := heartbeat_send_with_retry ctx w in
  hb_code hb <> ERR_SUCCESS \/ authorized (hb_context hb) = false ->
  agent_run_iteration ctx w
  = (if hb_code hb =? ERR_SUCCESS
     then set_state AGENT_STATE_UNAUTHORIZED (hb_context hb)
     else hb_context hb,
     with_clock (clock (world_of hb)
                 + heartbeat_interval_seconds (config (hb_context hb)) mod 4294967296)
                (world_of hb),
     (trace_of hb ++ [EvSleep (heartbeat_interval_seconds (config (hb_context hb)))])%list).
Proof.
  intros ctx w hb Hcase. unfold agent_run_iteration. rewrite bind_run.
  fold hb. unfold hb_code, hb_context in *.
  destruct hb as [[[[code response] ctx1] w1] t].
  cbn [result_of world_of trace_of fst snd] in *.
  destruct (Z.eqb_spec code ERR_SUCCESS) as [Hok|Hnok].
  - destruct Hcase as [Hc|Hc]; [contradiction|].
    cbn [negb]. rewrite Hc. cbn. reflexivity.
  - cbn. reflexivity.
Qed.

Lemma heartbeat_first_event : forall ctx w url,
  heartbeat_url ctx = Some url ->
  1 <= retry_attempts (config ctx) ->
  exists headers rest,
    trace_of (heartbeat_send_with_retry ctx w)
    = EvHttpPost url headers (heartbeat_body ctx) :: rest.
Proof.
  intros ctx w url Hurl Hattempts. unfold heartbeat_send_with_retry.
  destruct (Z.to_nat (retry_attempts (config ctx))) as [|rounds] eqn:Hrounds; [lia|].
  rewrite retry_loop_step. cbv zeta.
  destruct (heartbeat_send_url ctx w url Hurl) as [[headers Ht] _].
  destruct (hb_code (heartbeat_send ctx w) =? ERR_SUCCESS);
    [| destruct (hb_code (heartbeat_send ctx w) =? ERR_AUTH_FAILED)];
    cbn [trace_of snd]; rewrite Ht; cbn [app]; eauto.
Qed.

(** C4. In a round whose heartbeat comes back with [authorized] false,
    the agent sends nothing but heartbeats: the round consists of the
    heartbeat and the sleep of one heartbeat interval, it takes no further
    reply of the controller (no [job_poll]), leaves the agent in state
    UNAUTHORIZED, and the next round opens with a heartbeat again. *)
Theorem unauthorized_agent_never_polls :
  forall ctx w response,
    let hb := heartbeat_send_with_retry ctx w in
    let r := agent_run_iteration ctx w in
    hb_code hb = ERR_SUCCESS ->
    hb_response hb = Some response ->
    hb_authorized response = false ->
    trace_of r
    = (trace_of hb ++ [EvSleep (heartbeat_interval_seconds (config ctx))])%list
    /\ Forall (heartbeat_event (config ctx)) (trace_of r)
    /\ http_replies (world_of r) = http_replies (world_of hb)
    /\ state (result_of r) = AGENT_STATE_UNAUTHORIZED
    /\ (exists url headers rest,
          heartbeat_url ctx = Some url
          /\ trace_of (agent_run_iteration (result_of r) (world_of r))
             = EvHttpPost url headers (heartbeat_body (result_of r)) :: rest).
Proof.
  intros ctx w response hb r Hok Hresp Hunauth.
  destruct (retry_loop_invariants (Z.to_nat (retry_attempts (config ctx))) 1 ctx w)
    as (Hcfg & Hev & Hsucc).
  fold (heartbeat_send_with_retry ctx w) in Hcfg, Hev, Hsucc. fold hb in Hcfg, Hev, Hsucc.
  destruct (Hsucc Hok) as (Hrounds & [url Hurl] & (response' & Hresp' & Hauth)).
  assert (Hflag : authorized (hb_context hb) = false) by congruence.
  subst r. rewrite (agent_run_iteration_waiting ctx w (or_intror Hflag)).
  fold hb. rewrite Hok. cbn [Z.eqb ERR_SUCCESS result_of world_of trace_of fst snd].
  rewrite Hcfg.
  split; [reflexivity|]. split.
  { apply Forall_app. split; [exact Hev|]. constructor; [exact I | constructor]. }
  split; [reflexivity|]. split; [reflexivity|].
  set (ctx' := set_state AGENT_STATE_UNAUTHORIZED (hb_context hb)).
  assert (Hcfg' : config ctx' = config ctx) by exact Hcfg.
  match goal with
  | |- context [agent_run_iteration ctx' ?w'] =>
      destruct (agent_run_iteration_prefix ctx' w') as [rest Hprefix];
      destruct (heartbeat_first_event ctx' w' url) as (headers & rest' & Hfirst)
  end.
  - rewrite (heartbeat_url_config ctx ctx' Hcfg'). exact Hurl.
  - rewrite Hcfg'. lia.
  - exists url, headers, (rest' ++ rest)%list. split; [exact Hurl|].
    rewrite Hprefix, Hfirst. reflexivity.
Qed.

Lemma heartbeat_event_idle : forall c e, heartbeat_event c e -> idle_event c e.
Proof. intros c [] He; try contradiction; exact He. Qed.

Lemma set_state_active_config : forall ctx,
  config (if negb (agent_state_eqb (state ctx) AGENT_STATE_ACTIVE)
          then set_state AGENT_STATE_ACTIVE ctx else ctx) = config ctx.
Proof.
  intros ctx. destruct (negb (agent_state_eqb (state ctx) AGENT_STATE_ACTIVE));
    reflexivity.
Qed.

(** A round of the main loop keeps the configuration and, since the job
    list is always empty, consists of heartbeat POSTs, the GET of the job
    poll and sleeps. *)
Lemma agent_run_iteration_idle : forall ctx w,
  config (result_of (agent_run_iteration ctx w)) = config ctx
  /\ Forall (idle_event (config ctx)) (trace_of (agent_run_iteration ctx w)).
Proof.
  intros ctx w.
  destruct (retry_loop_invariants (Z.to_nat (retry_attempts (config ctx))) 1 ctx w)
    as (Hcfg & Hev & _).
  fold (heartbeat_send_with_retry ctx w) in Hcfg, Hev.
  assert (Hidle : Forall (idle_event (config ctx))
                    (trace_of (heartbeat_send_with_retry ctx w))).
  { eapply Forall_impl; [apply heartbeat_event_idle | exact Hev]. }
  destruct (Z.eqb_spec (hb_code (heartbeat_send_with_retry ctx w)) ERR_SUCCESS)
    as [Hok|Hnok].
  2: { rewrite (agent_run_iteration_waiting ctx w (or_introl Hnok)).
       destruct (Z.eqb_spec (hb_code (heartbeat_send_with_retry ctx w)) ERR_SUCCESS);
         [contradiction|].
       cbn [result_of trace_of fst snd]. split; [exact Hcfg|].
       apply Forall_app. split; [exact Hidle|]. constructor; [exact I | constructor]. }
  destruct (authorized (hb_context (heartbeat_send_with_retry ctx w))) eqn:Hauth.
  2: { rewrite (agent_run_iteration_waiting ctx w (or_intror Hauth)).
       rewrite Hok. cbn [Z.eqb ERR_SUCCESS result_of trace_of fst snd].
       split; [exact Hcfg|].
       apply Forall_app. split; [exact Hidle|]. constructor; [exact I | constructor]. }
  unfold agent_run_iteration. rewrite bind_run.
  unfold hb_code, hb_context in *.
  destruct (heartbeat_send_with_retry ctx w) as [[[[code response] ctx1] w1] t].
  cbn [result_of world_of trace_of fst snd] in *.
  subst code. rewrite Hauth. cbn [Z.eqb ERR_SUCCESS negb].
  set (ctx2 := if negb (agent_state_eqb (state ctx1) AGENT_STATE_ACTIVE)
               then set_state AGENT_STATE_ACTIVE ctx1 else ctx1).
  assert (Hcfg2 : config ctx2 = config ctx).
  { unfold ctx2. rewrite set_state_active_config. exact Hcfg. }
  rewrite bind_run.
  destruct (job_poll_outcome ctx2 w1) as (Hpolled & _ & Hpoll).
  destruct (job_poll ctx2 w1) as [[[rc polled] w2] t2].
  cbn [result_of world_of trace_of fst snd] in *.
  rewrite (agent_process_jobs_empty ctx2 rc polled Hpolled).
  cbn. split; [exact Hcfg2|].
  apply Forall_app. split; [exact Hidle|].
  apply Forall_app. split; [rewrite <- Hcfg2; exact Hpoll|].
  constructor; [exact I | constructor].
Qed.

Lemma agent_run_idle : forall n ctx w,
  config (result_of (agent_run n ctx w)) = config ctx
  /\ Forall (idle_event (config ctx)) (trace_of (agent_run n ctx w)).
Proof.
  induction n as [|n IH]; intros ctx w.
  - cbn. split; [reflexivity | constructor].
  - cbn [agent_run]. rewrite bind_run. cbn [result_of world_of trace_of fst snd].
    destruct (agent_run_iteration_idle ctx w) as [Hc He].
    destruct (IH (result_of (agent_run_iteration ctx w))
                (world_of (agent_run_iteration ctx w))) as [IHc IHe].
    unfold result_of, world_of, trace_of in *.
    split; [exact (eq_trans IHc Hc)|].
    apply Forall_app. split; [exact He|]. rewrite <- Hc. exact IHe.
Qed.

End WithLibc.

(** *** The endpoints that are requested *)

Lemma build_url_absolute : forall b p,
  utils_build_url (Some b) (Some (String "/" p)) = Some (b ++ String "/" p).
Proof.
  intros b p. unfold utils_build_url. cbn [String.length Nat.ltb Nat.leb Ascii.eqb].
  replace (Ascii.eqb "/" "/") with true by reflexivity.
  cbn [negb andb]. rewrite !andb_false_r. reflexivity.
Qed.

Lemma build_url_paths : forall base p q u,
  utils_build_url base (Some (String "/" p)) = Some u ->
  utils_build_url base (Some (String "/" q)) = Some u ->
  p = q.
Proof.
  intros [b|] p q u Hp Hq; [|discriminate].
  rewrite build_url_absolute in Hp, Hq.
  assert (Heq : b ++ String "/" p = b ++ String "/" q) by congruence.
  apply CStrFacts.app_inv_head in Heq. congruence.
Qed.

(** A job id short enough for the buffer of [job_submit_results] (a UUID
    has 36 characters) gives the results path in full. *)
Lemma results_path_exact : forall jid,
  (String.length jid <= 483)%nat ->
  results_path jid = "/api/v1/agents/jobs/" ++ jid ++ "/results".
Proof.
  intros jid Hlen. unfold results_path, CStr.snprintf.
  apply CStrFacts.substring_all.
  rewrite !CStrFacts.length_app. cbn [String.length]. cbn. lia.
Qed.



Section Claims.
Context `{LibcFormat}.

(** *** The main loop never runs a job *)

(** C9. A successful [job_poll] hands out an empty list whatever the
    controller answered, so the main loop has nothing to execute: what it
    does with the poll is a no-op, and every event of every round is a
    heartbeat POST, the GET of the poll, or a sleep; no command is run and
    no result is posted. *)
Theorem job_poll_never_yields_jobs :
  forall ctx w,
    (fst (result_of (job_poll ctx w)) = ERR_SUCCESS ->
     snd (result_of (job_poll ctx w)) = Some (mk_job_list None 0))
    /\ (forall ctx',
          agent_process_jobs ctx' (fst (result_of (job_poll ctx w)))
            (snd (result_of (job_poll ctx w))) = ret tt)
    /\ (forall n, Forall (idle_event (config ctx)) (trace_of (agent_run n ctx w))).
Proof.
  intros ctx w. destruct (job_poll_outcome ctx w) as (Hpolled & Hok & _).
  split; [exact Hok|]. split.
  - intros ctx'. apply agent_process_jobs_empty. exact Hpolled.
  - intros n. apply agent_run_idle.
Qed.

(** *** The configuration flag of the heartbeat *)

Lemma idle_event_not_config : forall c url e,
  utils_build_url (controller_url c) (Some CONFIG_PATH) = Some url ->
  idle_event c e -> ~ requests url e.
Proof.
  intros c url e Hurl Hidle Hreq.
  destruct e as [u hs b|u hs|n|cmd|cmd]; cbn in Hidle, Hreq; try contradiction;
    subst u;
    pose proof (build_url_paths _ _ _ _ Hidle Hurl) as Heq; discriminate.
Qed.

(** C3, as the code has it. [heartbeat_send] stores the [config_updated]
    flag in the response and nothing reads it: over any number of rounds
    the agent sends no request to the configuration endpoint and runs with
    the configuration it was started with. *)
Theorem config_update_flag_ignored :
  forall n ctx w,
    config (result_of (agent_run n ctx w)) = config ctx
    /\ (forall url,
          utils_build_url (controller_url (config ctx)) (Some CONFIG_PATH) = Some url ->
          Forall (fun e => ~ requests url e) (trace_of (agent_run n ctx w))).
Proof.
  intros n ctx w. destruct (agent_run_idle n ctx w) as [Hcfg Hidle].
  split; [exact Hcfg|]. intros url Hurl.
  eapply Forall_impl; [|exact Hidle].
  intros e. apply idle_event_not_config. exact Hurl.
Qed.

(** *** Execution of a job and submission of its results *)















End Claims.

(** C9 at a sample: the controller lists a job, the poll succeeds and
    hands out nothing. *)
Lemma job_poll_never_yields_jobs_witness :
  snd (result_of (job_poll sample_context (sample_world [jobs_reply])))
  = Some (mk_job_list None 0).
Proof.
  apply (proj1 (@job_poll_never_yields_jobs sample_libc sample_context
                  (sample_world [jobs_reply]))).
  vm_compute. reflexivity.
Defined.

(** C4 at a controller that answers [authorized: false]. *)
Lemma unauthorized_agent_never_polls_witness :
  let w := sample_world [heartbeat_reply "false" "false"; jobs_reply] in
  let hb := heartbeat_send_with_retry sample_context w in
  let r := @agent_run_iteration sample_libc sample_context w in
  trace_of r
  = (trace_of hb ++ [EvSleep (heartbeat_interval_seconds (config sample_context))])%list
  /\ Forall (heartbeat_event (config sample_context)) (trace_of r)
  /\ http_replies (world_of r) = http_replies (world_of hb)
  /\ state (result_of r) = AGENT_STATE_UNAUTHORIZED
  /\ (exists url headers rest,
        heartbeat_url sample_context = Some url
        /\ trace_of (@agent_run_iteration sample_libc (result_of r) (world_of r))
           = EvHttpPost url headers (heartbeat_body (result_of r)) :: rest).
Proof.
  apply (@unauthorized_agent_never_polls sample_libc sample_context
           (sample_world [heartbeat_reply "false" "false"; jobs_reply])
           unauthorized_response).
  - vm_compute. reflexivity.
  - vm_compute. reflexivity.
  - reflexivity.
Defined.

(** C3, counterexample. Both heartbeats of this run come back with
    [config_updated] true; the agent polls for jobs and sleeps, requests
    no configuration and keeps the one it has. *)
Lemma config_update_not_pulled :
  let w := sample_world [heartbeat_reply "true" "true"; jobs_reply;
                         heartbeat_reply "true" "true"; jobs_reply] in
  let r := @agent_run sample_libc 2 sample_context w in
  option_map config_updated (hb_response (heartbeat_send_with_retry sample_context w))
  = Some true
  /\ map request_target (trace_of r)
     = [ Some ("POST", "https://controller.example.org/api/v1/agents/heartbeat");
         Some ("GET", "https://controller.example.org/api/v1/agents/jobs");
         None;
         Some ("POST", "https://controller.example.org/api/v1/agents/heartbeat");
         Some ("GET", "https://controller.example.org/api/v1/agents/jobs");
         None ]
  /\ existsb (requestsb "https://controller.example.org/api/v1/agents/config")
       (trace_of r) = false
  /\ config (result_of r) = sample_config.
Proof. vm_compute. repeat split; reflexivity. Qed.

(** C3 at the sample controller. *)
Lemma config_update_flag_ignored_witness :
  Forall (fun e => ~ requests "https://controller.example.org/api/v1/agents/config" e)
    (trace_of (@agent_run sample_libc 2 sample_context
                 (sample_world [heartbeat_reply "true" "true"; jobs_reply]))).
Proof.
  apply (proj2 (@config_update_flag_ignored sample_libc 2 sample_context
                  (sample_world [heartbeat_reply "true" "true"; jobs_reply]))).
  vm_compute. reflexivity.
Defined.



End AgentFacts.


(* ===================================================================== *)
(** ** Theorems: agent_get_system_info *)
(* ===================================================================== *)

Module SystemInfoFacts.
Import AgentSpec Samples.

Lemma posix_collect_ips_spec : forall ifa acc,
  (List.length acc <= 16)%nat ->
  ~ In LOOPBACK acc ->
  (List.length (posix_collect_ips ifa acc) <= 16)%nat
  /\ ~ In LOOPBACK (posix_collect_ips ifa acc).
Proof.
  induction ifa as [|entry ifa IH]; intros acc Hlen Hloop; cbn [posix_collect_ips].
  - split; assumption.
  - destruct (Z.ltb_spec (Z.of_nat (List.length acc)) 16) as [Hroom|Hfull];
      [|split; assumption].
    destruct entry as [sa|]; [|apply IH; assumption].
    destruct (is_af_inet (sa_family sa)); [|apply IH; assumption].
    unfold CStr.strcmp_eq.
    destruct (String.eqb_spec (sa_text sa) "127.0.0.1") as [Heq|Hneq]; cbn [negb];
      [apply IH; assumption|].
    apply IH.
    + rewrite length_app. cbn. lia.
    + intros Hin. apply in_app_or in Hin. destruct Hin as [Hin|[Hin|[]]].
      * contradiction.
      * apply Hneq. exact Hin.
Qed.

Lemma win32_collect_unicast_length : forall unicast acc,
  (List.length acc <= 16)%nat ->
  (List.length (win32_collect_unicast unicast acc) <= 16)%nat.
Proof.
  induction unicast as [|sa unicast IH]; intros acc Hlen; cbn [win32_collect_unicast].
  - assumption.
  - destruct (Z.ltb_spec (Z.of_nat (List.length acc)) 16) as [Hroom|Hfull];
      [|assumption].
    destruct (is_af_inet (sa_family sa)); apply IH; [|assumption].
    rewrite length_app. cbn. lia.
Qed.

Lemma win32_collect_adapters_length : forall adapters acc,
  (List.length acc <= 16)%nat ->
  (List.length (win32_collect_adapters adapters acc) <= 16)%nat.
Proof.
  induction adapters as [|unicast adapters IH]; intros acc Hlen;
    cbn [win32_collect_adapters].
  - assumption.
  - destruct (Z.of_nat (List.length acc) <? 16); [|assumption].
    apply IH. apply win32_collect_unicast_length. assumption.
Qed.

(** On every build the call succeeds with between 1 and 16 addresses. *)
Lemma agent_get_system_info_count : forall os,
  fst (agent_get_system_info os) = ERR_SUCCESS
  /\ ip_count_out (snd (agent_get_system_info os))
     = Z.of_nat (List.length (ips_out (snd (agent_get_system_info os))))
  /\ 1 <= ip_count_out (snd (agent_get_system_info os)) <= 16.
Proof.
  intros os. unfold agent_get_system_info.
  assert (Hbound : forall collected : list string,
             (List.length collected <= 16)%nat ->
             1 <= Z.of_nat (List.length
                              (if Z.of_nat (List.length collected) =? 0
                               then ["127.0.0.1"] else collected)) <= 16).
  { intros collected Hlen.
    destruct (Z.eqb_spec (Z.of_nat (List.length collected)) 0); cbn [List.length]; lia. }
  destruct os as [un ifaddr|major minor cpu adapters]; cbn [fst snd ip_count_out ips_out].
  - split; [reflexivity|]. split; [reflexivity|]. apply Hbound.
    destruct ifaddr as [l|]; [|cbn; lia].
    apply posix_collect_ips_spec; [cbn; lia | intros []].
  - split; [reflexivity|]. split; [reflexivity|]. apply Hbound.
    destruct adapters as [l|]; [|cbn; lia].
    apply win32_collect_adapters_length. cbn. lia.
Qed.

(** On a POSIX build the loopback address is left out of the collected
    addresses, and is the only entry when it is listed at all. *)
Lemma posix_system_info_loopback : forall un ifaddr,
  let info := snd (agent_get_system_info (PosixHost un ifaddr)) in
  In LOOPBACK (ips_out info) -> ips_out info = [LOOPBACK].
Proof.
  intros un ifaddr info. unfold info, agent_get_system_info. cbn [snd ips_out].
  set (collected := match ifaddr with
                    | Some l => posix_collect_ips l []
                    | None => []
                    end).
  assert (Hnot : ~ In LOOPBACK collected).
  { unfold collected. destruct ifaddr as [l|]; [|intros []].
    apply posix_collect_ips_spec; [cbn; lia | intros []]. }
  destruct (Z.of_nat (List.length collected) =? 0); [reflexivity|].
  intros Hin. contradiction.
Qed.

(** C10, on a Windows build. The branch under [_WIN32] has no loopback
    test: with a loopback pseudo-interface and one network adapter the
    call returns both addresses, 127.0.0.1 among them, whereas the POSIX
    branch returns the adapter's address alone for the same interfaces. *)
Theorem win32_system_info_keeps_loopback :
  agent_get_system_info windows_host
  = (ERR_SUCCESS,
     mk_system_info (Some "Windows 10.0") (Some "amd64")
       ["127.0.0.1"; "192.168.1.10"] 2)
  /\ agent_get_system_info posix_host
     = (ERR_SUCCESS,
        mk_system_info (Some "Linux 6.1.0") (Some "x86_64") ["192.168.1.10"] 1).
Proof. split; vm_compute; reflexivity. Qed.

End SystemInfoFacts.

(* ===================================================================== *)
(** ** More about config.c *)
(* ===================================================================== *)

Module ConfigMore.
Import CStr Config ConfigSpec ConfigShape Samples.

(** *** [trim_whitespace] *)

Lemma skip_while_head : forall p s c rest,
  skip_while p s = String c rest -> p c = false.
Proof.
  induction s as [|a s IH]; intros c rest Hs; cbn in Hs; [discriminate|].
  destruct (p a) eqn:Ha; [eauto|]. inversion Hs; subst. exact Ha.
Qed.

Lemma skip_while_stop : forall p c rest,
  p c = false -> skip_while p (String c rest) = String c rest.
Proof. intros p c rest Hc. cbn. rewrite Hc. reflexivity. Qed.

Lemma strip_trailing_idempotent : forall s,
  strip_trailing (strip_trailing s) = strip_trailing s.
Proof.
  induction s as [|c s IH]; [reflexivity|]. cbn [strip_trailing].
  destruct (strip_trailing s) as [|a k] eqn:Hs.
  - destruct (is_trailing_ws c) eqn:Hc; [reflexivity|]. cbn. rewrite Hc. reflexivity.
  - cbn [strip_trailing] in IH |- *. rewrite IH. reflexivity.
Qed.

Lemma strip_trailing_last : forall s a k,
  strip_trailing s = String a k -> is_trailing_ws (string_last k a) = false.
Proof.
  induction s as [|c s IH]; intros a k Hs; cbn [strip_trailing] in Hs; [discriminate|].
  destruct (strip_trailing s) as [|a0 k0] eqn:Hrest.
  - destruct (is_trailing_ws c) eqn:Hc; [discriminate|].
    inversion Hs; subst. exact Hc.
  - inversion Hs; subst. cbn [string_last]. apply (IH a0 k0). reflexivity.
Qed.

Lemma skip_while_lead : forall p s,
  exists lead,
    s = lead ++ skip_while p s /\ string_forall p lead = true.
Proof.
  intros p. induction s as [|c s IH].
  - exists "". split; reflexivity.
  - cbn [skip_while]. destruct (p c) eqn:Hc.
    + destruct IH as (lead & Hs & Hlead). exists (String c lead). split.
      * cbn [append]. rewrite <- Hs. reflexivity.
      * cbn [string_forall]. rewrite Hc, Hlead. reflexivity.
    + exists "". split; reflexivity.
Qed.

Lemma strip_trailing_split : forall s,
  exists trail,
    s = strip_trailing s ++ trail /\ string_forall is_trailing_ws trail = true.
Proof.
  induction s as [|c s IH].
  - exists "". split; reflexivity.
  - destruct IH as (trail & Hs & Htrail). cbn [strip_trailing].
    destruct (strip_trailing s) as [|a k] eqn:Hstrip.
    + cbn [append] in Hs. subst trail.
      destruct (is_trailing_ws c) eqn:Hc.
      * exists (String c s). split; [reflexivity|].
        cbn [string_forall]. rewrite Hc, Htrail. reflexivity.
      * exists s. split; [reflexivity|exact Htrail].
    + exists trail. split; [|exact Htrail].
      cbn [append] in Hs |- *. rewrite <- Hs. reflexivity.
Qed.

(** X1. [trim_whitespace] cuts its argument at both ends and nowhere
    else: the argument is the result between leading blanks or tabs and
    trailing white space. The result has no blank in front and, unless it
    is a single character, no white space at the end: the scan from the end
    stops at the first character after the leading blanks, which is kept
    even when it is white space. Nothing is cut when nothing is kept, and
    trimming twice changes nothing more. *)
Theorem trim_whitespace_shape :
  forall s,
    (exists lead trail,
       s = lead ++ trim_whitespace s ++ trail
       /\ string_forall is_blank lead = true
       /\ string_forall is_trailing_ws trail = true
       /\ (trim_whitespace s = "" -> trail = ""))
    /\ (forall lead c rest,
          s = lead ++ String c rest ->
          string_forall is_blank lead = true ->
          is_blank c = false ->
          exists kept, trim_whitespace s = String c kept)
    /\ trimmed_shape (trim_whitespace s) = true
    /\ trim_whitespace (trim_whitespace s) = trim_whitespace s.
Proof.
  intros s. split; [|split; [|split]].
  - unfold trim_whitespace.
    destruct (skip_while_lead is_blank s) as (lead & Hs & Hlead).
    destruct (skip_while is_blank s) as [|c rest] eqn:Hskip.
    + exists lead, "". repeat split; assumption.
    + destruct (strip_trailing_split rest) as (trail & Hrest & Htrail).
      exists lead, trail. split; [|split; [exact Hlead|split; [exact Htrail|]]].
      * cbn [append]. rewrite <- Hrest. exact Hs.
      * intros Hempty. discriminate.
  - intros lead c rest Hs Hlead Hc. subst s. unfold trim_whitespace.
    assert (Hskip : skip_while is_blank (lead ++ String c rest) = String c rest).
    { clear -Hlead Hc. induction lead as [|a lead IH]; cbn [append skip_while].
      - rewrite Hc. reflexivity.
      - cbn [string_forall] in Hlead. apply andb_true_iff in Hlead.
        destruct Hlead as [Ha Hlead]. rewrite Ha. apply IH. exact Hlead. }
    rewrite Hskip. eexists. reflexivity.
  - unfold trim_whitespace.
    destruct (skip_while is_blank s) as [|c rest] eqn:Hskip; [reflexivity|].
    pose proof (skip_while_head _ _ _ _ Hskip) as Hc.
    cbn [trimmed_shape]. rewrite Hc. cbn [negb andb].
    destruct (strip_trailing rest) as [|a k] eqn:Hstrip; [reflexivity|].
    rewrite (strip_trailing_last _ _ _ Hstrip). reflexivity.
  - unfold trim_whitespace.
    destruct (skip_while is_blank s) as [|c rest] eqn:Hskip; [reflexivity|].
    pose proof (skip_while_head _ _ _ _ Hskip) as Hc.
    rewrite (skip_while_stop _ _ _ Hc). rewrite strip_trailing_idempotent. reflexivity.
Qed.

(** X1 at a line of blanks that ends in a newline: the newline is the
    first character after the blanks, and it is kept. *)
Lemma trim_whitespace_shape_witness :
  exists kept, trim_whitespace ("  " ++ String LF "") = String LF kept.
Proof.
  apply (proj1 (proj2 (trim_whitespace_shape ("  " ++ String LF ""))) "  " LF "").
  - reflexivity.
  - reflexivity.
  - reflexivity.
Defined.

(** *** Reading back a line that was written out *)

Lemma string_forall_app : forall p s t,
  string_forall p (s ++ t) = string_forall p s && string_forall p t.
Proof.
  induction s as [|c s IH]; intros t; cbn; [reflexivity|].
  rewrite IH. apply andb_assoc.
Qed.

Lemma string_forall_impl : forall (p q : ascii -> bool) s,
  (forall c, p c = true -> q c = true) ->
  string_forall p s = true -> string_forall q s = true.
Proof.
  intros p q s Hpq. induction s as [|c s IH]; cbn; [reflexivity|].
  intros Hs. apply andb_true_iff in Hs. destruct Hs as [Hc Hs].
  rewrite (Hpq c Hc), (IH Hs). reflexivity.
Qed.

Lemma c_str_no_nul : forall s, string_forall not_nul s = true -> c_str s = s.
Proof.
  induction s as [|c s IH]; cbn; [reflexivity|]. intros Hs.
  apply andb_true_iff in Hs. destruct Hs as [Hc Hs].
  unfold not_nul in Hc. apply negb_true_iff in Hc. rewrite Hc, (IH Hs). reflexivity.
Qed.

Lemma append_snoc : forall s c t, s ++ String c t = (s ++ String c "") ++ t.
Proof.
  induction s as [|a s IH]; intros c t; cbn; [reflexivity|]. rewrite IH. reflexivity.
Qed.

Lemma append_nonempty : forall s c t, s ++ String c t <> "".
Proof. intros [|a s] c t; cbn; discriminate. Qed.

Lemma strip_trailing_cons : forall c s,
  strip_trailing (String c s)
  = match strip_trailing s with
    | EmptyString => if is_trailing_ws c then EmptyString else String c EmptyString
    | String _ _ as kept => String c kept
    end.
Proof. reflexivity. Qed.

(** Text that ends in characters other than white space is left alone. *)
Lemma strip_trailing_keeps : forall x c w,
  string_forall not_ws (String c w) = true ->
  strip_trailing (x ++ String c w) = x ++ String c w.
Proof.
  assert (Hword : forall w c, string_forall not_ws (String c w) = true ->
                              strip_trailing (String c w) = String c w).
  { induction w as [|a w IH]; intros c Hw; cbn in Hw.
    - cbn. unfold not_ws in Hw. rewrite andb_true_r in Hw.
      apply negb_true_iff in Hw. rewrite Hw. reflexivity.
    - apply andb_true_iff in Hw. destruct Hw as [_ Hw].
      rewrite strip_trailing_cons, (IH a Hw). reflexivity. }
  induction x as [|a x IH]; intros c w Hw; [apply Hword; exact Hw|].
  cbn [append]. rewrite strip_trailing_cons, (IH c w Hw).
  destruct (x ++ String c w) eqn:Hx; [|reflexivity].
  exfalso. exact (append_nonempty _ _ _ Hx).
Qed.

Lemma strip_trailing_word : forall w,
  string_forall not_ws w = true -> strip_trailing w = w.
Proof.
  intros [|c w] Hw; [reflexivity|]. exact (strip_trailing_keeps "" c w Hw).
Qed.

(** White space at the end is cut. *)
Lemma strip_trailing_cuts : forall x y,
  string_forall is_trailing_ws y = true ->
  strip_trailing (x ++ y) = strip_trailing x.
Proof.
  assert (Hws : forall y, string_forall is_trailing_ws y = true -> strip_trailing y = "").
  { induction y as [|c y IH]; cbn; [reflexivity|]. intros Hy.
    apply andb_true_iff in Hy. destruct Hy as [Hc Hy]. rewrite (IH Hy), Hc. reflexivity. }
  induction x as [|a x IH]; intros y Hy; cbn [append]; [apply Hws; exact Hy|].
  rewrite !strip_trailing_cons, (IH y Hy). reflexivity.
Qed.

Lemma strchr_first : forall x c y,
  string_forall (fun a => negb (Ascii.eqb a c)) x = true ->
  strchr (x ++ String c y) c = Some (x, y).
Proof.
  induction x as [|a x IH]; intros c y Hx; cbn.
  - rewrite Ascii.eqb_refl. reflexivity.
  - cbn in Hx. apply andb_true_iff in Hx. destruct Hx as [Ha Hx].
    apply negb_true_iff in Ha. rewrite Ha, (IH c y Hx). reflexivity.
Qed.

Lemma word_char_facts : forall c,
  word_char c = true ->
  not_nul c = true /\ not_ws c = true /\ not_dq c = true /\ is_blank c = false.
Proof.
  intros c Hc. unfold word_char in Hc.
  apply andb_true_iff in Hc. destruct Hc as [Hc Hdq].
  apply andb_true_iff in Hc. destruct Hc as [Hnul Hws].
  repeat split; try assumption.
  unfold not_ws, is_trailing_ws in Hws. unfold is_blank.
  apply negb_true_iff in Hws.
  destruct (Ascii.eqb c SP); [discriminate|].
  destruct (Ascii.eqb c TAB); [discriminate|]. reflexivity.
Qed.

Lemma key_char_facts : forall c,
  key_char c = true -> word_char c = true /\ Ascii.eqb c "="%char = false.
Proof.
  intros c Hc. unfold key_char in Hc. apply andb_true_iff in Hc.
  destruct Hc as [Hw He]. apply negb_true_iff in He. split; assumption.
Qed.

Lemma written_line_split : forall key text,
  key ++ " = " ++ text = (key ++ " ") ++ String "="%char (String SP text).
Proof.
  induction key as [|c key IH]; intros text; cbn; [reflexivity|].
  f_equal. apply IH.
Qed.

(** The two halves of a line [key = text], as [parse_key_value] sees them. *)
Lemma parse_key_value_written : forall key text,
  is_key key = true ->
  parse_key_value (key ++ " = " ++ text)
  = LineAssign key (unquote (trim_whitespace (String SP text))).
Proof.
  intros key text Hkey. unfold parse_key_value.
  destruct key as [|c rest]; [discriminate|]. cbn [is_key] in Hkey.
  apply andb_true_iff in Hkey. destruct Hkey as [Hkey Hrest].
  apply andb_true_iff in Hkey. destruct Hkey as [Hc _].
  assert (Hall : string_forall key_char (String c rest) = true)
    by (cbn; rewrite Hc, Hrest; reflexivity).
  rewrite written_line_split.
  rewrite strchr_first.
  2: { rewrite string_forall_app. apply andb_true_iff. split; [|reflexivity].
       eapply string_forall_impl; [|exact Hall].
       intros a Ha. apply key_char_facts in Ha. destruct Ha as [_ Ha].
       rewrite Ha. reflexivity. }
  f_equal. unfold trim_whitespace.
  destruct (word_char_facts c (proj1 (key_char_facts c Hc))) as (_ & _ & _ & Hblank).
  cbn [append]. rewrite (skip_while_stop _ _ _ Hblank).
  rewrite strip_trailing_cuts by reflexivity.
  rewrite strip_trailing_word; [reflexivity|].
  eapply string_forall_impl; [|exact Hrest].
  intros a Ha. apply key_char_facts in Ha. destruct Ha as [Ha _].
  apply word_char_facts in Ha. tauto.
Qed.

Lemma append_assoc : forall a b c : string, (a ++ b) ++ c = a ++ (b ++ c).
Proof.
  induction a as [|x a IH]; intros b c; cbn; [reflexivity|]. rewrite IH. reflexivity.
Qed.

Lemma is_key_chars : forall c rest,
  is_key (String c rest) = true ->
  key_char c = true
  /\ string_forall key_char rest = true
  /\ (Ascii.eqb c "#"%char || Ascii.eqb c ";"%char) = false
  /\ Ascii.eqb c "["%char = false.
Proof.
  intros c rest Hkey. cbn [is_key] in Hkey.
  apply andb_true_iff in Hkey. destruct Hkey as [Hkey Hrest].
  apply andb_true_iff in Hkey. destruct Hkey as [Hc Hopen].
  apply negb_true_iff in Hopen.
  destruct (Ascii.eqb c "#"%char); [discriminate|].
  destruct (Ascii.eqb c ";"%char); [discriminate|].
  destruct (Ascii.eqb c "["%char); [discriminate|].
  repeat split; assumption.
Qed.

(** A written line whose text ends in something other than white space is
    classified as the assignment of that text to the key. *)
Lemma classify_written : forall key x c w,
  is_key key = true ->
  string_forall not_nul (x ++ String c w) = true ->
  string_forall not_ws (String c w) = true ->
  classify_line (key ++ " = " ++ (x ++ String c w) ++ String LF "")
  = LineAssign key (unquote (trim_whitespace (String SP (x ++ String c w)))).
Proof.
  intros key x c w Hkey Hnul Hend.
  rewrite <- (parse_key_value_written key (x ++ String c w) Hkey).
  destruct key as [|k0 krest]; [discriminate|].
  destruct (is_key_chars _ _ Hkey) as (Hk0 & Hrest & Hcomment & Hbracket).
  destruct (key_char_facts _ Hk0) as [Hw0 _].
  destruct (word_char_facts _ Hw0) as (Hnul0 & _ & _ & Hblank0).
  unfold classify_line.
  rewrite c_str_no_nul.
  2: { cbn [append string_forall]. rewrite Hnul0. cbn [andb].
       rewrite string_forall_app in Hnul.
       apply andb_true_iff in Hnul. destruct Hnul as [Hx Hcw].
       rewrite !string_forall_app. cbn [string_forall].
       rewrite !string_forall_app. rewrite Hx, Hcw. cbn.
       rewrite andb_true_r. eapply string_forall_impl; [|exact Hrest].
       intros a Ha. apply key_char_facts in Ha. destruct Ha as [Ha _].
       apply word_char_facts in Ha. tauto. }
  assert (Htrim :
            trim_whitespace
              (String k0 (krest ++ " = " ++ (x ++ String c w) ++ String LF ""))
            = String k0 (krest ++ " = " ++ x ++ String c w)).
  { unfold trim_whitespace.
    rewrite (skip_while_stop _ _ _ Hblank0). f_equal.
    replace (krest ++ " = " ++ (x ++ String c w) ++ String LF "")
      with ((krest ++ " = " ++ x ++ String c w) ++ String LF "")
      by (rewrite !append_assoc; reflexivity).
    rewrite strip_trailing_cuts by reflexivity.
    replace (krest ++ " = " ++ x ++ String c w)
      with ((krest ++ " = " ++ x) ++ String c w)
      by (rewrite !append_assoc; reflexivity).
    apply strip_trailing_keeps. exact Hend. }
  cbn [append] in Htrim |- *. rewrite !Htrim.
  rewrite Hcomment, Hbracket. reflexivity.
Qed.

Lemma classify_written_word : forall key v,
  is_key key = true -> is_word v = true ->
  classify_line (key ++ " = " ++ v ++ String LF "") = LineAssign key v.
Proof.
  intros key v Hkey Hword. destruct v as [|c w]; [discriminate|]. cbn [is_word] in Hword.
  assert (Hnul : string_forall not_nul (String c w) = true).
  { eapply string_forall_impl; [|exact Hword].
    intros a Ha. apply word_char_facts in Ha. tauto. }
  assert (Hws : string_forall not_ws (String c w) = true).
  { eapply string_forall_impl; [|exact Hword].
    intros a Ha. apply word_char_facts in Ha. tauto. }
  pose proof (classify_written key "" c w Hkey Hnul Hws) as Hline.
  cbn [append] in Hline |- *. rewrite Hline. f_equal.
  cbn [string_forall] in Hword, Hws.
  apply andb_true_iff in Hword. destruct Hword as [Hc _].
  apply andb_true_iff in Hws. destruct Hws as [_ Hws].
  destruct (word_char_facts _ Hc) as (_ & _ & Hdq & Hblank).
  unfold trim_whitespace.
  replace (skip_while is_blank (String SP (String c w))) with (String c w)
    by (cbn; rewrite Hblank; reflexivity).
  rewrite (strip_trailing_word w Hws).
  unfold unquote. unfold not_dq in Hdq. apply negb_true_iff in Hdq.
  rewrite Hdq. reflexivity.
Qed.

Lemma classify_written_quoted : forall key v,
  is_key key = true -> quotable v = true ->
  classify_line (key ++ " = " ++ quoted v ++ String LF "") = LineAssign key v.
Proof.
  intros key v Hkey Hq. unfold quotable in Hq.
  assert (Hnul : string_forall not_nul (String DQ v ++ String DQ "") = true).
  { cbn [append string_forall]. rewrite string_forall_app. cbn.
    rewrite andb_true_r. eapply string_forall_impl; [|exact Hq].
    intros a Ha. apply andb_true_iff in Ha. tauto. }
  pose proof (classify_written key (String DQ v) DQ "" Hkey Hnul eq_refl) as Hline.
  unfold quoted. cbn [append] in Hline |- *. rewrite Hline. f_equal.
  unfold trim_whitespace.
  replace (skip_while is_blank (String SP (String DQ (v ++ String DQ ""))))
    with (String DQ (v ++ String DQ "")) by reflexivity.
  rewrite (strip_trailing_keeps v DQ "" eq_refl).
  unfold unquote. rewrite Ascii.eqb_refl.
  rewrite strchr_first; [reflexivity|].
  eapply string_forall_impl; [|exact Hq].
  intros a Ha. apply andb_true_iff in Ha. destruct Ha as [_ Ha]. exact Ha.
Qed.

(** X2. A line written as [key = value] reads back as the assignment of
    [value] to [key], for a bare word and for any text between quotes
    (spaces and an empty text included). *)
Theorem config_line_round_trip :
  forall key v,
    is_key key = true ->
    (is_word v = true ->
     classify_line (key ++ " = " ++ v ++ String LF "") = LineAssign key v)
    /\ (quotable v = true ->
        classify_line (key ++ " = " ++ quoted v ++ String LF "") = LineAssign key v).
Proof.
  intros key v Hkey. split.
  - apply classify_written_word; assumption.
  - apply classify_written_quoted; assumption.
Qed.

(** X2 at the line that sets the token, bare and quoted. *)
Lemma config_line_round_trip_witness :
  classify_line ("auth_token = s3cr3t" ++ String LF "") = LineAssign "auth_token" "s3cr3t"
  /\ classify_line ("auth_token = " ++ quoted "two words" ++ String LF "")
     = LineAssign "auth_token" "two words".
Proof.
  split.
  - apply (proj1 (config_line_round_trip "auth_token" "s3cr3t" eq_refl)). reflexivity.
  - apply (proj2 (config_line_round_trip "auth_token" "two words" eq_refl)). reflexivity.
Defined.

Lemma fgets_take_line : forall line room rest,
  string_forall not_lf line = true ->
  (String.length line < room)%nat ->
  fgets_take room (line ++ String LF rest) = (line ++ String LF "", rest).
Proof.
  induction line as [|c line IH]; intros room rest Hlf Hlen.
  - destruct room as [|room]; [cbn in Hlen; lia|]. reflexivity.
  - destruct room as [|room]; [cbn in Hlen; lia|].
    cbn [string_forall] in Hlf. apply andb_true_iff in Hlf. destruct Hlf as [Hc Hlf].
    unfold not_lf in Hc. apply negb_true_iff in Hc.
    cbn [append fgets_take]. rewrite Hc.
    rewrite (IH room rest Hlf) by (cbn in Hlen; lia). reflexivity.
Qed.

(** The reading loop sees a file of short lines line by line. *)
Lemma fgets_rounds_lines : forall lines rounds,
  forallb short_line lines = true ->
  (List.length lines <= rounds)%nat ->
  fgets_rounds rounds MAX_LINE_LENGTH (join_lines lines)
  = map (fun line => line ++ String LF "") lines.
Proof.
  induction lines as [|line lines IH]; intros rounds Hshort Hrounds.
  - destruct rounds; reflexivity.
  - destruct rounds as [|rounds]; [cbn in Hrounds; lia|].
    cbn [forallb] in Hshort. apply andb_true_iff in Hshort.
    destruct Hshort as [Hline Hshort].
    unfold short_line in Hline. apply andb_true_iff in Hline.
    destruct Hline as [Hlf Hlen]. apply Nat.ltb_lt in Hlen.
    cbn [join_lines fold_right map fgets_rounds].
    assert (Hfgets : fgets MAX_LINE_LENGTH (line ++ String LF (join_lines lines))
                     = Some (line ++ String LF "", join_lines lines)).
    { unfold fgets.
      rewrite <- (fgets_take_line line (MAX_LINE_LENGTH - 1) (join_lines lines) Hlf)
        by (unfold MAX_LINE_LENGTH in *; lia).
      destruct line; reflexivity. }
    unfold join_lines in Hfgets |- *. rewrite Hfgets.
    f_equal. apply IH; [exact Hshort|cbn in Hrounds; lia].
Qed.

Lemma join_lines_length : forall lines,
  (List.length lines <= String.length (join_lines lines))%nat.
Proof.
  induction lines as [|line lines IH]; [apply Nat.le_refl|].
  cbn [join_lines fold_right List.length]. fold (join_lines lines).
  rewrite CStrFacts.length_app. cbn [String.length]. lia.
Qed.

Lemma fgets_all_lines : forall lines,
  forallb short_line lines = true ->
  fgets_all MAX_LINE_LENGTH (join_lines lines)
  = map (fun line => line ++ String LF "") lines.
Proof.
  intros lines Hshort. unfold fgets_all.
  apply fgets_rounds_lines; [exact Hshort|apply join_lines_length].
Qed.

Lemma is_word_nonempty : forall v, is_word v = true -> missing_or_empty (Some v) = false.
Proof. intros [|c v] Hv; [discriminate|reflexivity]. Qed.

(** X3. A file that holds the [[controller]] header and the two required
    keys written as bare words loads with [ERR_SUCCESS]; the configuration
    holds the two values as written and the defaults everywhere else. *)
Theorem config_file_round_trip :
  forall path fs url token,
    fs path = Some (render_minimal_config url token) ->
    is_word url = true ->
    is_word token = true ->
    short_line ("url = " ++ url) = true ->
    short_line ("auth_token = " ++ token) = true ->
    config_load (Some path) fs
    = (ERR_SUCCESS,
       Some (mk_config None None (Some url) (Some token) 600 5 60 30 (Some "info"))).
Proof.
  intros path fs url token Hfs Hurl Htoken Hshort_url Hshort_token.
  assert (Hparse : config_parse (render_minimal_config url token)
                   = mk_config None None (Some url) (Some token) 600 5 60 30 (Some "info")).
  { unfold config_parse.
    change (render_minimal_config url token)
      with (join_lines ["[controller]"; "url = " ++ url; "auth_token = " ++ token]).
    rewrite fgets_all_lines
      by (cbn [forallb]; rewrite Hshort_url, Hshort_token; reflexivity).
    cbn [map fold_left].
    unfold config_process_line at 3.
    replace (classify_line ("[controller]" ++ String LF ""))
      with (LineSection "controller") by reflexivity.
    pose proof (classify_written_word "url" url eq_refl Hurl) as Hline_url.
    pose proof (classify_written_word "auth_token" token eq_refl Htoken) as Hline_token.
    cbn [append] in Hline_url, Hline_token |- *.
    unfold config_process_line at 2. rewrite Hline_url.
    unfold config_process_line at 1. rewrite Hline_token.
    reflexivity. }
  rewrite (ConfigFacts.config_load_cases _ _ _ Hfs). rewrite Hparse.
  unfold config_validate. cbn [controller_url auth_token heartbeat_interval_seconds].
  rewrite (is_word_nonempty _ Hurl), (is_word_nonempty _ Htoken). reflexivity.
Qed.

(** X3 at a controller address and a token. *)
Lemma config_file_round_trip_witness :
  config_load (Some "agent.conf")
    (sample_fs (render_minimal_config "https://c.example.org" "s3cr3t"))
  = (ERR_SUCCESS,
     Some (mk_config None None (Some "https://c.example.org") (Some "s3cr3t")
             600 5 60 30 (Some "info"))).
Proof.
  apply (config_file_round_trip "agent.conf"
           (sample_fs (render_minimal_config "https://c.example.org" "s3cr3t"))
           "https://c.example.org" "s3cr3t");
    vm_compute; reflexivity.
Defined.

Lemma config_validate_codes : forall c,
  config_validate c = ERR_SUCCESS \/ config_validate c = ERR_CONFIG_INVALID.
Proof.
  intros [c|]; cbn; [|right; reflexivity].
  destruct (missing_or_empty (controller_url c)); [right; reflexivity|].
  destruct (missing_or_empty (auth_token c)); [right; reflexivity|].
  destruct (heartbeat_interval_seconds c <? 60); [right|left]; reflexivity.
Qed.

Lemma config_validate_success : forall c,
  config_validate (Some c) = ERR_SUCCESS ->
  missing_or_empty (controller_url c) = false
  /\ missing_or_empty (auth_token c) = false
  /\ 60 <= heartbeat_interval_seconds c.
Proof.
  intros c. unfold config_validate.
  destruct (missing_or_empty (controller_url c)); [discriminate|].
  destruct (missing_or_empty (auth_token c)); [discriminate|].
  destruct (Z.ltb_spec (heartbeat_interval_seconds c) 60); [discriminate|].
  intros _. split; [reflexivity|split; [reflexivity|assumption]].
Qed.

Lemma config_load_validated : forall path fs rc c,
  config_load path fs = (rc, Some c) ->
  rc = ERR_SUCCESS /\ config_validate (Some c) = ERR_SUCCESS.
Proof.
  intros path fs rc c. unfold config_load.
  destruct path as [path|]; [|discriminate].
  destruct (fs path) as [content|]; [|discriminate]. cbv zeta.
  destruct (config_validate_codes (Some (config_parse content))) as [Hok|Hbad].
  - rewrite Hok. cbn. intros Hx. inversion Hx; subst. split; [reflexivity|exact Hok].
  - rewrite Hbad. cbn. discriminate.
Qed.

Lemma config_load_success_some : forall path fs,
  fst (config_load path fs) = ERR_SUCCESS -> snd (config_load path fs) <> None.
Proof.
  intros path fs. unfold config_load.
  destruct path as [path|]; [|discriminate].
  destruct (fs path) as [content|]; [|discriminate]. cbv zeta.
  destruct (config_validate_codes (Some (config_parse content))) as [Hok|Hbad].
  - rewrite Hok. cbn. discriminate.
  - rewrite Hbad. cbn. discriminate.
Qed.

(** X4. [config_load] returns one of three codes. It is
    [ERR_CONFIG_MISSING] exactly when there is no path or the file cannot
    be opened; a configuration comes back exactly with [ERR_SUCCESS]; and
    a configuration that comes back has a non-empty controller address and
    token and a heartbeat interval of at least 60. *)
Theorem config_load_outcome :
  forall path fs,
    (fst (config_load path fs) = ERR_SUCCESS
     \/ fst (config_load path fs) = ERR_CONFIG_MISSING
     \/ fst (config_load path fs) = ERR_CONFIG_INVALID)
    /\ (fst (config_load path fs) = ERR_CONFIG_MISSING <-> unreadable path fs = true)
    /\ (fst (config_load path fs) = ERR_SUCCESS <-> snd (config_load path fs) <> None)
    /\ (forall c, snd (config_load path fs) = Some c ->
          config_validate (Some c) = ERR_SUCCESS
          /\ missing_or_empty (controller_url c) = false
          /\ missing_or_empty (auth_token c) = false
          /\ 60 <= heartbeat_interval_seconds c).
Proof.
  intros path fs. unfold config_load, unreadable.
  assert (Hmissing : forall P : agent_config_t -> Prop,
             (ERR_CONFIG_MISSING = ERR_SUCCESS
              \/ ERR_CONFIG_MISSING = ERR_CONFIG_MISSING
              \/ ERR_CONFIG_MISSING = ERR_CONFIG_INVALID)
             /\ (ERR_CONFIG_MISSING = ERR_CONFIG_MISSING <-> true = true)
             /\ (ERR_CONFIG_MISSING = ERR_SUCCESS <-> @None agent_config_t <> None)
             /\ (forall c, None = Some c -> P c)).
  { intros P. split; [right; left; reflexivity|].
    split; [split; reflexivity|].
    split; [split; [discriminate|congruence]|discriminate]. }
  destruct path as [path|]; [|apply Hmissing].
  destruct (fs path) as [content|]; [|apply Hmissing].
  cbv zeta.
  destruct (config_validate_codes (Some (config_parse content))) as [Hok|Hbad].
  - rewrite Hok. cbn [Z.eqb negb fst snd ERR_SUCCESS].
    split; [left; reflexivity|].
    split; [split; discriminate|].
    split; [split; [discriminate|reflexivity]|].
    intros c Hc. inversion Hc; subst.
    split; [exact Hok|apply config_validate_success; exact Hok].
  - rewrite Hbad. cbn.
    split; [right; right; reflexivity|].
    split; [split; discriminate|].
    split; [split; [discriminate|congruence]|discriminate].
Qed.

(** X4 at a complete file and at a missing one. *)
Lemma config_load_outcome_witness :
  (config_validate (Some loaded_config) = ERR_SUCCESS
   /\ missing_or_empty (controller_url loaded_config) = false
   /\ missing_or_empty (auth_token loaded_config) = false
   /\ 60 <= heartbeat_interval_seconds loaded_config)
  /\ fst (config_load (Some "agent.conf") (fun _ => None)) = ERR_CONFIG_MISSING.
Proof.
  split.
  - apply (proj2 (proj2 (proj2 (config_load_outcome (Some "agent.conf")
                                  (sample_fs conf_with_unknown_keys))))
             loaded_config).
    vm_compute. reflexivity.
  - apply (proj2 (proj1 (proj2 (config_load_outcome (Some "agent.conf")
                                  (fun _ => None))))).
    reflexivity.
Defined.

Lemma assign_agent_id : forall sec k v c,
  agent_id (config_assign sec k v c)
  = if strcmp_eq sec "agent" && strcmp_eq k "agent_id" then Some v else agent_id c.
Proof. intros. unfold config_assign. ConfigFacts.case_strcmp. Qed.

Lemma assign_hostname : forall sec k v c,
  hostname (config_assign sec k v c)
  = if strcmp_eq sec "agent" && strcmp_eq k "hostname" then Some v else hostname c.
Proof. intros. unfold config_assign. ConfigFacts.case_strcmp. Qed.

Lemma assign_retry_attempts : forall sec k v c,
  retry_attempts (config_assign sec k v c)
  = if strcmp_eq sec "retry" && strcmp_eq k "attempts"
    then atoi v else retry_attempts c.
Proof. intros. unfold config_assign. ConfigFacts.case_strcmp. Qed.

Lemma assign_retry_delay : forall sec k v c,
  retry_delay_seconds (config_assign sec k v c)
  = if strcmp_eq sec "retry" && strcmp_eq k "delay_in_seconds"
    then atoi v else retry_delay_seconds c.
Proof. intros. unfold config_assign. ConfigFacts.case_strcmp. Qed.

Lemma assign_max_jitter : forall sec k v c,
  max_jitter_seconds (config_assign sec k v c)
  = if strcmp_eq sec "retry" && strcmp_eq k "max_jitter_in_seconds"
    then atoi v else max_jitter_seconds c.
Proof. intros. unfold config_assign. ConfigFacts.case_strcmp. Qed.

Lemma assign_log_level : forall sec k v c,
  log_level (config_assign sec k v c)
  = if strcmp_eq sec "logging" && strcmp_eq k "level" then Some v else log_level c.
Proof. intros. unfold config_assign. ConfigFacts.case_strcmp. Qed.

Lemma config_eta : forall c,
  c = mk_config (agent_id c) (hostname c) (controller_url c) (auth_token c)
        (heartbeat_interval_seconds c) (retry_attempts c) (retry_delay_seconds c)
        (max_jitter_seconds c) (log_level c).
Proof. intros []; reflexivity. Qed.

(** X5. What the parsing loop produces is determined key by key: every
    field holds the value of the last line that assigns its key under its
    section, numbers being read by [atoi], and its default when the file
    has no such line. *)
Theorem config_parse_by_key :
  forall content,
    config_parse content
    = mk_config
        (file_value "agent" "agent_id" content)
        (file_value "agent" "hostname" content)
        (file_value "controller" "url" content)
        (file_value "controller" "auth_token" content)
        (numeric_option "heartbeat" "interval_in_seconds" content 600)
        (numeric_option "retry" "attempts" content 5)
        (numeric_option "retry" "delay_in_seconds" content 60)
        (numeric_option "retry" "max_jitter_in_seconds" content 30)
        (match file_value "logging" "level" content with
         | Some level => Some level
         | None => Some "info"
         end).
Proof.
  intros content. rewrite (config_eta (config_parse content)) at 1.
  rewrite ConfigFacts.parse_controller_url, ConfigFacts.parse_auth_token,
    ConfigFacts.parse_heartbeat_interval.
  unfold numeric_option, file_value, config_parse.
  rewrite (ConfigFacts.field_of_fold agent_id Some "agent" "agent_id" assign_agent_id).
  rewrite (ConfigFacts.field_of_fold hostname Some "agent" "hostname" assign_hostname).
  rewrite (ConfigFacts.field_of_fold retry_attempts atoi "retry" "attempts"
             assign_retry_attempts).
  rewrite (ConfigFacts.field_of_fold retry_delay_seconds atoi "retry" "delay_in_seconds"
             assign_retry_delay).
  rewrite (ConfigFacts.field_of_fold max_jitter_seconds atoi "retry"
             "max_jitter_in_seconds" assign_max_jitter).
  rewrite (ConfigFacts.field_of_fold log_level Some "logging" "level" assign_log_level).
  cbn [current_section parsed config_defaults agent_id hostname retry_attempts
       retry_delay_seconds max_jitter_seconds log_level].
  f_equal;
    match goal with
    | |- context [last_assigned ?s ?k ?l ?c ?a] =>
        destruct (last_assigned s k l c a); reflexivity
    end.
Qed.

End ConfigMore.

(* ===================================================================== *)
(** ** Theorems: config.c on whole documents *)
(* ===================================================================== *)

Module ConfigFileFacts.
Import CStr Config ConfigSpec ConfigShape ConfigDoc Samples ConfigMore.

(** *** How [classify_line] reads the lines of a document *)

Lemma classify_comment_line : forall mark text,
  (Ascii.eqb mark "#"%char || Ascii.eqb mark ";"%char) = true ->
  classify_line (String mark text ++ String LF "") = LineSkip.
Proof.
  intros mark text Hmark. unfold classify_line. cbn [append c_str].
  assert (Hfacts : Ascii.eqb mark NUL = false /\ is_blank mark = false).
  { apply orb_true_iff in Hmark.
    destruct Hmark as [Hm|Hm]; apply Ascii.eqb_eq in Hm; subst; split; reflexivity. }
  destruct Hfacts as [Hnul Hblank]. rewrite Hnul.
  unfold trim_whitespace. rewrite (skip_while_stop _ _ _ Hblank).
  rewrite Hmark. reflexivity.
Qed.

Lemma classify_section_line : forall name,
  string_forall section_char name = true ->
  (String.length name <= 63)%nat ->
  classify_line (("[" ++ name ++ "]") ++ String LF "") = LineSection name.
Proof.
  intros name Hname Hlen. unfold classify_line.
  assert (Hnul : string_forall not_nul name = true).
  { eapply string_forall_impl; [|exact Hname].
    intros a Ha. unfold section_char in Ha. apply andb_true_iff in Ha. tauto. }
  assert (Hclose : string_forall (fun a => negb (Ascii.eqb a "]"%char)) name = true).
  { eapply string_forall_impl; [|exact Hname].
    intros a Ha. unfold section_char in Ha. apply andb_true_iff in Ha. tauto. }
  rewrite c_str_no_nul.
  2: { cbn [append string_forall]. rewrite !string_forall_app. rewrite Hnul. reflexivity. }
  assert (Htrim : trim_whitespace (String "["%char ((name ++ "]") ++ String LF ""))
                  = String "["%char (name ++ "]")).
  { unfold trim_whitespace. rewrite skip_while_stop by reflexivity. f_equal.
    rewrite strip_trailing_cuts by reflexivity.
    apply (strip_trailing_keeps name "]"%char "" eq_refl). }
  cbn [append] in Htrim |- *. rewrite Htrim.
  cbn [Ascii.eqb Bool.eqb orb andb].
  change (String "]"%char "") with (String "]"%char EmptyString).
  rewrite (strchr_first name "]"%char "" Hclose).
  rewrite CStrFacts.substring_all by exact Hlen. reflexivity.
Qed.

Lemma classify_rendered : forall l,
  line_ok l = true ->
  classify_line (render_line l ++ String LF "") = line_reading l.
Proof.
  intros [|mark text|name|key value in_quotes] Hok; cbn [render_line line_reading].
  - reflexivity.
  - apply classify_comment_line. exact Hok.
  - cbn [line_ok] in Hok. apply andb_true_iff in Hok. destruct Hok as [Hname Hlen].
    apply Nat.leb_le in Hlen. apply classify_section_line; assumption.
  - cbn [line_ok] in Hok. apply andb_true_iff in Hok. destruct Hok as [Hkey Hvalue].
    rewrite !append_assoc. destruct in_quotes.
    + apply classify_written_quoted; assumption.
    + apply classify_written_word; assumption.
Qed.

(** *** How the reading loop cuts a document into buffers *)

Lemma fgets_rounds_enough : forall n m size s,
  (2 <= size)%nat ->
  (String.length s <= n)%nat -> (String.length s <= m)%nat ->
  fgets_rounds n size s = fgets_rounds m size s.
Proof.
  induction n as [|n IH]; intros m size s Hsize Hn Hm.
  - destruct s; [|cbn in Hn; lia]. destruct m; reflexivity.
  - destruct s as [|c s]; [destruct m; reflexivity|].
    destruct m as [|m]; [cbn in Hm; lia|].
    cbn [fgets_rounds fgets].
    destruct (fgets_take (size - 1) (String c s)) as [line rest] eqn:E.
    destruct (size - 1)%nat as [|room] eqn:Hroom; [lia|].
    pose proof (CStrFacts.fgets_take_progress _ _ _ _ _ E) as Hlt.
    f_equal. apply IH; [assumption | cbn in *; lia | cbn in *; lia].
Qed.

(** A line that fits the buffer is taken whole, whatever follows it. *)
Lemma fgets_all_line : forall line rest,
  short_line line = true ->
  fgets_all MAX_LINE_LENGTH (line ++ String LF rest)
  = (line ++ String LF "") :: fgets_all MAX_LINE_LENGTH rest.
Proof.
  intros line rest Hline. unfold short_line in Hline.
  apply andb_true_iff in Hline. destruct Hline as [Hlf Hlen]. apply Nat.ltb_lt in Hlen.
  assert (Hfgets : fgets MAX_LINE_LENGTH (line ++ String LF rest)
                   = Some (line ++ String LF "", rest)).
  { unfold fgets.
    rewrite <- (fgets_take_line line (MAX_LINE_LENGTH - 1) rest Hlf)
      by (unfold MAX_LINE_LENGTH in *; lia).
    destruct line; reflexivity. }
  unfold fgets_all. rewrite CStrFacts.length_app. cbn [String.length].
  rewrite Nat.add_succ_r. cbn [fgets_rounds]. rewrite Hfgets. f_equal.
  apply fgets_rounds_enough; unfold MAX_LINE_LENGTH; lia.
Qed.

Lemma fgets_all_rendered : forall doc rest,
  forallb fits_buffer doc = true ->
  fgets_all MAX_LINE_LENGTH (render_then doc rest)
  = List.app (map (fun l => render_line l ++ String LF "") doc)
      (fgets_all MAX_LINE_LENGTH rest).
Proof.
  induction doc as [|l doc IH]; intros rest Hfit; [reflexivity|].
  cbn [forallb] in Hfit. apply andb_true_iff in Hfit. destruct Hfit as [Hl Hfit].
  cbn [render_then fold_right map List.app]. fold (render_then doc rest).
  rewrite (fgets_all_line _ _ Hl), (IH rest Hfit). reflexivity.
Qed.

Lemma well_formed_parts : forall doc,
  well_formed doc = true ->
  forallb line_ok doc = true /\ forallb fits_buffer doc = true.
Proof.
  induction doc as [|l doc IH]; intros Hwf; [split; reflexivity|].
  unfold well_formed in Hwf. cbn [forallb] in Hwf |- *.
  apply andb_true_iff in Hwf. destruct Hwf as [Hl Hwf].
  apply andb_true_iff in Hl. destruct Hl as [Hok Hfit].
  destruct (IH Hwf) as [Hoks Hfits]. rewrite Hok, Hfit, Hoks, Hfits. split; reflexivity.
Qed.

Lemma well_formed_app : forall pre post,
  well_formed (pre ++ post) = true ->
  well_formed pre = true /\ well_formed post = true.
Proof.
  intros pre post Hwf. unfold well_formed in *.
  rewrite forallb_app in Hwf. apply andb_true_iff in Hwf. exact Hwf.
Qed.

Lemma render_then_app : forall pre post rest,
  render_then (pre ++ post) rest = render_then pre (render_then post rest).
Proof. intros pre post rest. unfold render_then. apply fold_right_app. Qed.

(** *** The loop on the lines of a document *)

Lemma section_of_rendered : forall doc st,
  forallb line_ok doc = true ->
  current_section
    (fold_left config_process_line
       (map (fun l => render_line l ++ String LF "") doc) st)
  = section_after doc (current_section st).
Proof.
  induction doc as [|l doc IH]; intros st Hok; [reflexivity|].
  cbn [forallb] in Hok. apply andb_true_iff in Hok. destruct Hok as [Hl Hok].
  cbn [map fold_left]. rewrite (IH _ Hok). unfold config_process_line.
  rewrite (classify_rendered l Hl).
  destruct l; reflexivity.
Qed.

Lemma last_assigned_rendered : forall section key doc cur acc,
  forallb line_ok doc = true ->
  last_assigned section key (map (fun l => render_line l ++ String LF "") doc) cur acc
  = assigned_value section key doc cur acc.
Proof.
  intros section key. induction doc as [|l doc IH]; intros cur acc Hok; [reflexivity|].
  cbn [forallb] in Hok. apply andb_true_iff in Hok. destruct Hok as [Hl Hok].
  cbn [map last_assigned]. rewrite (classify_rendered l Hl).
  destruct l; cbn [line_reading assigned_value]; try (apply IH; exact Hok).
  unfold strcmp_eq.
  destruct (String.eqb cur section && String.eqb key0 key); apply IH; exact Hok.
Qed.

(** The reading loop finds in a well-formed document the values the
    document gives. *)
Lemma file_value_document : forall section key doc,
  well_formed doc = true ->
  file_value section key (render_document doc) = document_value section key doc.
Proof.
  intros section key doc Hwf. destruct (well_formed_parts doc Hwf) as [Hok Hfit].
  unfold file_value, render_document, document_value.
  rewrite (fgets_all_rendered doc "" Hfit). cbn [fgets_all String.length fgets_rounds].
  rewrite app_nil_r. apply last_assigned_rendered. exact Hok.
Qed.

(** *** The required keys and unknown keys, on documents *)

(** C1, at a file the claim covers and the code accepts. The document
    [conf_overlong] is written by the rules of the format and gives no
    value to [url]: it has a [[controller]] header and one line, which
    sets [auth_token] between quotes and is longer than the line buffer.
    [config_load] reads that line in two pieces, takes the second piece
    for the assignment of an address, and returns [ERR_SUCCESS] with a
    configuration whose address is the end of the token. *)
Theorem config_load_accepts_file_without_url :
  forallb line_ok conf_overlong = true
  /\ document_value "controller" "url" conf_overlong = None
  /\ document_value "controller" "auth_token" conf_overlong = Some overlong_token
  /\ config_load (Some "agent.conf") (sample_fs (render_document conf_overlong))
     = (ERR_SUCCESS,
        Some (mk_config None None
                (Some ("https://evil.example.org" ++ String DQ ""))
                (Some (repeat_char "A" 1009))
                600 5 60 30 (Some "info"))).
Proof. repeat split; vm_compute; reflexivity. Qed.

(** C2, as the code has it. In a file whose lines so far are written by
    the rules of the format and fit the line buffer, a [key = value] line
    that fits the buffer too and whose key is not an option of the section
    it stands in is skipped: [config_load] returns for the file what it
    returns for the file without that line, whatever text follows. *)
Theorem config_load_skips_unknown_key :
  forall path fs fs' pre key value in_quotes rest,
    well_formed (pre ++ [AssignLine key value in_quotes]) = true ->
    recognized (section_after pre "") key = false ->
    fs path = Some (render_then (pre ++ [AssignLine key value in_quotes]) rest) ->
    fs' path = Some (render_then pre rest) ->
    config_load (Some path) fs = config_load (Some path) fs'.
Proof.
  intros path fs fs' pre key value in_quotes rest Hwf Hrec Hfs Hfs'.
  destruct (well_formed_app _ _ Hwf) as [Hpre Hline].
  destruct (well_formed_parts _ Hpre) as [Hok Hfit].
  destruct (well_formed_parts _ Hline) as [Hok1 Hfit1].
  cbn [forallb] in Hok1, Hfit1. rewrite andb_true_r in Hok1, Hfit1.
  assert (Hparse :
            config_parse (render_then (pre ++ [AssignLine key value in_quotes]) rest)
            = config_parse (render_then pre rest)).
  { unfold config_parse. rewrite render_then_app.
    rewrite !(fgets_all_rendered pre _ Hfit).
    cbn [render_then fold_right]. rewrite (fgets_all_line _ _ Hfit1).
    f_equal.
    apply (ConfigFacts.unknown_key_line_skipped _ _ _ key value).
    - exact (classify_rendered _ Hok1).
    - rewrite (section_of_rendered pre _ Hok). exact Hrec. }
  rewrite (ConfigFacts.config_load_cases _ _ _ Hfs).
  rewrite (ConfigFacts.config_load_cases _ _ _ Hfs').
  rewrite Hparse. reflexivity.
Qed.

(** C2 at a line [bogus_option = 1] under [[controller]], followed by a
    section the agent does not know. *)
Lemma config_load_skips_unknown_key_witness :
  config_load (Some "agent.conf")
    (sample_fs (render_then (conf_bogus_prefix ++ [AssignLine "bogus_option" "1" false])
                  ("[nonsense]" ++ String LF ("foo = bar" ++ String LF ""))))
  = config_load (Some "agent.conf")
      (sample_fs (render_then conf_bogus_prefix
                    ("[nonsense]" ++ String LF ("foo = bar" ++ String LF "")))).
Proof.
  apply (config_load_skips_unknown_key "agent.conf" _ _
           conf_bogus_prefix "bogus_option" "1" false
           ("[nonsense]" ++ String LF ("foo = bar" ++ String LF ""))).
  - vm_compute. reflexivity.
  - vm_compute. reflexivity.
  - reflexivity.
  - reflexivity.
Defined.

(** X27. For a file whose lines are all written by the rules of the
    format and fit the line buffer: when the document gives no [url] or no
    [auth_token] under [[controller]], or an empty one, [config_load]
    returns [ERR_CONFIG_INVALID] and no configuration; and a configuration
    it does produce holds the two values of the document, never a
    default. *)
Theorem config_load_document_keys :
  forall path fs doc,
    well_formed doc = true ->
    fs path = Some (render_document doc) ->
    ((document_lacks "controller" "url" doc
      \/ document_lacks "controller" "auth_token" doc) ->
     config_load (Some path) fs = (ERR_CONFIG_INVALID, None))
    /\ (forall rc cfg,
          config_load (Some path) fs = (rc, Some cfg) ->
          rc = ERR_SUCCESS
          /\ controller_url cfg = document_value "controller" "url" doc
          /\ auth_token cfg = document_value "controller" "auth_token" doc
          /\ ~ document_lacks "controller" "url" doc
          /\ ~ document_lacks "controller" "auth_token" doc).
Proof.
  intros path fs doc Hwf Hfs.
  destruct (ConfigFacts.config_load_by_file_value path fs _ Hfs) as [Hlack Hgot].
  unfold key_missing_or_empty in Hlack, Hgot.
  rewrite !(file_value_document _ _ doc Hwf) in Hlack, Hgot.
  split; [exact Hlack|].
  intros rc cfg Hload. destruct (Hgot rc cfg Hload) as (Hurl & Htok & Hnurl & Hntok).
  destruct (config_load_validated _ _ _ _ Hload) as [Hrc _].
  repeat split; assumption.
Qed.

(** X27 at a document without [auth_token], and at a complete one. *)
Lemma config_load_document_keys_witness :
  config_load (Some "agent.conf")
    (sample_fs (render_document [SectionLine "controller";
                                 AssignLine "url" "https://c.example.org" false]))
  = (ERR_CONFIG_INVALID, None)
  /\ (ERR_SUCCESS = ERR_SUCCESS
      /\ controller_url loaded_config
         = document_value "controller" "url" conf_bogus_prefix
      /\ auth_token loaded_config
         = document_value "controller" "auth_token" conf_bogus_prefix
      /\ ~ document_lacks "controller" "url" conf_bogus_prefix
      /\ ~ document_lacks "controller" "auth_token" conf_bogus_prefix).
Proof.
  split.
  - apply (proj1 (config_load_document_keys "agent.conf" _
                    [SectionLine "controller";
                     AssignLine "url" "https://c.example.org" false]
                    eq_refl eq_refl)).
    right. left. reflexivity.
  - apply (proj2 (config_load_document_keys "agent.conf"
                    (sample_fs (render_document conf_bogus_prefix))
                    conf_bogus_prefix eq_refl eq_refl)
             ERR_SUCCESS loaded_config).
    vm_compute. reflexivity.
Defined.

End ConfigFileFacts.

(* ===================================================================== *)
(** ** More about http_client.c *)
(* ===================================================================== *)

Module HttpFacts.
Import CStr Config ConfigShape RunShape.

Lemma prefix_split : forall a s, String.prefix a s = true -> exists t, s = a ++ t.
Proof.
  induction a as [|c a IH]; intros s Hp.
  - exists s. reflexivity.
  - destruct s as [|d s]; [discriminate|]. cbn in Hp.
    destruct (Ascii.ascii_dec c d) as [Heq|Hne]; [|discriminate].
    subst d. destruct (IH s Hp) as [t Ht]. exists t. cbn. rewrite <- Ht. reflexivity.
Qed.

Lemma prefix_app : forall a t, String.prefix a (a ++ t) = true.
Proof.
  induction a as [|c a IH]; intros t; [destruct t; reflexivity|].
  cbn. destruct (Ascii.ascii_dec c c) as [_|Hne]; [apply IH|congruence].
Qed.

(** [strstr] stops at the first occurrence. *)
Lemma strstr_spec : forall hay needle suffix,
  strstr hay needle = Some suffix ->
  exists pre t,
    hay = pre ++ suffix /\ suffix = needle ++ t /\ first_at needle pre hay.
Proof.
  induction hay as [|c hay IH]; intros needle suffix Hs; cbn [strstr] in Hs.
  - destruct (starts_with needle "") eqn:Hp; [|discriminate].
    inversion Hs; subst. destruct (prefix_split _ _ Hp) as [t Ht].
    exists "", t. split; [reflexivity|]. split; [exact Ht|].
    intros p q _. cbn. lia.
  - destruct (starts_with needle (String c hay)) eqn:Hp.
    + inversion Hs; subst. destruct (prefix_split _ _ Hp) as [t Ht].
      exists "", t. split; [reflexivity|]. split; [exact Ht|].
      intros p q _. cbn. lia.
    + destruct (IH needle suffix Hs) as (pre & t & Hhay & Hsuf & Hfirst).
      exists (String c pre), t.
      split; [cbn; rewrite <- Hhay; reflexivity|]. split; [exact Hsuf|].
      intros p q Hpq. destruct p as [|d p].
      * cbn [append] in Hpq. unfold starts_with in Hp.
        rewrite Hpq, prefix_app in Hp. discriminate.
      * cbn [append] in Hpq. inversion Hpq; subst d.
        cbn [String.length]. apply le_n_S. apply (Hfirst p q). assumption.
Qed.

Lemma strchr_skip : forall q c t,
  string_forall (fun a => negb (Ascii.eqb a c)) q = true ->
  strchr (q ++ t) c
  = match strchr t c with
    | Some (before, after) => Some (q ++ before, after)
    | None => None
    end.
Proof.
  induction q as [|a q IH]; intros c t Hq; cbn [append].
  - destruct (strchr t c) as [[b r]|]; reflexivity.
  - cbn [string_forall] in Hq. apply andb_true_iff in Hq. destruct Hq as [Ha Hq].
    apply negb_true_iff in Ha. cbn [strchr]. rewrite Ha, (IH c t Hq).
    destruct (strchr t c) as [[b r]|]; reflexivity.
Qed.

Lemma strchr_before : forall s c before after,
  strchr s c = Some (before, after) ->
  string_forall (fun a => negb (Ascii.eqb a c)) before = true.
Proof.
  induction s as [|a s IH]; intros c before after Hs; cbn in Hs; [discriminate|].
  destruct (Ascii.eqb a c) eqn:Ha.
  - inversion Hs; subst. reflexivity.
  - destruct (strchr s c) as [[b r]|] eqn:E; [|discriminate].
    inversion Hs; subst. cbn. rewrite Ha. cbn. exact (IH c b after E).
Qed.

Lemma skip_while_split : forall p s,
  exists skipped, s = skipped ++ skip_while p s /\ string_forall p skipped = true.
Proof.
  induction s as [|c s IH].
  - exists "". split; reflexivity.
  - cbn [skip_while]. destruct (p c) eqn:Hc.
    + destruct IH as (skipped & Hs & Hp). exists (String c skipped). split.
      * cbn. rewrite <- Hs. reflexivity.
      * cbn. rewrite Hc. exact Hp.
    + exists "". split; reflexivity.
Qed.

Lemma search_key_exact : forall key,
  (String.length key <=? 253)%nat = true ->
  snprintf 256 (quoted key) = quoted key.
Proof.
  intros key Hlen. apply Nat.leb_le in Hlen. unfold snprintf.
  apply CStrFacts.substring_all. unfold quoted. cbn [String.length].
  rewrite CStrFacts.length_app. cbn [String.length]. lia.
Qed.

Lemma quoted_no_colon : forall key,
  string_forall not_colon key = true ->
  string_forall (fun a => negb (Ascii.eqb a ":"%char)) (quoted key) = true.
Proof.
  intros key Hkey. unfold quoted. cbn [string_forall].
  rewrite ConfigMore.string_forall_app. cbn. rewrite andb_true_r. exact Hkey.
Qed.

(** What follows the colon is where the value is read: the first
    occurrence of the quoted key comes first, and no other colon stands in
    between. *)
Lemma json_after_colon_spec : forall body key after,
  (String.length key <=? 253)%nat = true ->
  string_forall not_colon key = true ->
  json_after_colon body key = Some after ->
  json_first_colon body key after.
Proof.
  intros body key after Hlen Hkey Hafter. unfold json_after_colon in Hafter.
  cbv zeta in Hafter. rewrite (search_key_exact key Hlen) in Hafter.
  destruct (strstr body (quoted key)) as [key_pos|] eqn:Hstr; [|discriminate].
  destruct (strstr_spec _ _ _ Hstr) as (pre & t & Hbody & Hpos & Hfirst).
  subst key_pos. rewrite (strchr_skip _ _ t (quoted_no_colon key Hkey)) in Hafter.
  destruct (strchr t ":"%char) as [[between rest]|] eqn:Hchr; [|discriminate].
  inversion Hafter; subst rest.
  exists pre, between. split; [|split].
  - rewrite Hbody. f_equal. f_equal. apply (CStrFacts.strchr_app _ _ _ _ Hchr).
  - exact Hfirst.
  - exact (strchr_before _ _ _ _ Hchr).
Qed.

Lemma json_first_member_weaken : forall body key literal,
  json_first_member body key literal -> json_member body key literal.
Proof.
  intros body key literal (after & blanks & rest & Hcolon & Hafter & Hblanks).
  destruct Hcolon as (pre & between & Hbody & _ & Hbetween).
  exists pre, between, blanks, rest. subst after. repeat split; assumption.
Qed.

Lemma json_first_values :
  forall body key,
    (String.length key <=? 253)%nat = true ->
    string_forall not_colon key = true ->
    (forall b, http_parse_json_bool body key = Some b ->
               json_first_member body key (if b then "true" else "false"))
    /\ (forall v, http_parse_json_string body key = Some v ->
                  json_first_member body key (quoted v)
                  /\ string_forall not_dq v = true)
    /\ (forall n, http_parse_json_int body key = Some n ->
                  exists after, json_first_colon body key after /\ n = atoi after).
Proof.
  intros body key Hlen Hkey. split; [|split].
  - intros b Hb. unfold http_parse_json_bool in Hb.
    destruct (json_after_colon body key) as [after|] eqn:Hafter; [|discriminate].
    pose proof (json_after_colon_spec _ _ _ Hlen Hkey Hafter) as Hcolon.
    destruct (skip_while_split is_blank after) as (blanks & Hsplit & Hblanks).
    cbv zeta in Hb.
    destruct (starts_with "true" (skip_while is_blank after)) eqn:Htrue.
    + inversion Hb; subst b. destruct (prefix_split _ _ Htrue) as [rest Hrest].
      exists after, blanks, rest. split; [exact Hcolon|]. split; [|exact Hblanks].
      rewrite Hsplit at 1. rewrite Hrest. reflexivity.
    + destruct (starts_with "false" (skip_while is_blank after)) eqn:Hfalse;
        [|discriminate].
      inversion Hb; subst b. destruct (prefix_split _ _ Hfalse) as [rest Hrest].
      exists after, blanks, rest. split; [exact Hcolon|]. split; [|exact Hblanks].
      rewrite Hsplit at 1. rewrite Hrest. reflexivity.
  - intros v Hv. unfold http_parse_json_string in Hv.
    destruct (json_after_colon body key) as [after|] eqn:Hafter; [|discriminate].
    pose proof (json_after_colon_spec _ _ _ Hlen Hkey Hafter) as Hcolon.
    destruct (skip_while_split is_blank after) as (blanks & Hsplit & Hblanks).
    destruct (skip_while is_blank after) as [|c value_start]; [discriminate|].
    destruct (Ascii.eqb_spec c DQ) as [Hc|Hc]; [|discriminate]. subst c.
    destruct (strchr value_start DQ) as [[value rest]|] eqn:Hchr; [|discriminate].
    inversion Hv; subst value. split.
    + exists after, blanks, rest. split; [exact Hcolon|]. split; [|exact Hblanks].
      rewrite Hsplit at 1. rewrite (CStrFacts.strchr_app _ _ _ _ Hchr).
      unfold quoted. cbn [append]. rewrite ConfigMore.append_assoc. reflexivity.
    + exact (strchr_before _ _ _ _ Hchr).
  - intros n Hn. unfold http_parse_json_int in Hn.
    destruct (json_after_colon body key) as [after|] eqn:Hafter; [|discriminate].
    pose proof (json_after_colon_spec _ _ _ Hlen Hkey Hafter) as Hcolon.
    inversion Hn; subst n. exists after. split; [exact Hcolon|reflexivity].
Qed.

Lemma json_values_written :
  forall body key,
    (String.length key <=? 253)%nat = true ->
    string_forall not_colon key = true ->
    (forall b, http_parse_json_bool body key = Some b ->
               json_member body key (if b then "true" else "false"))
    /\ (forall v, http_parse_json_string body key = Some v ->
                  json_member body key (quoted v)
                  /\ string_forall not_dq v = true)
    /\ (forall n, http_parse_json_int body key = Some n ->
                  exists pre between after,
                    body = pre ++ quoted key ++ between ++ ":" ++ after
                    /\ string_forall not_colon between = true
                    /\ n = atoi after).
Proof.
  intros body key Hlen Hkey.
  destruct (json_first_values body key Hlen Hkey) as (Hbool & Hstring & Hint).
  split; [|split].
  - intros b Hb. apply json_first_member_weaken. exact (Hbool b Hb).
  - intros v Hv. destruct (Hstring v Hv) as [Hm Hdq].
    split; [apply json_first_member_weaken; exact Hm|exact Hdq].
  - intros n Hn. destruct (Hint n Hn) as (after & Hcolon & Hval).
    destruct Hcolon as (pre & between & Hbody & _ & Hbetween).
    exists pre, between, after. repeat split; assumption.
Qed.

(** X6. For a key of at most 253 characters without a colon, the value
    the JSON helpers return is written in the body: the quoted key occurs
    in the body, and after its first occurrence and the first colon that
    follows it come blanks or tabs and then, for [http_parse_json_bool],
    the literal [true] or [false] that is returned and, for
    [http_parse_json_string], the returned text between quotes, itself
    without a quote; [http_parse_json_int] returns [atoi] of what follows
    that colon. *)
Theorem json_value_is_written :
  forall body key,
    (String.length key <=? 253)%nat = true ->
    string_forall not_colon key = true ->
    (forall b, http_parse_json_bool body key = Some b ->
               json_first_member body key (if b then "true" else "false"))
    /\ (forall v, http_parse_json_string body key = Some v ->
                  json_first_member body key (quoted v)
                  /\ string_forall not_dq v = true)
    /\ (forall n, http_parse_json_int body key = Some n ->
                  exists after, json_first_colon body key after /\ n = atoi after).
Proof. exact json_first_values. Qed.

(** X6 at a reply that names the key twice: the first occurrence
    counts. *)
Lemma json_value_is_written_witness :
  json_first_member
    ("{" ++ quoted "authorized" ++ ": true, " ++ quoted "authorized" ++ ": false}")
    "authorized" "true".
Proof.
  apply (proj1 (json_value_is_written
                  ("{" ++ quoted "authorized" ++ ": true, "
                   ++ quoted "authorized" ++ ": false}")
                  "authorized" eq_refl eq_refl) true).
  vm_compute. reflexivity.
Defined.

End HttpFacts.

(* ===================================================================== *)
(** ** More about heartbeat.c *)
(* ===================================================================== *)

Module HeartbeatMore.
Import MonadFacts AgentSpec RunShape Samples.

(** The flag [heartbeat_send] reads from a reply; the response comes from
    [calloc], so a flag that is not found is off. *)
Lemma heartbeat_send_cases : forall ctx w,
  let r := heartbeat_send ctx w in
  (hb_code r <> ERR_SUCCESS ->
   hb_context r = ctx /\ hb_response r = None
   /\ (hb_code r = ERR_AUTH_FAILED \/ hb_code r = ERR_SERVER_ERROR
       \/ hb_code r = ERR_NETWORK_UNREACHABLE))
  /\ (hb_code r = ERR_SUCCESS ->
      exists body rest,
        http_replies w = HttpReply 200 body :: rest
        /\ hb_context r
           = set_authorized
               (match http_parse_json_bool (CStr.c_str body) "authorized" with
                | Some b => b
                | None => false
                end) (clock w) ctx
        /\ hb_response r <> None)
  /\ (forall reply, In reply (http_replies (world_of r)) -> In reply (http_replies w)).
Proof.
  intros ctx w. cbv zeta. unfold heartbeat_send.
  destruct (utils_build_url (controller_url (config ctx)) (Some HEARTBEAT_PATH))
    as [url|].
  2: { cbn. split; [intros _; auto|]. split; [discriminate|auto]. }
  unfold http_post, bind, emit, curl_easy_perform, hb_code, hb_response, hb_context,
    result_of, world_of, trace_of.
  cbn -[heartbeat_body http_parse_json_bool http_parse_json_int http_parse_json_string].
  destruct (http_replies w) as [|[msg|st bd] rest] eqn:Hrep;
    cbn -[heartbeat_body http_parse_json_bool http_parse_json_int http_parse_json_string].
  - split; [intros _; auto|]. split; [discriminate|]. rewrite Hrep. auto.
  - split; [intros _; auto|]. split; [discriminate|]. intros reply Hin. right. exact Hin.
  - destruct (Z.eqb_spec st 401) as [H401|H401];
      cbn -[heartbeat_body http_parse_json_bool http_parse_json_int
            http_parse_json_string].
    + split; [intros _; auto|]. split; [discriminate|].
      intros reply Hin. right. exact Hin.
    + destruct (Z.eqb_spec st 200) as [H200|H200];
        cbn -[heartbeat_body http_parse_json_bool http_parse_json_int
              http_parse_json_string].
      * split; [intros Hne; contradiction Hne; reflexivity|]. split.
        -- intros _. exists bd, rest. subst st.
           split; [reflexivity|]. split; [reflexivity|discriminate].
        -- intros reply Hin. right. exact Hin.
      * split; [intros _; auto|]. split; [discriminate|].
        intros reply Hin. right. exact Hin.
Qed.

Lemma heartbeat_retry_wait_replies : forall ctx attempt w,
  http_replies (world_of (heartbeat_retry_wait ctx attempt w)) = http_replies w.
Proof.
  intros ctx attempt w. unfold heartbeat_retry_wait.
  destruct (attempt <? retry_attempts (config ctx)); [|reflexivity].
  unfold utils_get_random_jitter_ms.
  destruct (CStr.wrap_int (max_jitter_seconds (config ctx) * 1000) <=? 0).
  - cbn. reflexivity.
  - unfold rand, bind, ret, utils_sleep, emit.
    destruct (rand_values w) as [|r rest];
      cbn -[Z.rem Z.quot Z.mul Z.pow Z.modulo Z.shiftl CStr.wrap_int].
    + reflexivity.
    + destruct (0 <? Z.rem (Z.of_N r)
                       (CStr.wrap_int (max_jitter_seconds (config ctx) * 1000)));
        reflexivity.
Qed.

Lemma retry_loop_outcome : forall rounds attempt ctx w,
  let r := heartbeat_retry_loop rounds attempt ctx w in
  (hb_code r = ERR_SUCCESS \/ hb_code r = ERR_AUTH_FAILED
   \/ hb_code r = ERR_NETWORK_UNREACHABLE)
  /\ (hb_code r = ERR_SUCCESS ->
      retry_count (hb_context r) = 0 /\ hb_response r <> None)
  /\ (hb_code r = ERR_AUTH_FAILED -> hb_context r = ctx)
  /\ (hb_code r = ERR_NETWORK_UNREACHABLE ->
      hb_context r = set_retry_count (retry_count ctx + 1) ctx)
  /\ (hb_code r <> ERR_SUCCESS -> hb_response r = None).
Proof.
  induction rounds as [|rounds IH]; intros attempt ctx w; cbv zeta.
  - cbn. split; [auto|]. split; [discriminate|]. split; [discriminate|]. auto.
  - rewrite HeartbeatFacts.retry_loop_step. cbv zeta.
    destruct (heartbeat_send_cases ctx w) as (Hfail & Hok & _). cbv zeta in Hfail, Hok.
    specialize (IH (attempt + 1) (hb_context (heartbeat_send ctx w))
                  (world_of (heartbeat_retry_wait (hb_context (heartbeat_send ctx w))
                               attempt (world_of (heartbeat_send ctx w))))).
    cbv zeta in IH.
    destruct (Z.eqb_spec (hb_code (heartbeat_send ctx w)) ERR_SUCCESS) as [Hs|Hs].
    + destruct (Hok Hs) as (body & rest & _ & _ & Hresp).
      unfold hb_code, hb_response, hb_context in *.
      cbn [result_of world_of trace_of fst snd retry_count set_retry_count].
      split; [auto|]. split; [auto|]. split; [discriminate|].
      split; [discriminate|]. intros Hne. contradiction Hne. reflexivity.
    + destruct (Hfail Hs) as (Hctx & Hresp & Hcodes).
      destruct (Z.eqb_spec (hb_code (heartbeat_send ctx w)) ERR_AUTH_FAILED) as [Ha|Ha].
      * unfold hb_code, hb_response, hb_context in *.
        cbn [result_of world_of trace_of fst snd].
        split; [auto|]. split; [intros Hx; rewrite Hx in Ha; discriminate|].
        split; [auto|]. split; [intros Hx; rewrite Hx in Ha; discriminate|]. auto.
      * rewrite Hctx in IH |- *.
        unfold hb_code, hb_response, hb_context in *.
        cbn [result_of world_of trace_of fst snd]. exact IH.
Qed.

(** X7. [heartbeat_send_with_retry] ends with [ERR_SUCCESS],
    [ERR_AUTH_FAILED] or [ERR_NETWORK_UNREACHABLE]; the server error of a
    single attempt never comes out. On success the retry count is reset
    and a response is handed over; an authentication failure leaves the
    context as it was; when the attempts are used up, the context differs
    only by a retry count one higher; and no response is handed over
    without success. *)
Theorem heartbeat_retry_outcome :
  forall ctx w,
    let r := heartbeat_send_with_retry ctx w in
    (hb_code r = ERR_SUCCESS \/ hb_code r = ERR_AUTH_FAILED
     \/ hb_code r = ERR_NETWORK_UNREACHABLE)
    /\ (hb_code r = ERR_SUCCESS ->
        retry_count (hb_context r) = 0 /\ hb_response r <> None)
    /\ (hb_code r = ERR_AUTH_FAILED -> hb_context r = ctx)
    /\ (hb_code r = ERR_NETWORK_UNREACHABLE ->
        hb_context r = set_retry_count (retry_count ctx + 1) ctx)
    /\ (hb_code r <> ERR_SUCCESS -> hb_response r = None).
Proof. intros ctx w. apply retry_loop_outcome. Qed.

(** X7 at a controller that answers at the third attempt. *)
Lemma heartbeat_retry_outcome_witness :
  retry_count
    (hb_context (heartbeat_send_with_retry sample_context
                   (sample_world [TransportError "timeout"; HttpReply 503 "busy";
                                  heartbeat_reply "true" "false"]))) = 0
  /\ hb_response (heartbeat_send_with_retry sample_context
                    (sample_world [TransportError "timeout"; HttpReply 503 "busy";
                                   heartbeat_reply "true" "false"])) <> None.
Proof.
  apply (proj1 (proj2 (heartbeat_retry_outcome sample_context
                         (sample_world [TransportError "timeout"; HttpReply 503 "busy";
                                        heartbeat_reply "true" "false"])))).
  vm_compute. reflexivity.
Defined.

Lemma retry_loop_authorized : forall rounds attempt ctx w,
  let r := heartbeat_retry_loop rounds attempt ctx w in
  hb_code r = ERR_SUCCESS ->
  authorized (hb_context r) = true ->
  exists body,
    In (HttpReply 200 body) (http_replies w)
    /\ http_parse_json_bool (CStr.c_str body) "authorized" = Some true.
Proof.
  induction rounds as [|rounds IH]; intros attempt ctx w; cbv zeta.
  - cbn. discriminate.
  - rewrite HeartbeatFacts.retry_loop_step. cbv zeta.
    destruct (heartbeat_send_cases ctx w) as (Hfail & Hok & Hreplies).
    cbv zeta in Hfail, Hok, Hreplies.
    specialize (IH (attempt + 1) (hb_context (heartbeat_send ctx w))
                  (world_of (heartbeat_retry_wait (hb_context (heartbeat_send ctx w))
                               attempt (world_of (heartbeat_send ctx w))))).
    cbv zeta in IH. rewrite heartbeat_retry_wait_replies in IH.
    destruct (Z.eqb_spec (hb_code (heartbeat_send ctx w)) ERR_SUCCESS) as [Hs|Hs].
    + destruct (Hok Hs) as (body & rest & Hw & Hctx & _).
      unfold hb_code, hb_response, hb_context in *.
      cbn [result_of world_of trace_of fst snd]. intros _.
      rewrite Hctx. cbn [authorized set_retry_count set_authorized]. intros Hauth.
      exists body. split; [rewrite Hw; left; reflexivity|].
      destruct (http_parse_json_bool (CStr.c_str body) "authorized") as [[|]|];
        [reflexivity|discriminate|discriminate].
    + destruct (Z.eqb_spec (hb_code (heartbeat_send ctx w)) ERR_AUTH_FAILED) as [Ha|Ha].
      * unfold hb_code, hb_response, hb_context in *.
        cbn [result_of world_of trace_of fst snd]. intros Hx. congruence.
      * unfold hb_code, hb_response, hb_context in *.
        cbn [result_of world_of trace_of fst snd]. intros Hc Hauth.
        destruct (IH Hc Hauth) as (body & Hin & Hflag).
        exists body. split; [apply Hreplies; exact Hin|exact Hflag].
Qed.

(** X8. A heartbeat leaves the agent authorized only on the word of the
    controller: when [heartbeat_send_with_retry] succeeds and the context
    is authorized, one of the replies was an HTTP 200 whose body holds the
    key [authorized] followed by a colon and the literal [true]. *)
Theorem authorization_needs_reply :
  forall ctx w,
    let r := heartbeat_send_with_retry ctx w in
    hb_code r = ERR_SUCCESS ->
    authorized (hb_context r) = true ->
    exists body,
      In (HttpReply 200 body) (http_replies w)
      /\ json_member (CStr.c_str body) "authorized" "true".
Proof.
  intros ctx w r Hcode Hauth.
  destruct (retry_loop_authorized _ _ _ _ Hcode Hauth) as (body & Hin & Hflag).
  exists body. split; [exact Hin|].
  exact (proj1 (HttpFacts.json_values_written (CStr.c_str body) "authorized"
                  eq_refl eq_refl) true Hflag).
Qed.

(** X8 at an agent that the first reply authorizes. *)
Lemma authorization_needs_reply_witness :
  exists body,
    In (HttpReply 200 body) [heartbeat_reply "true" "false"]
    /\ json_member (CStr.c_str body) "authorized" "true".
Proof.
  apply (authorization_needs_reply sample_context
           (sample_world [heartbeat_reply "true" "false"]));
    vm_compute; reflexivity.
Defined.

Lemma total_sleep_app : forall t1 t2,
  total_sleep (t1 ++ t2) = total_sleep t1 + total_sleep t2.
Proof.
  induction t1 as [|e t1 IH]; intros t2; unfold total_sleep in *;
    cbn [app fold_right]; [lia|rewrite IH; lia].
Qed.

Lemma heartbeat_send_no_sleep : forall ctx w,
  total_sleep (trace_of (heartbeat_send ctx w)) = 0.
Proof.
  intros ctx w. destruct (heartbeat_url ctx) as [url|] eqn:Hurl.
  - destruct (HeartbeatFacts.heartbeat_send_url ctx w url Hurl) as [[headers Ht] _].
    rewrite Ht. reflexivity.
  - rewrite (HeartbeatFacts.heartbeat_send_no_url ctx w Hurl). reflexivity.
Qed.

(** What is left of the budget from [attempt] on. *)
Lemma backoff_wait_sleep : forall c attempt r waits,
  0 <= retry_delay_seconds c ->
  0 <= max_jitter_seconds c ->
  1 <= attempt ->
  backoff_wait c attempt r waits ->
  0 <= total_sleep waits
  /\ total_sleep waits
     <= if attempt <? retry_attempts c
        then retry_delay_seconds c * 2 ^ (attempt - 1) + max_jitter_seconds c
        else 0.
Proof.
  intros c attempt r waits Hd Hj Ha Hwait. unfold backoff_wait in Hwait.
  assert (Hpow : 0 < 2 ^ (attempt - 1)) by (apply Z.pow_pos_nonneg; lia).
  destruct (attempt <? retry_attempts c).
  - destruct Hwait as [Hw Hjit]. subst waits.
    destruct (0 <? jitter_ms c r); unfold total_sleep;
      cbn [fold_right sleep_seconds]; nia.
  - subst waits. cbn. lia.
Qed.

Lemma retry_spec_sleep : forall attempt ctx w code trace,
  retry_spec attempt ctx w code trace ->
  0 <= retry_delay_seconds (config ctx) ->
  0 <= max_jitter_seconds (config ctx) ->
  1 <= attempt ->
  0 <= total_sleep trace
  /\ total_sleep trace
     <= if attempt <? retry_attempts (config ctx)
        then retry_delay_seconds (config ctx)
             * (2 ^ (retry_attempts (config ctx) - 1) - 2 ^ (attempt - 1))
             + (retry_attempts (config ctx) - attempt) * max_jitter_seconds (config ctx)
        else 0.
Proof.
  intros attempt ctx w code trace Hspec.
  induction Hspec as [attempt ctx w Hlt
                     |attempt ctx w response ctx1 w1 t Hle Hsend
                     |attempt ctx w response ctx1 w1 t Hle Hsend
                     |attempt ctx w code response ctx1 w1 t waits w2 result rest
                        Hle Hsend Hnok Hnauth Hwait Hreplies Hrand Hspec IH];
    intros Hd Hj Ha.
  - cbn. destruct (Z.ltb_spec attempt (retry_attempts (config ctx))); lia.
  - pose proof (heartbeat_send_no_sleep ctx w) as Hzero. rewrite Hsend in Hzero.
    cbn [trace_of snd] in Hzero. rewrite Hzero.
    assert (Hp1 : 0 < 2 ^ (attempt - 1)) by (apply Z.pow_pos_nonneg; lia).
    destruct (Z.ltb_spec attempt (retry_attempts (config ctx))) as [Hlt|Hge]; [|lia].
    assert (Hp2 : 2 ^ (attempt - 1) <= 2 ^ (retry_attempts (config ctx) - 1))
      by (apply Z.pow_le_mono_r; lia).
    nia.
  - pose proof (heartbeat_send_no_sleep ctx w) as Hzero. rewrite Hsend in Hzero.
    cbn [trace_of snd] in Hzero. rewrite Hzero.
    assert (Hp1 : 0 < 2 ^ (attempt - 1)) by (apply Z.pow_pos_nonneg; lia).
    destruct (Z.ltb_spec attempt (retry_attempts (config ctx))) as [Hlt|Hge]; [|lia].
    assert (Hp2 : 2 ^ (attempt - 1) <= 2 ^ (retry_attempts (config ctx) - 1))
      by (apply Z.pow_le_mono_r; lia).
    nia.
  - pose proof (heartbeat_send_no_sleep ctx w) as Hzero.
    pose proof (HeartbeatFacts.heartbeat_send_config ctx w) as Hcfg.
    rewrite Hsend in Hzero, Hcfg. unfold hb_context in Hcfg.
    cbn [result_of trace_of fst snd] in Hzero, Hcfg.
    rewrite Hcfg in IH. specialize (IH Hd Hj ltac:(lia)).
    destruct (backoff_wait_sleep _ _ _ _ Hd Hj Ha Hwait) as [Hw0 Hw1].
    rewrite !total_sleep_app, Hzero.
    assert (Hp : 2 ^ (attempt + 1 - 1) = 2 * 2 ^ (attempt - 1)).
    { replace (attempt + 1 - 1) with (Z.succ (attempt - 1)) by lia.
      apply Z.pow_succ_r. lia. }
    rewrite Hp in IH.
    assert (Hp1 : 0 < 2 ^ (attempt - 1)) by (apply Z.pow_pos_nonneg; lia).
    destruct (Z.ltb_spec attempt (retry_attempts (config ctx))) as [Hlt|Hge].
    + destruct (Z.ltb_spec (attempt + 1) (retry_attempts (config ctx))) as [Hlt'|Hge'].
      * nia.
      * assert (Hlast : retry_attempts (config ctx) - 1 = Z.succ (attempt - 1)) by lia.
        rewrite Hlast, Z.pow_succ_r by lia. nia.
    + destruct (Z.ltb_spec (attempt + 1) (retry_attempts (config ctx))); lia.
Qed.

(** X9. However the controller answers, one call of
    [heartbeat_send_with_retry] sleeps no longer than the sum of the
    doubled delays between the attempts plus the largest jitter after each:
    [delay * (2 ^ (attempts - 1) - 1) + (attempts - 1) * max_jitter]
    seconds. The hypotheses keep the C [int] arithmetic exact. *)
Theorem heartbeat_retry_sleep_bound :
  forall ctx w,
    1 <= retry_attempts (config ctx) <= 32 ->
    0 <= retry_delay_seconds (config ctx) ->
    retry_delay_seconds (config ctx) * 2 ^ (retry_attempts (config ctx) - 2)
      <= CStr.INT_MAX ->
    0 <= max_jitter_seconds (config ctx) <= 2147483 ->
    0 <= total_sleep (trace_of (heartbeat_send_with_retry ctx w))
      <= backoff_budget (config ctx).
Proof.
  intros ctx w Hattempts Hdelay Hrange Hjitter.
  assert (Hspec : retry_spec 1 ctx w
                    (hb_code (heartbeat_send_with_retry ctx w))
                    (trace_of (heartbeat_send_with_retry ctx w))).
  { unfold heartbeat_send_with_retry.
    apply (HeartbeatFacts.retry_loop_refines (config ctx));
      try assumption; try reflexivity; lia. }
  destruct (retry_spec_sleep _ _ _ _ _ Hspec Hdelay ltac:(lia) ltac:(lia)) as [H0 H1].
  split; [exact H0|]. unfold backoff_budget.
  change (2 ^ (1 - 1)) with 1 in H1.
  destruct (Z.ltb_spec 1 (retry_attempts (config ctx))) as [Hlt|Hge]; [lia|].
  assert (Hone : retry_attempts (config ctx) = 1) by lia.
  rewrite Hone. cbn. lia.
Qed.

(** X9 at the default policy: at most 60 + 120 + 240 + 480 seconds of
    delay and 4 * 30 seconds of jitter. *)
Lemma heartbeat_retry_sleep_bound_witness :
  0 <= total_sleep
         (trace_of (heartbeat_send_with_retry sample_context
                      (sample_world [TransportError "timeout"; HttpReply 503 "busy"])))
    <= 1020.
Proof.
  apply (heartbeat_retry_sleep_bound sample_context
           (sample_world [TransportError "timeout"; HttpReply 503 "busy"])).
  - split; vm_compute; discriminate.
  - vm_compute. discriminate.
  - vm_compute. discriminate.
  - split; vm_compute; discriminate.
Defined.

End HeartbeatMore.

(* ===================================================================== *)
(** ** More about nasl_executor.c *)
(* ===================================================================== *)

Module NaslMore.
Import MonadFacts AgentSpec RunShape Samples.

Lemma substring_length : forall n s, (String.length (String.substring 0 n s) <= n)%nat.
Proof.
  induction n as [|n IH]; intros s.
  - destruct s; cbn; lia.
  - destruct s as [|c s]; cbn; [lia|]. specialize (IH s). lia.
Qed.

(** [description] never outgrows its 1024 bytes. *)
Lemma scan_nasl_output_length : forall lines found text,
  (String.length text <= 1023)%nat ->
  (String.length (snd (scan_nasl_output lines found text)) <= 1023)%nat.
Proof.
  induction lines as [|buf lines IH]; intros found text Hlen; cbn [scan_nasl_output].
  - exact Hlen.
  - cbv zeta. destruct (is_vulnerability_line (CStr.c_str buf)); [|apply IH; exact Hlen].
    apply IH. unfold CStr.strncat. rewrite CStrFacts.length_app.
    pose proof (substring_length (1024 - String.length text - 1) (CStr.c_str buf)).
    lia.
Qed.

Lemma create_scan_result_finding : forall oid name sev tgt port text,
  text <> "" -> (String.length text <= 1023)%nat ->
  finding_of tgt (create_scan_result oid name sev (Some tgt) port (Some text)).
Proof.
  intros oid name sev tgt port text Hne Hlen. unfold finding_of, create_scan_result.
  cbn [host qod description]. split; [reflexivity|]. split; [reflexivity|].
  exists text. auto.
Qed.

(** One script gives at most one finding, and runs without a pause. *)
Lemma run_script_findings : forall nvt tgt w,
  let r := nasl_executor_run_script nvt (Some tgt) w in
  (List.length
     (match snd (result_of r) with
      | Some sr => firstn (Z.to_nat (result_count sr)) (results sr)
      | None => []
      end) <= 1)%nat
  /\ Forall (finding_of tgt) (results_of_scan (snd (result_of r)))
  /\ total_sleep (trace_of r) = 0.
Proof.
  intros nvt tgt w. cbv zeta. unfold nasl_executor_run_script.
  destruct nvt as [nvt|]; [|cbn; repeat split; [lia|constructor]].
  unfold bind, nasl_executor_has_openvas_nasl, popen.
  destruct (g_has_openvas_nasl w).
  - destruct (popen_outputs w) as [|[output|] rest];
      try (cbn; repeat split; [lia|constructor]).
    cbn -[scan_nasl_output CStr.fgets_all create_scan_result CStr.snprintf].
    pose proof (scan_nasl_output_length (CStr.fgets_all 512 output) false ""
                  ltac:(cbn; lia)) as Hlen.
    destruct (scan_nasl_output (CStr.fgets_all 512 output) false "") as [found descr].
    cbn [snd] in Hlen.
    destruct found; cbn -[create_scan_result CStr.snprintf];
      [|repeat split; [lia|constructor]].
    split; [rewrite List.length_firstn; apply Nat.le_min_r|]. split; [|reflexivity].
    constructor; [|constructor].
    apply create_scan_result_finding.
    + destruct descr; discriminate.
    + destruct descr; [cbn; lia|exact Hlen].
  - destruct (PrimFloat.ltb 0 (cvss_base nvt)); cbn -[create_scan_result];
      [|repeat split; [lia|constructor]].
    split; [rewrite List.length_firstn; apply Nat.le_min_r|]. split; [|reflexivity].
    constructor; [|constructor].
    apply create_scan_result_finding; [discriminate|cbn; lia].
Qed.

Lemma utils_sleep_run : forall n w,
  utils_sleep n w = (tt, with_clock (clock w + n mod 4294967296) w, [EvSleep n]).
Proof. intros n w. reflexivity. Qed.

Lemma run_scan_loop_findings : forall oids i oid_count tgt preferences acc w,
  Forall (finding_of tgt) acc ->
  let r := run_scan_loop oids i oid_count (Some tgt) preferences acc w in
  (List.length (result_of r) <= List.length acc + List.length oids)%nat
  /\ Forall (finding_of tgt) (result_of r)
  /\ 0 <= total_sleep (trace_of r) <= Z.max 0 (oid_count - 1 - i).
Proof.
  induction oids as [|oid oids IH]; intros i oid_count tgt preferences acc w Hacc;
    cbv zeta.
  - cbn. split; [lia|]. split; [exact Hacc|lia].
  - cbn [run_scan_loop]. rewrite bind_run.
    unfold nvt_feed_lookup_by_oid. cbn [result_of world_of trace_of fst snd app].
    destruct (nvt_cache w oid) as [nvt|]; cbn [result_of world_of trace_of fst snd].
    2: { destruct (IH (i + 1) oid_count tgt preferences acc w Hacc) as (Hl & Hf & Hs).
         cbn [List.length]. split; [lia|]. split; [exact Hf|lia]. }
    rewrite bind_run. cbn [result_of world_of trace_of fst snd].
    destruct (run_script_findings (Some nvt) tgt w) as (Hone & Hfind & Hquiet).
    unfold result_of, world_of, trace_of in Hone, Hfind, Hquiet |- *.
    destruct (nasl_executor_run_script (Some nvt) (Some tgt) w) as [[[rc sr] w1] t1].
    cbn [fst snd] in Hone, Hfind, Hquiet |- *.
    rewrite bind_run. cbn [result_of world_of trace_of fst snd].
    set (acc' := match sr with
                 | Some sr0 =>
                     if rc =? ERR_SUCCESS
                     then (acc ++ firstn (Z.to_nat (result_count sr0)) (results sr0))%list
                     else acc
                 | None => acc
                 end).
    assert (Hacc' : Forall (finding_of tgt) acc'
                    /\ (List.length acc' <= List.length acc + 1)%nat).
    { subst acc'. destruct sr as [sr|]; [|split; [exact Hacc|lia]].
      destruct (rc =? ERR_SUCCESS); [|split; [exact Hacc|lia]]. split.
      - apply Forall_app. split; [exact Hacc|].
        apply NaslFacts.Forall_firstn. exact Hfind.
      - rewrite List.length_app. lia. }
    destruct Hacc' as [Hfacc Hlacc].
    set (pause := match preferences with
                  | Some _ => if i <? oid_count - 1 then utils_sleep 1 else ret tt
                  | None => ret tt
                  end).
    assert (Hpause : 0 <= total_sleep (trace_of (pause w1))
                     /\ total_sleep (trace_of (pause w1))
                        <= (if i <? oid_count - 1 then 1 else 0)).
    { subst pause. destruct preferences as [prefs|].
      - destruct (i <? oid_count - 1); cbn; lia.
      - destruct (i <? oid_count - 1); cbn; lia. }
    destruct (IH (i + 1) oid_count tgt preferences acc' (world_of (pause w1)) Hfacc)
      as (Hl & Hf & Hs).
    rewrite !HeartbeatMore.total_sleep_app, Hquiet.
    cbn [List.length]. split; [lia|]. split; [exact Hf|].
    destruct (Z.ltb_spec i (oid_count - 1)); lia.
Qed.

(** X10. A scan of [oid_count] scripts always succeeds and hands over
    [result_count] findings, at most one per script and so never more than
    the [oid_count] entries allocated for them; every finding is about the
    target and has a description within its buffer; and the pauses
    between scripts add up to at most [oid_count - 1] seconds. *)
Theorem scan_findings_bounded :
  forall oids oid_count tgt preferences w,
    0 < oid_count ->
    exists all,
      result_of (nasl_executor_run_scan (Some oids) oid_count (Some tgt) preferences w)
      = (ERR_SUCCESS, Some (mk_scan_result_list all (Z.of_nat (List.length all))))
      /\ Z.of_nat (List.length all) <= oid_count
      /\ Forall (finding_of tgt) all
      /\ 0 <= total_sleep
                (trace_of (nasl_executor_run_scan (Some oids) oid_count (Some tgt)
                             preferences w))
           <= oid_count - 1.
Proof.
  intros oids oid_count tgt preferences w Hpos. unfold nasl_executor_run_scan.
  destruct (Z.eqb_spec oid_count 0) as [Hz|_]; [lia|].
  rewrite bind_run. cbn [result_of world_of trace_of fst snd ret].
  destruct (run_scan_loop_findings (firstn (Z.to_nat oid_count) oids) 0 oid_count tgt
              preferences [] w (Forall_nil _)) as (Hl & Hf & Hs).
  eexists. split; [reflexivity|].
  rewrite app_nil_r.
  pose proof (firstn_le_length (Z.to_nat oid_count) oids) as Hfirstn.
  cbn [List.length] in Hl.
  split; [lia|]. split; [exact Hf|lia].
Qed.

(** X10 at the two test scripts on a host where the first one raises an
    alarm. *)
Lemma scan_findings_bounded_witness :
  exists all,
    result_of (nasl_executor_run_scan (Some TEST_OIDS) 2 (Some "localhost")
                 (Some (mk_scan_preferences 4 20 60)) feed_world)
    = (ERR_SUCCESS, Some (mk_scan_result_list all (Z.of_nat (List.length all))))
    /\ Z.of_nat (List.length all) <= 2
    /\ Forall (finding_of "localhost") all
    /\ 0 <= total_sleep
              (trace_of (nasl_executor_run_scan (Some TEST_OIDS) 2 (Some "localhost")
                           (Some (mk_scan_preferences 4 20 60)) feed_world))
         <= 2 - 1.
Proof.
  apply (scan_findings_bounded TEST_OIDS 2 "localhost"
           (Some (mk_scan_preferences 4 20 60)) feed_world).
  reflexivity.
Defined.

(** That scan: two scripts are run, one finding is handed over, and the
    pause between the scripts takes one second. *)
Example scan_findings_sample :
  let r := nasl_executor_run_scan (Some TEST_OIDS) 2 (Some "localhost")
             (Some (mk_scan_preferences 4 20 60)) feed_world in
  option_map result_count (snd (result_of r)) = Some 1
  /\ option_map (fun l => map description (results l)) (snd (result_of r))
     = Some [Some ("ALARM: weak key exchange" ++ String CStr.LF "")]
  /\ trace_of r
     = [ EvPopen ("openvas-nasl -t localhost " ++ CStr.quoted "ssh_check.nasl" ++ " 2>&1");
         EvSleep 1;
         EvPopen ("openvas-nasl -t localhost " ++ CStr.quoted "ssh_check.nasl" ++ " 2>&1") ]
  /\ total_sleep (trace_of r) = 1.
Proof. vm_compute. repeat split; reflexivity. Qed.

Lemma basic_check_run : forall tgt pn oid name port text found w,
  (String.length text <= 1023)%nat -> text <> "" ->
  Forall (fun x => finding_of tgt x /\ threat x = Some "Low") found ->
  let r := basic_check tgt pn oid name port text found w in
  let status := match system_statuses w with [] => 127 | st :: _ => st end in
  (exists command, trace_of r = [EvSystem command])
  /\ system_statuses (world_of r) = tl (system_statuses w)
  /\ List.length (result_of r)
     = (List.length found + if (status =? 0)%Z then 1 else 0)%nat
  /\ Forall (fun x => finding_of tgt x /\ threat x = Some "Low") (result_of r).
Proof.
  intros tgt pn oid name port text found w Hlen Hne Hfound. cbv zeta.
  unfold basic_check, bind, system.
  destruct (system_statuses w) as [|st rest] eqn:Hst.
  - cbn -[create_scan_result CStr.snprintf].
    split; [eexists; reflexivity|]. split; [exact Hst|]. split; [lia|exact Hfound].
  - cbn -[create_scan_result CStr.snprintf Z.eqb].
    destruct (st =? 0); cbn -[create_scan_result CStr.snprintf].
    + split; [eexists; reflexivity|]. split; [reflexivity|].
      split; [rewrite List.length_app; cbn; lia|].
      apply Forall_app. split; [exact Hfound|].
      constructor; [|constructor]. split.
      * apply create_scan_result_finding; assumption.
      * reflexivity.
    + split; [eexists; reflexivity|]. split; [reflexivity|]. split; [lia|exact Hfound].
Qed.

(** X11. The built-in checks always run exactly three commands, one per
    port, and succeed; there is one finding per command that exits with
    status 0, each about the target and of threat [Low]. *)
Theorem basic_checks_three_probes :
  forall tgt w,
    let r := nasl_executor_run_basic_checks (Some tgt) w in
    exists c1 c2 c3 all,
      trace_of r = [EvSystem c1; EvSystem c2; EvSystem c3]
      /\ result_of r
         = (ERR_SUCCESS, Some (mk_scan_result_list all (Z.of_nat (List.length all))))
      /\ List.length all
         = List.length
             (filter (Z.eqb 0) (firstn 3 (system_statuses w ++ [127; 127; 127])))
      /\ Forall (fun x => finding_of tgt x /\ threat x = Some "Low") all.
Proof.
  intros tgt w. cbv zeta. unfold nasl_executor_run_basic_checks.
  rewrite !bind_run. cbn [result_of world_of trace_of fst snd ret].
  set (b1 := basic_check tgt "22" _ _ _ _ [] w).
  destruct (basic_check_run tgt "22" "1.3.6.1.4.1.25623.1.0.900001"
              "SSH Service Detection" "22/tcp" "SSH service is running on port 22"
              [] w ltac:(cbn; lia) ltac:(discriminate) (Forall_nil _))
    as ([c1 Ht1] & Hw1 & Hl1 & Hf1).
  fold b1 in Ht1, Hw1, Hl1, Hf1.
  set (b2 := basic_check tgt "80" _ _ _ _ (result_of b1) (world_of b1)).
  destruct (basic_check_run tgt "80" "1.3.6.1.4.1.25623.1.0.900002"
              "HTTP Service Detection" "80/tcp" "HTTP service is running on port 80"
              (result_of b1) (world_of b1) ltac:(cbn; lia) ltac:(discriminate) Hf1)
    as ([c2 Ht2] & Hw2 & Hl2 & Hf2).
  fold b2 in Ht2, Hw2, Hl2, Hf2.
  set (b3 := basic_check tgt "443" _ _ _ _ (result_of b2) (world_of b2)).
  destruct (basic_check_run tgt "443" "1.3.6.1.4.1.25623.1.0.900003"
              "HTTPS Service Detection" "443/tcp" "HTTPS service is running on port 443"
              (result_of b2) (world_of b2) ltac:(cbn; lia) ltac:(discriminate) Hf2)
    as ([c3 Ht3] & Hw3 & Hl3 & Hf3).
  fold b3 in Ht3, Hw3, Hl3, Hf3.
  exists c1, c2, c3, (result_of b3).
  split; [rewrite Ht1, Ht2, Ht3; reflexivity|].
  split; [reflexivity|]. split; [|exact Hf3].
  rewrite Hl3, Hl2, Hl1, Hw2, Hw1.
  destruct (system_statuses w) as [|s1 [|s2 [|s3 rest]]]; cbn [tl app firstn filter];
    repeat match goal with
           | |- context [?s =? 0] => destruct (Z.eqb_spec s 0); subst
           | |- context [0 =? ?s] => destruct (Z.eqb_spec 0 s); subst
           end; cbn; try reflexivity; try lia; try congruence.
Qed.

End NaslMore.

(* ===================================================================== *)
(** ** More about job_processor.c and agent.c *)
(* ===================================================================== *)

Module AgentMore.
Import MonadFacts AgentSpec RunShape Samples.

Lemma build_url_some : forall b p, exists u, utils_build_url (Some b) (Some p) = Some u.
Proof. intros b p. unfold utils_build_url. eexists. reflexivity. Qed.

Lemma count_posts_local : forall t, Forall local_event t -> count_posts t = 0%nat.
Proof.
  induction t as [|e t IH]; intros Ht; [reflexivity|].
  inversion Ht; subst. destruct e; try contradiction;
    unfold count_posts in *; cbn; apply IH; assumption.
Qed.

(** [job_submit_results] with all its arguments and a controller
    address. *)
Lemma job_submit_results_run : forall ctx jid sid json w base,
  controller_url (config ctx) = Some base ->
  let r := job_submit_results ctx (Some jid) (Some sid) (Some json) w in
  (result_of r = ERR_SUCCESS <-> exists body rest, http_replies w = HttpReply 202 body :: rest)
  /\ (result_of r = ERR_AUTH_FAILED
      <-> exists body rest, http_replies w = HttpReply 401 body :: rest)
  /\ (result_of r = ERR_SUCCESS \/ result_of r = ERR_AUTH_FAILED
      \/ result_of r = ERR_SERVER_ERROR \/ result_of r = ERR_NETWORK_UNREACHABLE)
  /\ (exists url,
        utils_build_url (Some base) (Some (results_path jid)) = Some url
        /\ trace_of r
           = [EvHttpPost url
                ("Content-Type: application/json"
                 :: bearer_header (auth_token (config ctx))) json])
  /\ http_replies (world_of r) = tl (http_replies w).
Proof.
  intros ctx jid sid json w base Hbase. cbv zeta. unfold job_submit_results.
  rewrite Hbase.
  destruct (build_url_some base (results_path jid)) as [url Hurl]. rewrite Hurl.
  unfold http_post, bind, emit, curl_easy_perform, result_of, world_of, trace_of.
  destruct (http_replies w) as [|[msg|st bd] rest] eqn:Hrep; cbn -[Z.eqb bearer_header].
  - split; [split; [discriminate|intros (b & r & Hx); discriminate]|].
    split; [split; [discriminate|intros (b & r & Hx); discriminate]|].
    split; [auto|]. split; [eauto|]. rewrite Hrep. reflexivity.
  - split; [split; [discriminate|intros (b & r & Hx); discriminate]|].
    split; [split; [discriminate|intros (b & r & Hx); discriminate]|].
    split; [auto|]. split; [eauto|]. reflexivity.
  - destruct (Z.eqb_spec st 401) as [H401|H401]; cbn -[Z.eqb bearer_header].
    + subst st.
      split; [split; [discriminate|intros (b & r & Hx); discriminate]|].
      split; [split; [eauto|reflexivity]|].
      split; [auto|]. split; [eauto|]. reflexivity.
    + destruct (Z.eqb_spec st 202) as [H202|H202]; cbn -[bearer_header].
      * subst st.
        split; [split; [eauto|reflexivity]|].
        split; [split; [discriminate|intros (b & r & Hx); discriminate]|].
        split; [auto|]. split; [eauto|]. reflexivity.
      * split; [split; [discriminate|intros (b & r & Hx); congruence]|].
        split; [split; [discriminate|intros (b & r & Hx); congruence]|].
        split; [auto|]. split; [eauto|]. reflexivity.
Qed.

(** The header that carries a token short enough for its buffer. *)
Lemma bearer_header_exact : forall token,
  (String.length token <= 489)%nat ->
  bearer_header (Some token) = ["Authorization: Bearer " ++ token].
Proof.
  intros token Hlen. unfold bearer_header, CStr.snprintf.
  rewrite CStrFacts.substring_all; [reflexivity|].
  rewrite CStrFacts.length_app. cbn. lia.
Qed.

Ltac reply_cases :=
  intros;
  repeat match goal with
         | H : exists _, _ |- _ => destruct H
         | H : _ /\ _ |- _ => destruct H
         | H : _ \/ _ |- _ => destruct H
         end;
  try discriminate; try congruence.

(** X12. With a job id of at most 483 characters, a scan id, a document,
    a controller address and a token of at most 489 characters,
    [job_submit_results] sends the document as it is in one POST to
    [/api/v1/agents/jobs/{id}/results] under the address, with the headers
    [Content-Type: application/json] and [Authorization: Bearer] followed
    by the token, and takes one reply. It returns [ERR_SUCCESS] exactly
    when that reply is an HTTP 202, [ERR_AUTH_FAILED] exactly on a 401,
    [ERR_SERVER_ERROR] exactly on any other status (a 200 included), and
    [ERR_NETWORK_UNREACHABLE] exactly when no reply comes. *)
Theorem job_submit_results_outcome :
  forall ctx jid sid json w base token,
    controller_url (config ctx) = Some base ->
    auth_token (config ctx) = Some token ->
    (String.length jid <= 483)%nat ->
    (String.length token <= 489)%nat ->
    let r := job_submit_results ctx (Some jid) (Some sid) (Some json) w in
    trace_of r
    = [EvHttpPost (base ++ "/api/v1/agents/jobs/" ++ jid ++ "/results")
         ["Content-Type: application/json"; "Authorization: Bearer " ++ token]
         json]
    /\ http_replies (world_of r) = tl (http_replies w)
    /\ (result_of r = ERR_SUCCESS
        <-> exists body rest, http_replies w = HttpReply 202 body :: rest)
    /\ (result_of r = ERR_AUTH_FAILED
        <-> exists body rest, http_replies w = HttpReply 401 body :: rest)
    /\ (result_of r = ERR_SERVER_ERROR
        <-> exists status body rest,
              http_replies w = HttpReply status body :: rest
              /\ status <> 202 /\ status <> 401)
    /\ (result_of r = ERR_NETWORK_UNREACHABLE
        <-> http_replies w = []
            \/ exists message rest, http_replies w = TransportError message :: rest).
Proof.
  intros ctx jid sid json w base token Hbase Htoken Hjid Htok. cbv zeta.
  assert (Hurl : utils_build_url (controller_url (config ctx)) (Some (results_path jid))
                 = Some (base ++ "/api/v1/agents/jobs/" ++ jid ++ "/results")).
  { rewrite Hbase, (AgentFacts.results_path_exact jid Hjid). cbn [append].
    apply AgentFacts.build_url_absolute. }
  unfold job_submit_results. rewrite Hurl.
  unfold http_post. rewrite Htoken, (bearer_header_exact token Htok).
  unfold bind, emit, curl_easy_perform, result_of, world_of, trace_of.
  destruct (http_replies w) as [|[msg|st bd] rest] eqn:Hrep;
    cbn -[Z.eqb append].
  - split; [reflexivity|]. split; [rewrite Hrep; reflexivity|].
    split; [split; reply_cases|]. split; [split; reply_cases|].
    split; [split; reply_cases|]. split; [left; reflexivity|reflexivity].
  - split; [reflexivity|]. split; [reflexivity|].
    split; [split; reply_cases|]. split; [split; reply_cases|].
    split; [split; reply_cases|]. split; [right; eauto|reflexivity].
  - destruct (Z.eqb_spec st 401) as [H401|H401]; cbn -[Z.eqb append].
    + subst st. split; [reflexivity|]. split; [reflexivity|].
      split; [split; reply_cases|]. split; [split; [eauto|reflexivity]|].
      split; [split; reply_cases|]. split; reply_cases.
    + destruct (Z.eqb_spec st 202) as [H202|H202]; cbn -[append].
      * subst st. split; [reflexivity|]. split; [reflexivity|].
        split; [split; [eauto|reflexivity]|]. split; [split; reply_cases|].
        split; [split; reply_cases|]. split; reply_cases.
      * split; [reflexivity|]. split; [reflexivity|].
        split; [split; reply_cases|]. split; [split; reply_cases|].
        split; [split; [intros _; exists st, bd, rest; auto|reflexivity]|].
        split; reply_cases.
Qed.

(** X12 at a controller that answers 200: one POST with the two headers,
    and a server error. *)
Lemma job_submit_results_outcome_witness :
  trace_of (job_submit_results sample_context (Some "job-12345") (Some "scan-1")
              (Some "{}") (sample_world [HttpReply 200 "{}"]))
  = [EvHttpPost "https://controller.example.org/api/v1/agents/jobs/job-12345/results"
       ["Content-Type: application/json"; "Authorization: Bearer s3cr3t"] "{}"]
  /\ result_of (job_submit_results sample_context (Some "job-12345") (Some "scan-1")
                  (Some "{}") (sample_world [HttpReply 200 "{}"]))
     = ERR_SERVER_ERROR.
Proof.
  pose proof (job_submit_results_outcome sample_context "job-12345" "scan-1" "{}"
                (sample_world [HttpReply 200 "{}"])
                "https://controller.example.org" "s3cr3t"
                eq_refl eq_refl ltac:(cbn; lia) ltac:(cbn; lia))
    as (Htrace & _ & _ & _ & Hserver & _).
  split; [exact Htrace|].
  apply (proj2 Hserver). exists 200, "{}", []. repeat split; discriminate.
Defined.

Section WithLibc.
Context `{LibcFormat}.

(** X13. [job_execute] reads nothing of the job but its two ids: the
    commands it runs and what it takes from the host are the same for any
    two jobs and contexts, and so is the document when the job id, the
    scan id and the agent id agree. *)
Theorem job_execute_ignores_job :
  forall ctx job ctx' job' w,
    trace_of (job_execute ctx job w) = trace_of (job_execute ctx' job' w)
    /\ world_of (job_execute ctx job w) = world_of (job_execute ctx' job' w)
    /\ (job_id job = job_id job' ->
        scan_id job = scan_id job' ->
        agent_id (config ctx) = agent_id (config ctx') ->
        result_of (job_execute ctx job w) = result_of (job_execute ctx' job' w)).
Proof.
  intros ctx job ctx' job' w. unfold job_execute.
  repeat (rewrite bind_run; cbn [result_of world_of trace_of fst snd]).
  match goal with
  | |- context [let (_, _) := ?x in _] => destruct x as [rc scan_results]
  end.
  repeat (rewrite bind_run; cbn [result_of world_of trace_of fst snd]).
  split; [reflexivity|]. split; [reflexivity|].
  intros Hjob Hscan Hagent. rewrite Hjob, Hscan, Hagent. reflexivity.
Qed.

Lemma agent_run_job_posts : forall ctx job w base jid sid,
  controller_url (config ctx) = Some base ->
  job_id job = Some jid -> scan_id job = Some sid ->
  count_posts (trace_of (agent_run_job ctx job w)) = 1%nat
  /\ http_replies (world_of (agent_run_job ctx job w))
     = tl (http_replies (world_of (job_execute ctx job w))).
Proof.
  intros ctx job w base jid sid Hbase Hid Hsid.
  destruct (NaslFacts.job_execute_succeeds ctx job w) as [json Hjson].
  unfold agent_run_job. rewrite bind_run. cbn [result_of world_of trace_of fst snd].
  rewrite Hjson. cbn [fst snd Z.eqb ERR_SUCCESS is_some andb].
  rewrite bind_run. cbn [result_of world_of trace_of fst snd ret]. rewrite app_nil_r.
  rewrite Hid, Hsid.
  destruct (job_submit_results_run ctx jid sid json (world_of (job_execute ctx job w))
              base Hbase) as (_ & _ & _ & (url & _ & Ht) & Hw).
  rewrite HeartbeatFacts.count_posts_app.
  rewrite (count_posts_local _ (NaslFacts.job_execute_emits ctx job w)).
  unfold trace_of, world_of in *. rewrite Ht. split; [reflexivity|exact Hw].
Qed.

Lemma keeps_ret : forall {A : Type} (a : A), keeps_replies (ret a).
Proof. intros A a w. reflexivity. Qed.

Lemma keeps_bind : forall {A B : Type} (m : M A) (k : A -> M B),
  keeps_replies m -> (forall a, keeps_replies (k a)) -> keeps_replies (bind m k).
Proof.
  intros A B m k Hm Hk w. rewrite bind_run. cbn [world_of fst snd].
  unfold keeps_replies, world_of in *. rewrite Hk. apply Hm.
Qed.

Lemma keeps_sleep : forall n, keeps_replies (utils_sleep n).
Proof. intros n w. reflexivity. Qed.

Lemma keeps_timestamp : keeps_replies utils_get_iso8601_timestamp.
Proof. intros w. reflexivity. Qed.

Lemma keeps_system : forall cmd, keeps_replies (system cmd).
Proof. intros cmd w. unfold system. destruct (system_statuses w); reflexivity. Qed.

Lemma keeps_popen : forall cmd, keeps_replies (popen cmd).
Proof. intros cmd w. unfold popen. destruct (popen_outputs w); reflexivity. Qed.

Lemma keeps_run_script : forall nvt tgt, keeps_replies (nasl_executor_run_script nvt tgt).
Proof.
  intros nvt tgt. unfold nasl_executor_run_script.
  destruct nvt as [nvt|]; [|apply keeps_ret].
  destruct tgt as [tgt|]; [|apply keeps_ret].
  apply keeps_bind; [intros w; reflexivity|]. intros has_nasl.
  destruct has_nasl.
  - apply keeps_bind; [apply keeps_popen|]. intros [output|]; [|apply keeps_ret].
    destruct (scan_nasl_output (CStr.fgets_all 512 output) false "") as [found descr].
    destruct found; apply keeps_ret.
  - destruct (PrimFloat.ltb 0 (cvss_base nvt)); apply keeps_ret.
Qed.

Lemma keeps_run_scan_loop : forall oids i oid_count tgt prefs acc,
  keeps_replies (run_scan_loop oids i oid_count tgt prefs acc).
Proof.
  induction oids as [|oid oids IH]; intros i oid_count tgt prefs acc;
    [apply keeps_ret|].
  cbn [run_scan_loop]. apply keeps_bind; [intros w; reflexivity|].
  intros [nvt|]; [|apply IH].
  apply keeps_bind; [apply keeps_run_script|]. intros [rc sr].
  apply keeps_bind; [|intros _; apply IH].
  destruct prefs as [prefs|]; [|apply keeps_ret].
  destruct (i <? oid_count - 1); [apply keeps_sleep|apply keeps_ret].
Qed.

Lemma keeps_basic_check : forall tgt pn oid name port text found,
  keeps_replies (basic_check tgt pn oid name port text found).
Proof.
  intros. unfold basic_check. apply keeps_bind; [apply keeps_system|].
  intros st. destruct (st =? 0); apply keeps_ret.
Qed.

(** A job is executed without a word from the controller. *)
Lemma job_execute_replies : forall ctx job w,
  http_replies (world_of (job_execute ctx job w)) = http_replies w.
Proof.
  intros ctx job. change (keeps_replies (job_execute ctx job)). unfold job_execute.
  apply keeps_bind; [apply keeps_timestamp|]. intros started_at.
  apply keeps_bind; [intros w; reflexivity|]. intros has_nasl.
  apply keeps_bind.
  { destruct has_nasl.
    - unfold nasl_executor_run_scan. cbn [Z.eqb].
      apply keeps_bind; [apply keeps_run_scan_loop|]. intros all. apply keeps_ret.
    - unfold nasl_executor_run_basic_checks.
      repeat (apply keeps_bind; [apply keeps_basic_check|]; intros ?).
      apply keeps_ret. }
  intros [rc scan_results].
  apply keeps_bind; [apply keeps_timestamp|]. intros completed_at. apply keeps_ret.
Qed.

(** X14. Running a list of jobs posts each job's results exactly once,
    whatever the controller replies: a failed submission is neither
    repeated nor does it stop the jobs that follow. *)
Theorem jobs_submitted_once :
  forall ctx js w base,
    controller_url (config ctx) = Some base ->
    forallb (fun job => is_some (job_id job) && is_some (scan_id job)) js = true ->
    count_posts (trace_of (agent_run_jobs ctx js w)) = List.length js
    /\ http_replies (world_of (agent_run_jobs ctx js w))
       = skipn (List.length js) (http_replies w).
Proof.
  intros ctx js w base Hbase. revert w.
  induction js as [|job js IH]; intros w Hids.
  - split; reflexivity.
  - cbn [forallb] in Hids. apply andb_true_iff in Hids. destruct Hids as [Hjob Hids].
    apply andb_true_iff in Hjob. destruct Hjob as [Hid Hsid].
    destruct (job_id job) as [jid|] eqn:Ejid; [|discriminate].
    destruct (scan_id job) as [sid|] eqn:Esid; [|discriminate].
    cbn [agent_run_jobs]. rewrite bind_run. cbn [result_of world_of trace_of fst snd].
    destruct (agent_run_job_posts ctx job w base jid sid Hbase Ejid Esid) as [Hone Hw].
    destruct (IH (world_of (agent_run_job ctx job w)) Hids) as [IHposts IHw].
    rewrite HeartbeatFacts.count_posts_app.
    unfold trace_of, world_of in *. rewrite Hone, IHposts, IHw, Hw.
    pose proof (job_execute_replies ctx job w) as Hexec. unfold world_of in Hexec.
    rewrite Hexec. split; [reflexivity|].
    cbn [List.length]. destruct (http_replies w) as [|r rest]; cbn [tl skipn].
    + destruct (List.length js); reflexivity.
    + reflexivity.
Qed.

End WithLibc.

(** X13 at two jobs with the same ids and different contents. *)
Lemma job_execute_ignores_job_witness :
  result_of (@job_execute sample_libc sample_context sample_job scanning_world)
  = result_of (@job_execute sample_libc sample_context
                 (mk_job (job_id sample_job) (scan_id sample_job) (Some "discovery")
                    (Some "high") None None) scanning_world).
Proof.
  apply (proj2 (proj2 (@job_execute_ignores_job sample_libc sample_context sample_job
                         sample_context
                         (mk_job (job_id sample_job) (scan_id sample_job)
                            (Some "discovery") (Some "high") None None)
                         scanning_world))); reflexivity.
Defined.

(** X14 at one job and a controller that accepts its results. *)
Lemma jobs_submitted_once_witness :
  count_posts (trace_of (@agent_run_jobs sample_libc sample_context [sample_job]
                           scanning_world)) = 1%nat
  /\ http_replies (world_of (@agent_run_jobs sample_libc sample_context [sample_job]
                               scanning_world))
     = skipn 1 (http_replies scanning_world).
Proof.
  apply (@jobs_submitted_once sample_libc sample_context [sample_job] scanning_world
           "https://controller.example.org"); reflexivity.
Defined.

(** *** The main loop *)

Lemma heartbeat_send_trace : forall ctx w,
  trace_of (heartbeat_send ctx w)
  = match heartbeat_url ctx with
    | Some url =>
        [EvHttpPost url
           ("Content-Type: application/json" :: bearer_header (auth_token (config ctx)))
           (heartbeat_body ctx)]
    | None => []
    end.
Proof.
  intros ctx w. unfold heartbeat_send, heartbeat_url.
  destruct (utils_build_url (controller_url (config ctx)) (Some HEARTBEAT_PATH))
    as [url|]; [|reflexivity].
  unfold http_post, bind, emit, curl_easy_perform, trace_of.
  cbn -[heartbeat_body http_parse_json_bool http_parse_json_int http_parse_json_string
        bearer_header].
  destruct (http_replies w) as [|[msg|st bd] rest];
    cbn -[heartbeat_body http_parse_json_bool http_parse_json_int http_parse_json_string
          bearer_header]; try reflexivity.
  destruct (st =? 401); [reflexivity|]. destruct (st =? 200); reflexivity.
Qed.

Lemma same_identity_refl : forall ctx, same_identity ctx ctx.
Proof. intros ctx. repeat split. Qed.

Lemma same_identity_trans : forall a b c,
  same_identity a b -> same_identity b c -> same_identity a c.
Proof.
  intros a b c (H1 & H2 & H3 & H4 & H5) (G1 & G2 & G3 & G4 & G5).
  repeat split; congruence.
Qed.

Lemma heartbeat_body_identity : forall a b,
  same_identity a b -> heartbeat_body a = heartbeat_body b.
Proof.
  intros a b (H1 & H2 & H3 & H4 & H5). unfold heartbeat_body.
  rewrite H1, H2, H3, H4, H5. reflexivity.
Qed.

Lemma protocol_event_identity : forall a b e,
  same_identity a b -> protocol_event a e -> protocol_event b e.
Proof.
  intros a b e Hid He. pose proof (heartbeat_body_identity a b Hid) as Hbody.
  destruct Hid as (Hc & _). unfold protocol_event, job_poll_headers in *.
  destruct e; try exact He; rewrite <- Hc; rewrite <- ?Hbody; exact He.
Qed.

Lemma heartbeat_send_identity : forall ctx w,
  same_identity (hb_context (heartbeat_send ctx w)) ctx.
Proof.
  intros ctx w. destruct (HeartbeatMore.heartbeat_send_cases ctx w) as (Hfail & Hok & _).
  cbv zeta in Hfail, Hok.
  destruct (Z.eqb_spec (hb_code (heartbeat_send ctx w)) ERR_SUCCESS) as [Hs|Hs].
  - destruct (Hok Hs) as (body & rest & _ & Hctx & _). rewrite Hctx. repeat split.
  - destruct (Hfail Hs) as (Hctx & _). rewrite Hctx. apply same_identity_refl.
Qed.

Lemma heartbeat_send_protocol : forall ctx w,
  Forall (protocol_event ctx) (trace_of (heartbeat_send ctx w)).
Proof.
  intros ctx w. rewrite heartbeat_send_trace. unfold heartbeat_url.
  destruct (utils_build_url (controller_url (config ctx)) (Some HEARTBEAT_PATH))
    as [url|] eqn:Hurl; [|constructor].
  constructor; [|constructor]. cbn. repeat split. exact Hurl.
Qed.

Lemma retry_loop_protocol : forall rounds attempt ctx w,
  same_identity (hb_context (heartbeat_retry_loop rounds attempt ctx w)) ctx
  /\ Forall (protocol_event ctx) (trace_of (heartbeat_retry_loop rounds attempt ctx w)).
Proof.
  induction rounds as [|rounds IH]; intros attempt ctx w.
  - cbn. split; [repeat split|constructor].
  - rewrite HeartbeatFacts.retry_loop_step. cbv zeta.
    pose proof (heartbeat_send_identity ctx w) as Hid.
    pose proof (heartbeat_send_protocol ctx w) as Hev.
    destruct (IH (attempt + 1) (hb_context (heartbeat_send ctx w))
                (world_of (heartbeat_retry_wait (hb_context (heartbeat_send ctx w))
                             attempt (world_of (heartbeat_send ctx w)))))
      as [IHid IHev].
    pose proof (HeartbeatFacts.heartbeat_retry_wait_emits
                  (hb_context (heartbeat_send ctx w)) attempt
                  (world_of (heartbeat_send ctx w))) as Hwait.
    destruct (hb_code (heartbeat_send ctx w) =? ERR_SUCCESS).
    + unfold hb_context in *. cbn [result_of world_of trace_of fst snd]. split.
      * destruct Hid as (H1 & H2 & H3 & H4 & H5). repeat split; assumption.
      * exact Hev.
    + destruct (hb_code (heartbeat_send ctx w) =? ERR_AUTH_FAILED).
      * unfold hb_context in *. cbn [result_of world_of trace_of fst snd].
        split; assumption.
      * unfold hb_context in *. cbn [result_of world_of trace_of fst snd]. split.
        -- exact (same_identity_trans _ _ _ IHid Hid).
        -- apply Forall_app. split; [exact Hev|]. apply Forall_app. split.
           ++ eapply Forall_impl; [|exact Hwait].
              intros [] He; try contradiction. exact I.
           ++ eapply Forall_impl; [|exact IHev].
              intros e. apply protocol_event_identity. exact Hid.
Qed.

Lemma job_poll_run : forall ctx w base,
  controller_url (config ctx) = Some base ->
  exists url,
    utils_build_url (Some base) (Some JOBS_PATH) = Some url
    /\ trace_of (job_poll ctx w) = [EvHttpGet url (job_poll_headers ctx)].
Proof.
  intros ctx w base Hbase. unfold job_poll. rewrite Hbase.
  destruct (build_url_some base JOBS_PATH) as [url Hurl]. rewrite Hurl.
  exists url. split; [reflexivity|].
  unfold bind, emit, curl_easy_perform, trace_of.
  destruct (http_replies w) as [|[msg|st raw] rest];
    cbn -[CStr.strstr CStr.c_str CStr.quoted job_poll_headers]; try reflexivity.
  destruct (st =? 401); [reflexivity|]. destruct (st =? 200); [|reflexivity].
  cbn -[CStr.strstr CStr.c_str CStr.quoted job_poll_headers].
  destruct (is_some _ || is_some _); reflexivity.
Qed.

Lemma heartbeat_url_base : forall ctx url,
  heartbeat_url ctx = Some url -> exists base, controller_url (config ctx) = Some base.
Proof.
  intros ctx url Hurl. unfold heartbeat_url, utils_build_url in Hurl.
  destruct (controller_url (config ctx)) as [base|]; [eauto|discriminate].
Qed.

Section MainLoop.
Context `{LibcFormat}.

Lemma agent_round_run : forall ctx w,
  let hb := heartbeat_send_with_retry ctx w in
  let r := agent_run_iteration ctx w in
  state (result_of r)
  = (if hb_code hb =? ERR_SUCCESS
     then if authorized (hb_context hb)
          then AGENT_STATE_ACTIVE else AGENT_STATE_UNAUTHORIZED
     else state ctx)
  /\ authorized (result_of r) = authorized (hb_context hb)
  /\ retry_count (result_of r) = retry_count (hb_context hb)
  /\ same_identity (result_of r) ctx
  /\ exists poll,
       trace_of r
       = (trace_of hb ++ poll
          ++ [EvSleep (heartbeat_interval_seconds (config ctx))])%list
       /\ if (hb_code hb =? ERR_SUCCESS) && authorized (hb_context hb)
          then exists url,
                 utils_build_url (controller_url (config ctx)) (Some JOBS_PATH)
                 = Some url
                 /\ poll = [EvHttpGet url (job_poll_headers ctx)]
          else poll = [].
Proof.
  intros ctx w. cbv zeta.
  destruct (retry_loop_protocol (Z.to_nat (retry_attempts (config ctx))) 1 ctx w)
    as [Hid _].
  destruct (HeartbeatFacts.retry_loop_invariants
              (Z.to_nat (retry_attempts (config ctx))) 1 ctx w) as (_ & _ & Hsucc).
  destruct (HeartbeatMore.retry_loop_outcome
              (Z.to_nat (retry_attempts (config ctx))) 1 ctx w)
    as (Hcodes & _ & Hauth_failed & Hexhausted & _).
  cbv zeta in Hsucc, Hcodes, Hauth_failed, Hexhausted.
  fold (heartbeat_send_with_retry ctx w) in Hid, Hsucc, Hcodes, Hauth_failed, Hexhausted.
  pose proof Hid as (Hcfg & _).
  assert (Hwaiting :
            hb_code (heartbeat_send_with_retry ctx w) <> ERR_SUCCESS
            \/ authorized (hb_context (heartbeat_send_with_retry ctx w)) = false ->
            state (hb_context (heartbeat_send_with_retry ctx w)) = state ctx
            \/ hb_code (heartbeat_send_with_retry ctx w) = ERR_SUCCESS).
  { intros _.
    destruct Hcodes as [Hc|[Hc|Hc]]; [right; exact Hc|left|left].
    - rewrite (Hauth_failed Hc). reflexivity.
    - rewrite (Hexhausted Hc). reflexivity. }
  destruct (Z.eqb_spec (hb_code (heartbeat_send_with_retry ctx w)) ERR_SUCCESS)
    as [Hok|Hnok].
  2: { rewrite (AgentFacts.agent_run_iteration_waiting ctx w (or_introl Hnok)).
       destruct (Z.eqb_spec (hb_code (heartbeat_send_with_retry ctx w)) ERR_SUCCESS);
         [contradiction|].
       cbn [result_of trace_of fst snd andb].
       destruct (Hwaiting (or_introl Hnok)) as [Hst|Hc]; [|contradiction].
       split; [exact Hst|]. split; [reflexivity|]. split; [reflexivity|].
       split; [exact Hid|]. exists []. rewrite Hcfg. split; reflexivity. }
  destruct (authorized (hb_context (heartbeat_send_with_retry ctx w))) eqn:Hauth.
  2: { rewrite (AgentFacts.agent_run_iteration_waiting ctx w (or_intror Hauth)).
       rewrite Hok. cbn [Z.eqb ERR_SUCCESS result_of trace_of fst snd andb].
       cbn [state authorized retry_count set_state config].
       split; [reflexivity|]. split; [exact Hauth|]. split; [reflexivity|]. split.
       - destruct Hid as (H1 & H2 & H3 & H4 & H5). repeat split; assumption.
       - exists []. rewrite Hcfg. split; reflexivity. }
  destruct (Hsucc Hok) as (_ & [hurl Hhurl] & _).
  destruct (heartbeat_url_base ctx hurl Hhurl) as [base Hbase].
  unfold agent_run_iteration. rewrite bind_run.
  unfold hb_code, hb_context in *.
  destruct (heartbeat_send_with_retry ctx w) as [[[[code response] ctx1] w1] t].
  cbn [result_of world_of trace_of fst snd] in *.
  subst code. rewrite Hauth. cbn [Z.eqb ERR_SUCCESS negb andb].
  set (ctx2 := if negb (agent_state_eqb (state ctx1) AGENT_STATE_ACTIVE)
               then set_state AGENT_STATE_ACTIVE ctx1 else ctx1).
  assert (Hid2 : same_identity ctx2 ctx
                 /\ state ctx2 = AGENT_STATE_ACTIVE
                 /\ authorized ctx2 = true
                 /\ retry_count ctx2 = retry_count ctx1).
  { unfold ctx2. destruct (state ctx1) eqn:Hst; cbn [agent_state_eqb negb];
      (split; [destruct Hid as (H1 & H2 & H3 & H4 & H5); repeat split; assumption|]);
      (split; [first [exact Hst|reflexivity]|]);
      (split; [exact Hauth|reflexivity]). }
  destruct Hid2 as (Hid2 & Hst2 & Hauth2 & Hrc2).
  pose proof Hid2 as (Hcfg2 & _).
  rewrite bind_run.
  destruct (AgentFacts.job_poll_outcome ctx2 w1) as (Hpolled & _ & _).
  destruct (job_poll_run ctx2 w1 base ltac:(rewrite Hcfg2; exact Hbase))
    as (jurl & Hjurl & Hpoll).
  unfold result_of, world_of, trace_of in Hpolled, Hpoll |- *.
  destruct (job_poll ctx2 w1) as [[[rc polled] w2] t2].
  cbn [fst snd] in Hpolled, Hpoll |- *.
  rewrite (AgentFacts.agent_process_jobs_empty ctx2 rc polled Hpolled).
  cbn. split; [exact Hst2|]. split; [exact Hauth2|]. split; [exact Hrc2|].
  split; [exact Hid2|].
  exists t2. rewrite Hcfg2. split; [reflexivity|].
  exists jurl. rewrite Hbase. split; [exact Hjurl|].
  rewrite Hpoll. unfold job_poll_headers. rewrite Hcfg2. reflexivity.
Qed.

(** X15. One round of the main loop is a heartbeat (with its retries),
    then the poll for jobs exactly when the heartbeat succeeded and left
    the agent authorized, then a sleep of the heartbeat interval. The
    state after the round is [ACTIVE] or [UNAUTHORIZED] according to the
    authorization after a successful heartbeat, and unchanged after a
    failed one; what the agent tells about itself never changes. *)
Theorem agent_round_anatomy :
  forall ctx w,
    let hb := heartbeat_send_with_retry ctx w in
    let r := agent_run_iteration ctx w in
    state (result_of r)
    = (if hb_code hb =? ERR_SUCCESS
       then if authorized (hb_context hb)
            then AGENT_STATE_ACTIVE else AGENT_STATE_UNAUTHORIZED
       else state ctx)
    /\ authorized (result_of r) = authorized (hb_context hb)
    /\ retry_count (result_of r) = retry_count (hb_context hb)
    /\ same_identity (result_of r) ctx
    /\ exists poll,
         trace_of r
         = (trace_of hb ++ poll
            ++ [EvSleep (heartbeat_interval_seconds (config ctx))])%list
         /\ if (hb_code hb =? ERR_SUCCESS) && authorized (hb_context hb)
            then exists url,
                   utils_build_url (controller_url (config ctx)) (Some JOBS_PATH)
                   = Some url
                   /\ poll = [EvHttpGet url (job_poll_headers ctx)]
            else poll = [].
Proof. exact agent_round_run. Qed.

Lemma agent_round_agrees : forall ctx w,
  state_agrees ctx = true ->
  state_agrees (result_of (agent_run_iteration ctx w)) = true.
Proof.
  intros ctx w Hagrees.
  destruct (agent_round_run ctx w) as (Hst & Hauth & _). cbv zeta in Hst, Hauth.
  destruct (HeartbeatMore.retry_loop_outcome
              (Z.to_nat (retry_attempts (config ctx))) 1 ctx w)
    as (Hcodes & _ & Hauth_failed & Hexhausted & _).
  cbv zeta in Hcodes, Hauth_failed, Hexhausted.
  fold (heartbeat_send_with_retry ctx w) in Hcodes, Hauth_failed, Hexhausted.
  unfold state_agrees in *. rewrite Hst, Hauth.
  destruct Hcodes as [Hc|[Hc|Hc]].
  - rewrite Hc. cbn [Z.eqb ERR_SUCCESS].
    destruct (authorized (hb_context (heartbeat_send_with_retry ctx w))); reflexivity.
  - rewrite Hc. cbn. rewrite (Hauth_failed Hc). exact Hagrees.
  - rewrite Hc. cbn. rewrite (Hexhausted Hc). exact Hagrees.
Qed.

(** X16. The state and the authorization flag agree at the end of every
    round: an agent that starts as [agent_init] leaves it (registering and
    not authorized) is, after any number of rounds, [ACTIVE] when it is
    authorized and [REGISTERING] or [UNAUTHORIZED] when it is not, and in
    no other state. *)
Theorem agent_state_agrees :
  forall n ctx w,
    state_agrees ctx = true ->
    state_agrees (result_of (agent_run n ctx w)) = true.
Proof.
  induction n as [|n IH]; intros ctx w Hagrees; [exact Hagrees|].
  cbn [agent_run]. rewrite bind_run. cbn [result_of world_of trace_of fst snd].
  apply IH. apply agent_round_agrees. exact Hagrees.
Qed.

Lemma agent_round_protocol : forall ctx w,
  same_identity (result_of (agent_run_iteration ctx w)) ctx
  /\ Forall (protocol_event ctx) (trace_of (agent_run_iteration ctx w)).
Proof.
  intros ctx w.
  destruct (agent_round_run ctx w) as (_ & _ & _ & Hid & poll & Ht & Hpoll).
  cbv zeta in Hid, Ht, Hpoll. split; [exact Hid|]. rewrite Ht.
  destruct (retry_loop_protocol (Z.to_nat (retry_attempts (config ctx))) 1 ctx w)
    as [_ Hev].
  apply Forall_app. split; [exact Hev|]. apply Forall_app. split.
  - destruct ((hb_code (heartbeat_send_with_retry ctx w) =? ERR_SUCCESS)
              && authorized (hb_context (heartbeat_send_with_retry ctx w))).
    + destruct Hpoll as (url & Hurl & Hp). rewrite Hp.
      constructor; [|constructor]. cbn. split; [exact Hurl|reflexivity].
    + rewrite Hpoll. constructor.
  - constructor; [exact I|constructor].
Qed.

Lemma agent_run_protocol_events :
  forall n ctx w,
    same_identity (result_of (agent_run n ctx w)) ctx
    /\ Forall (protocol_event ctx) (trace_of (agent_run n ctx w)).
Proof.
  induction n as [|n IH]; intros ctx w.
  - cbn. split; [repeat split|constructor].
  - cbn [agent_run]. rewrite bind_run. cbn [result_of world_of trace_of fst snd].
    destruct (agent_round_protocol ctx w) as [Hid Hev].
    destruct (IH (result_of (agent_run_iteration ctx w))
                (world_of (agent_run_iteration ctx w))) as [IHid IHev].
    unfold result_of, world_of, trace_of in *. split.
    + exact (same_identity_trans _ _ _ IHid Hid).
    + apply Forall_app. split; [exact Hev|].
      eapply Forall_impl; [|exact IHev].
      intros e. apply protocol_event_identity. exact Hid.
Qed.

(** With a controller address, a token and an id that fit their
    buffers, the requests are those of the wire protocol. *)
Lemma protocol_event_wire : forall ctx base token aid e,
  controller_url (config ctx) = Some base ->
  auth_token (config ctx) = Some token ->
  (String.length token <= 489)%nat ->
  agent_id (config ctx) = Some aid ->
  (String.length aid <= 243)%nat ->
  protocol_event ctx e ->
  wire_event base token aid (heartbeat_body ctx) e.
Proof.
  intros ctx base token aid e Hbase Htoken Htok Haid Hid Hev.
  assert (Hbearer : CStr.snprintf 512 ("Authorization: Bearer " ++ token)
                    = "Authorization: Bearer " ++ token).
  { unfold CStr.snprintf. apply CStrFacts.substring_all.
    rewrite CStrFacts.length_app. cbn. lia. }
  assert (Hagent : CStr.snprintf 256 ("X-Agent-ID: " ++ aid) = "X-Agent-ID: " ++ aid).
  { unfold CStr.snprintf. apply CStrFacts.substring_all.
    rewrite CStrFacts.length_app. cbn. lia. }
  destruct e as [url headers sent|url headers|seconds|cmd|cmd];
    cbn [protocol_event wire_event] in Hev |- *; try exact Hev.
  - destruct Hev as (Hurl & Hheaders & Hsent).
    rewrite Hbase in Hurl. unfold HEARTBEAT_PATH in Hurl.
    rewrite AgentFacts.build_url_absolute in Hurl. inversion Hurl.
    rewrite Htoken in Hheaders. unfold bearer_header in Hheaders.
    rewrite Hbearer in Hheaders.
    split; [reflexivity|]. split; assumption.
  - destruct Hev as (Hurl & Hheaders).
    rewrite Hbase in Hurl. unfold JOBS_PATH in Hurl.
    rewrite AgentFacts.build_url_absolute in Hurl. inversion Hurl.
    unfold job_poll_headers in Hheaders. rewrite Htoken, Haid in Hheaders.
    cbn [CStr.fmt_s] in Hheaders. rewrite Hbearer, Hagent in Hheaders.
    split; [reflexivity|assumption].
Qed.

(** X17. For an agent whose configuration holds a controller address, a
    token of at most 489 characters and an id of at most 243: whatever
    the controller replies and however long the loop runs, the agent
    sends only two kinds of request. The heartbeat is a POST to
    [/api/v1/agents/heartbeat] under the address, with the headers
    [Content-Type: application/json] and [Authorization: Bearer] followed
    by the token, always with the same body, that of the start. The poll
    is a GET to [/api/v1/agents/jobs] under the address, with the headers
    [Accept: application/json], [Authorization: Bearer] followed by the
    token and [X-Agent-ID:] followed by the id. What the agent tells
    about itself (configuration and system information) is that of the
    start. *)
Theorem agent_run_protocol :
  forall n ctx w base token aid,
    controller_url (config ctx) = Some base ->
    auth_token (config ctx) = Some token ->
    (String.length token <= 489)%nat ->
    agent_id (config ctx) = Some aid ->
    (String.length aid <= 243)%nat ->
    same_identity (result_of (agent_run n ctx w)) ctx
    /\ Forall (wire_event base token aid (heartbeat_body ctx))
         (trace_of (agent_run n ctx w)).
Proof.
  intros n ctx w base token aid Hbase Htoken Htok Haid Hid.
  destruct (agent_run_protocol_events n ctx w) as [Hsame Hev].
  split; [exact Hsame|].
  eapply Forall_impl; [|exact Hev].
  intros e. apply protocol_event_wire; assumption.
Qed.

Lemma agent_round_without_attempts : forall ctx w,
  retry_attempts (config ctx) <= 0 ->
  agent_run_iteration ctx w
  = (set_retry_count (retry_count ctx + 1) ctx,
     with_clock (clock w + heartbeat_interval_seconds (config ctx) mod 4294967296) w,
     [EvSleep (heartbeat_interval_seconds (config ctx))]).
Proof.
  intros ctx w Hzero.
  assert (Hhb : heartbeat_send_with_retry ctx w
                = (ERR_NETWORK_UNREACHABLE, None,
                   set_retry_count (retry_count ctx + 1) ctx, w, [])).
  { unfold heartbeat_send_with_retry.
    replace (Z.to_nat (retry_attempts (config ctx))) with 0%nat by lia. reflexivity. }
  rewrite (AgentFacts.agent_run_iteration_waiting ctx w).
  - rewrite Hhb. reflexivity.
  - left. rewrite Hhb. discriminate.
Qed.

(** X18. [config_validate] does not look at [retry_attempts]; with a
    value of zero or less the agent never sends a heartbeat: every round
    is a sleep of the heartbeat interval and nothing else, no reply is
    taken, and only the retry count moves. *)
Theorem agent_without_attempts_is_silent :
  forall n ctx w,
    retry_attempts (config ctx) <= 0 ->
    (forall attempts,
       Config.config_validate (Some (Config.set_retry_attempts attempts (config ctx)))
       = Config.config_validate (Some (config ctx)))
    /\ trace_of (agent_run n ctx w)
       = repeat (EvSleep (heartbeat_interval_seconds (config ctx))) n
    /\ http_replies (world_of (agent_run n ctx w)) = http_replies w
    /\ result_of (agent_run n ctx w)
       = set_retry_count (retry_count ctx + Z.of_nat n) ctx.
Proof.
  intros n ctx w Hzero. split; [intros attempts; reflexivity|].
  revert ctx w Hzero. induction n as [|n IH]; intros ctx w Hzero.
  - cbn [agent_run repeat]. cbn. split; [reflexivity|]. split; [reflexivity|].
    destruct ctx. unfold set_retry_count. cbn. f_equal. lia.
  - cbn [agent_run]. rewrite bind_run.
    rewrite (agent_round_without_attempts ctx w Hzero).
    cbn [result_of world_of trace_of fst snd].
    destruct (IH (set_retry_count (retry_count ctx + 1) ctx)
                (with_clock (clock w + heartbeat_interval_seconds (config ctx)
                                       mod 4294967296) w) Hzero) as (Ht & Hw & Hr).
    unfold result_of, world_of, trace_of in *.
    rewrite Ht, Hw, Hr. cbn [repeat app config set_retry_count]. 
    split; [reflexivity|]. split; [reflexivity|].
    destruct ctx. unfold set_retry_count. cbn. f_equal. lia.
Qed.

End MainLoop.

(** X16 at the sample agent, which starts registering and unauthorized. *)
Lemma agent_state_agrees_witness :
  state_agrees
    (result_of (@agent_run sample_libc 2 sample_context
                  (sample_world [heartbeat_reply "true" "false"; jobs_reply])))
  = true.
Proof.
  apply (@agent_state_agrees sample_libc 2 sample_context
           (sample_world [heartbeat_reply "true" "false"; jobs_reply])).
  reflexivity.
Defined.

(** X17 at the sample agent, over two rounds with an authorizing
    controller. *)
Lemma agent_run_protocol_witness :
  Forall (wire_event "https://controller.example.org" "s3cr3t"
            "11111111-1111-4111-8111-111111111111" (heartbeat_body sample_context))
    (trace_of (@agent_run sample_libc 2 sample_context
                 (sample_world [heartbeat_reply "true" "false"; jobs_reply;
                                heartbeat_reply "true" "false"; jobs_reply]))).
Proof.
  apply (@agent_run_protocol sample_libc 2 sample_context
           (sample_world [heartbeat_reply "true" "false"; jobs_reply;
                          heartbeat_reply "true" "false"; jobs_reply])
           "https://controller.example.org" "s3cr3t"
           "11111111-1111-4111-8111-111111111111").
  - reflexivity.
  - reflexivity.
  - cbn. lia.
  - reflexivity.
  - cbn. lia.
Defined.

(** The requests of that run, as they go over the wire. *)
Example agent_run_sample_requests :
  map (fun e => match e with
                | EvHttpPost url headers _ => Some (url, headers)
                | EvHttpGet url headers => Some (url, headers)
                | _ => None
                end)
    (firstn 3 (trace_of (@agent_run sample_libc 2 sample_context
                           (sample_world [heartbeat_reply "true" "false"; jobs_reply;
                                          heartbeat_reply "true" "false"; jobs_reply]))))
  = [ Some ("https://controller.example.org/api/v1/agents/heartbeat",
            ["Content-Type: application/json"; "Authorization: Bearer s3cr3t"]);
      Some ("https://controller.example.org/api/v1/agents/jobs",
            ["Accept: application/json"; "Authorization: Bearer s3cr3t";
             "X-Agent-ID: 11111111-1111-4111-8111-111111111111"]);
      None ].
Proof. vm_compute. reflexivity. Qed.

(** X18 at a configuration with [attempts = 0]. *)
Lemma agent_without_attempts_is_silent_witness :
  trace_of (@agent_run sample_libc 3 context_without_attempts
              (sample_world [heartbeat_reply "true" "false"]))
  = [EvSleep 600; EvSleep 600; EvSleep 600].
Proof.
  apply (@agent_without_attempts_is_silent sample_libc 3 context_without_attempts
           (sample_world [heartbeat_reply "true" "false"])).
  vm_compute. discriminate.
Defined.

(** *** The scan behind a job *)

Section LocalScan.
Context `{LibcFormat}.

Lemma basic_check_trace : forall tgt pn oid name port text found w,
  trace_of (basic_check tgt pn oid name port text found w)
  = [EvSystem (CStr.snprintf 256
                 ("nc -zv -w2 " ++ tgt ++ " " ++ pn ++ " 2>&1 | grep -q succeeded"))]
  /\ g_has_openvas_nasl (world_of (basic_check tgt pn oid name port text found w))
     = g_has_openvas_nasl w.
Proof.
  intros. unfold basic_check, bind, system.
  destruct (system_statuses w) as [|st rest];
    cbn -[create_scan_result CStr.snprintf Z.eqb].
  - split; reflexivity.
  - destruct (st =? 0); split; reflexivity.
Qed.

Lemma basic_checks_trace : forall w,
  trace_of (nasl_executor_run_basic_checks (Some "localhost") w) = LOCALHOST_PROBES
  /\ g_has_openvas_nasl (world_of (nasl_executor_run_basic_checks (Some "localhost") w))
     = g_has_openvas_nasl w.
Proof.
  intros w. unfold nasl_executor_run_basic_checks.
  rewrite !bind_run. cbn [result_of world_of trace_of fst snd ret].
  set (b1 := basic_check "localhost" "22" _ _ _ _ [] w).
  destruct (basic_check_trace "localhost" "22" "1.3.6.1.4.1.25623.1.0.900001"
              "SSH Service Detection" "22/tcp" "SSH service is running on port 22"
              [] w) as [Ht1 Hw1].
  fold b1 in Ht1, Hw1.
  set (b2 := basic_check "localhost" "80" _ _ _ _ (result_of b1) (world_of b1)).
  destruct (basic_check_trace "localhost" "80" "1.3.6.1.4.1.25623.1.0.900002"
              "HTTP Service Detection" "80/tcp" "HTTP service is running on port 80"
              (result_of b1) (world_of b1)) as [Ht2 Hw2].
  fold b2 in Ht2, Hw2.
  set (b3 := basic_check "localhost" "443" _ _ _ _ (result_of b2) (world_of b2)).
  destruct (basic_check_trace "localhost" "443" "1.3.6.1.4.1.25623.1.0.900003"
              "HTTPS Service Detection" "443/tcp" "HTTPS service is running on port 443"
              (result_of b2) (world_of b2)) as [Ht3 Hw3].
  fold b3 in Ht3, Hw3.
  split.
  - rewrite Ht1, Ht2, Ht3. reflexivity.
  - rewrite Hw3, Hw2, Hw1. reflexivity.
Qed.

Lemma job_execute_basic : forall ctx job w,
  g_has_openvas_nasl w = false ->
  trace_of (job_execute ctx job w) = LOCALHOST_PROBES
  /\ g_has_openvas_nasl (world_of (job_execute ctx job w)) = false.
Proof.
  intros ctx job w Hflag. unfold job_execute.
  rewrite bind_run.
  change (world_of (utils_get_iso8601_timestamp w)) with w.
  change (trace_of (utils_get_iso8601_timestamp w)) with (@nil event).
  rewrite bind_run.
  change (world_of (nasl_executor_has_openvas_nasl w)) with w.
  change (trace_of (nasl_executor_has_openvas_nasl w)) with (@nil event).
  change (result_of (nasl_executor_has_openvas_nasl w)) with (g_has_openvas_nasl w).
  rewrite Hflag. rewrite bind_run.
  destruct (basic_checks_trace w) as [Ht Hw].
  unfold result_of, world_of, trace_of in Ht, Hw |- *.
  destruct (nasl_executor_run_basic_checks (Some "localhost") w) as [[[rc sr] w1] t1].
  cbn [fst snd] in Ht, Hw |- *. subst t1.
  split; [reflexivity|]. rewrite <- Hflag, <- Hw. reflexivity.
Qed.

(** X26. Without openvas-nasl, which is how the flag stands unless
    [nasl_executor_init] has found the program, [job_execute] runs exactly
    the three port probes of the built-in checks, always against
    localhost and whatever the job says. [nasl_executor_init] itself
    always returns [ERR_SUCCESS]; when its [which] command fails, the jobs
    that follow are executed in that way. *)
Theorem job_execute_probes_localhost :
  forall ctx job w,
    (g_has_openvas_nasl w = false ->
     trace_of (job_execute ctx job w) = LOCALHOST_PROBES)
    /\ result_of (nasl_executor_init w) = ERR_SUCCESS
    /\ (forall status rest,
          system_statuses w = status :: rest ->
          status <> 0 ->
          trace_of (job_execute ctx job (world_of (nasl_executor_init w)))
          = LOCALHOST_PROBES).
Proof.
  intros ctx job w. split; [|split].
  - intros Hflag. apply job_execute_basic. exact Hflag.
  - unfold nasl_executor_init, bind, system, ret.
    destruct (system_statuses w); reflexivity.
  - intros status rest Hst Hfail. apply job_execute_basic.
    unfold nasl_executor_init, bind, system, ret. rewrite Hst.
    cbn [result_of world_of fst snd g_has_openvas_nasl with_g_has_openvas_nasl].
    apply Z.eqb_neq. exact Hfail.
Qed.

End LocalScan.

(** X26 at a host where no port answers. *)
Lemma job_execute_probes_localhost_witness :
  trace_of (@job_execute sample_libc sample_context sample_job (sample_world []))
  = LOCALHOST_PROBES.
Proof.
  apply (proj1 (@job_execute_probes_localhost sample_libc sample_context sample_job
                  (sample_world []))).
  reflexivity.
Defined.

End AgentMore.

(* ===================================================================== *)
(** ** More about agent_get_system_info and the heartbeat body *)
(* ===================================================================== *)

Module SystemInfoMore.
Import CStr AgentSpec RunShape Samples.

(** Two rounds of taking what still fits are one round over both
    supplies. *)
Lemma take_more : forall (acc c1 c2 : list string),
  (List.length acc <= 16)%nat ->
  ((acc ++ firstn (16 - List.length acc) c1)
   ++ firstn (16 - List.length (acc ++ firstn (16 - List.length acc) c1)) c2)%list
  = (acc ++ firstn (16 - List.length acc) (c1 ++ c2))%list.
Proof.
  intros acc c1 c2 Hacc. rewrite <- app_assoc. f_equal.
  rewrite firstn_app. f_equal.
  rewrite List.length_app, List.length_firstn.
  destruct (Nat.le_ge_cases (List.length c1) (16 - List.length acc)) as [Hle|Hge].
  - rewrite Nat.min_r by exact Hle. f_equal. lia.
  - rewrite Nat.min_l by exact Hge.
    replace (16 - (List.length acc + (16 - List.length acc)))%nat with 0%nat by lia.
    replace (16 - List.length acc - List.length c1)%nat with 0%nat by lia.
    reflexivity.
Qed.

Lemma take_none : forall (acc c : list string),
  (List.length acc <= 16)%nat ->
  (Z.of_nat (List.length acc) <? 16) = false ->
  acc = (acc ++ firstn (16 - List.length acc) c)%list.
Proof.
  intros acc c Hacc Hfull. apply Z.ltb_ge in Hfull.
  replace (16 - List.length acc)%nat with 0%nat by lia.
  cbn. rewrite app_nil_r. reflexivity.
Qed.

Lemma take_length : forall (acc c : list string),
  (List.length acc <= 16)%nat ->
  (List.length (acc ++ firstn (16 - List.length acc) c) <= 16)%nat.
Proof.
  intros acc c Hacc. rewrite List.length_app, List.length_firstn. lia.
Qed.

Lemma posix_collect_ips_take : forall ifa acc,
  (List.length acc <= 16)%nat ->
  posix_collect_ips ifa acc
  = (acc ++ firstn (16 - List.length acc) (posix_candidates ifa))%list.
Proof.
  induction ifa as [|entry ifa IH]; intros acc Hacc.
  - cbn. rewrite firstn_nil, app_nil_r. reflexivity.
  - cbn [posix_collect_ips].
    destruct (Z.of_nat (List.length acc) <? 16) eqn:Hroom;
      [|apply take_none; assumption].
    apply Z.ltb_lt in Hroom.
    unfold posix_candidates. cbn [flat_map]. fold (posix_candidates ifa).
    destruct entry as [sa|]; [|apply IH; exact Hacc].
    destruct (is_af_inet (sa_family sa)); cbn [andb]; [|apply IH; exact Hacc].
    destruct (negb (strcmp_eq (sa_text sa) "127.0.0.1")); [|apply IH; exact Hacc].
    rewrite IH by (rewrite List.length_app; cbn; lia).
    rewrite List.length_app. cbn [List.length app].
    replace (16 - List.length acc)%nat with (S (16 - (List.length acc + 1)))%nat by lia.
    cbn [firstn]. rewrite <- app_assoc. reflexivity.
Qed.

Lemma win32_collect_unicast_take : forall unicast acc,
  (List.length acc <= 16)%nat ->
  win32_collect_unicast unicast acc
  = (acc ++ firstn (16 - List.length acc)
              (map sa_text (filter (fun sa => is_af_inet (sa_family sa)) unicast)))%list.
Proof.
  induction unicast as [|sa unicast IH]; intros acc Hacc.
  - cbn. rewrite firstn_nil, app_nil_r. reflexivity.
  - cbn [win32_collect_unicast].
    destruct (Z.of_nat (List.length acc) <? 16) eqn:Hroom;
      [|apply take_none; assumption].
    apply Z.ltb_lt in Hroom. cbn [filter].
    destruct (is_af_inet (sa_family sa)); [|apply IH; exact Hacc].
    rewrite IH by (rewrite List.length_app; cbn; lia).
    rewrite List.length_app. cbn [List.length app map].
    replace (16 - List.length acc)%nat with (S (16 - (List.length acc + 1)))%nat by lia.
    cbn [firstn]. rewrite <- app_assoc. reflexivity.
Qed.

Lemma win32_collect_adapters_take : forall adapters acc,
  (List.length acc <= 16)%nat ->
  win32_collect_adapters adapters acc
  = (acc ++ firstn (16 - List.length acc) (win32_candidates adapters))%list.
Proof.
  induction adapters as [|unicast adapters IH]; intros acc Hacc.
  - cbn. rewrite firstn_nil, app_nil_r. reflexivity.
  - cbn [win32_collect_adapters].
    destruct (Z.of_nat (List.length acc) <? 16) eqn:Hroom;
      [|apply take_none; assumption].
    rewrite (win32_collect_unicast_take unicast acc Hacc).
    rewrite IH by (apply take_length; exact Hacc).
    rewrite take_more by exact Hacc.
    unfold win32_candidates. cbn [List.concat]. rewrite filter_app, map_app.
    reflexivity.
Qed.

Lemma reported_of_collected : forall candidates,
  (if Z.of_nat (List.length (firstn 16 candidates)) =? 0
   then ["127.0.0.1"] else firstn 16 candidates)
  = reported_addresses candidates.
Proof.
  intros candidates. unfold reported_addresses.
  destruct (firstn 16 candidates) as [|ip taken]; reflexivity.
Qed.

(** X19. The addresses [agent_get_system_info] reports are the first
    sixteen IPv4 addresses of the interfaces, in their order: on POSIX
    builds those other than 127.0.0.1, on Windows builds all of them,
    adapter after adapter; when there is none, or the system call fails,
    the one address 127.0.0.1. *)
Theorem system_info_addresses :
  forall un ifaddr major minor cpu adapters,
    ips_out (snd (agent_get_system_info (PosixHost un (Some ifaddr))))
    = reported_addresses (posix_candidates ifaddr)
    /\ ips_out (snd (agent_get_system_info (Win32Host major minor cpu (Some adapters))))
       = reported_addresses (win32_candidates adapters)
    /\ ips_out (snd (agent_get_system_info (PosixHost un None))) = ["127.0.0.1"]
    /\ ips_out (snd (agent_get_system_info (Win32Host major minor cpu None)))
       = ["127.0.0.1"].
Proof.
  intros un ifaddr major minor cpu adapters.
  split; [|split; [|split; reflexivity]].
  - unfold agent_get_system_info. cbn [snd ips_out].
    rewrite (posix_collect_ips_take ifaddr [] ltac:(cbn; lia)).
    cbn [app List.length]. rewrite Nat.sub_0_r. apply reported_of_collected.
  - unfold agent_get_system_info. cbn [snd ips_out].
    rewrite (win32_collect_adapters_take adapters [] ltac:(cbn; lia)).
    cbn [app List.length]. rewrite Nat.sub_0_r. apply reported_of_collected.
Qed.

Lemma in_firstn : forall {A : Type} n (l : list A) x, In x (firstn n l) -> In x l.
Proof.
  induction n as [|n IH]; intros l x Hin; [contradiction|].
  destruct l as [|a l]; [contradiction|]. cbn in Hin.
  destruct Hin as [Hx|Hin]; [left; exact Hx|right; apply IH; exact Hin].
Qed.

Lemma ip_item_exact : forall ip,
  (String.length ip <=? 15)%nat = true ->
  snprintf 64 (quoted ip) = quoted ip
  /\ String.length (quoted ip) = (String.length ip + 2)%nat.
Proof.
  intros ip Hip. apply Nat.leb_le in Hip.
  assert (Hlen : String.length (quoted ip) = (String.length ip + 2)%nat).
  { unfold quoted. cbn [String.length]. rewrite CStrFacts.length_app. cbn. lia. }
  split; [|exact Hlen]. unfold snprintf. apply CStrFacts.substring_all. lia.
Qed.

Lemma ip_addresses_items_length : forall ips first,
  ipv4_texts ips = true ->
  (String.length (ip_addresses_items first ips) + (if first then 2 else 0)
   <= 19 * List.length ips + (if first then 2 else 0) * (1 - List.length ips))%nat.
Proof.
  induction ips as [|ip ips IH]; intros first Hips.
  - destruct first; cbn; lia.
  - cbn [ipv4_texts forallb] in Hips. apply andb_true_iff in Hips.
    destruct Hips as [Hip Hips].
    destruct (ip_item_exact ip Hip) as [Hexact Hlen]. apply Nat.leb_le in Hip.
    cbn [ip_addresses_items List.length]. rewrite Hexact.
    rewrite !CStrFacts.length_app, Hlen.
    specialize (IH false Hips). cbn [Nat.mul] in IH.
    destruct first; cbn [String.length]; lia.
Qed.

(** X20. With at most sixteen addresses, each the text of an IPv4
    address, no address is cut by its 64-byte buffer and the array of
    addresses that [heartbeat_send] builds takes at most 304 characters
    of its 1024-byte buffer. *)
Theorem heartbeat_addresses_fit :
  forall ctx,
    ip_address_count ctx <= 16 ->
    ipv4_texts (ip_addresses ctx) = true ->
    (String.length (ip_addresses_json ctx) <= 304)%nat
    /\ Forall (fun ip => snprintf 64 (quoted ip) = quoted ip)
         (firstn (Z.to_nat (ip_address_count ctx)) (ip_addresses ctx)).
Proof.
  intros ctx Hcount Hips.
  set (sent := firstn (Z.to_nat (ip_address_count ctx)) (ip_addresses ctx)).
  assert (Hsent : ipv4_texts sent = true).
  { unfold ipv4_texts in *. apply forallb_forall. intros ip Hin.
    rewrite forallb_forall in Hips. apply Hips.
    unfold sent in Hin. eapply in_firstn; exact Hin. }
  assert (Hlen : (List.length sent <= 16)%nat).
  { unfold sent. rewrite List.length_firstn. lia. }
  split.
  - unfold ip_addresses_json. fold sent. cbn [append String.length].
    rewrite CStrFacts.length_app. cbn [String.length].
    pose proof (ip_addresses_items_length sent true Hsent) as Hitems.
    destruct sent as [|ip rest]; cbn [List.length] in *; [cbn; lia|]. lia.
  - apply Forall_forall. intros ip Hin. apply ip_item_exact.
    unfold ipv4_texts in Hsent. rewrite forallb_forall in Hsent. apply Hsent. exact Hin.
Qed.

(** X20 at the sample agent. *)
Lemma heartbeat_addresses_fit_witness :
  (String.length (ip_addresses_json sample_context) <= 304)%nat
  /\ Forall (fun ip => snprintf 64 (quoted ip) = quoted ip)
       (firstn (Z.to_nat (ip_address_count sample_context))
          (ip_addresses sample_context)).
Proof.
  apply (heartbeat_addresses_fit sample_context).
  - vm_compute. discriminate.
  - reflexivity.
Defined.

End SystemInfoMore.

(* ===================================================================== *)
(** ** Start-up: agent_init and main *)
(* ===================================================================== *)

Module StartupFacts.
Import CStr Config AgentSpec RunShape Samples.

Lemma agent_init_cases : forall config_path m,
  let conf_path :=
    match config_path with
    | Some path => path
    | None => config_get_default_path (built_for m)
    end in
  let loaded := config_load (Some conf_path) (files m) in
  (agent_init config_path m = None
   <-> curl_global_init_ok m = false
       \/ fst loaded <> ERR_SUCCESS
       \/ exists config,
            snd loaded = Some config
            /\ missing_or_empty (agent_id config) = true
            /\ utils_generate_uuid m = None)
  /\ forall ctx,
       agent_init config_path m = Some ctx ->
       state ctx = AGENT_STATE_REGISTERING
       /\ authorized ctx = false
       /\ last_heartbeat ctx = 0
       /\ retry_count ctx = 0
       /\ config_validate (Some (config ctx)) = ERR_SUCCESS
       /\ agent_id (config ctx) <> None
       /\ hostname (config ctx) <> None
       /\ ip_address_count ctx = Z.of_nat (List.length (ip_addresses ctx))
       /\ 1 <= ip_address_count ctx <= 16
       /\ exists url, heartbeat_url ctx = Some url.
Proof.
  intros config_path m. cbv zeta. unfold agent_init, http_client_init.
  set (conf_path := match config_path with
                    | Some path => path
                    | None => config_get_default_path (built_for m)
                    end).
  destruct (curl_global_init_ok m); cbn [negb].
  2: { split; [split; auto|discriminate]. }
  destruct (config_load (Some conf_path) (files m)) as [rc loaded] eqn:Hload.
  cbn [fst snd].
  destruct (Z.eqb_spec rc ERR_SUCCESS) as [Hrc|Hrc]; cbn [negb].
  2: { split; [split; auto|discriminate]. }
  destruct loaded as [cfg|].
  2: { exfalso. pose proof (ConfigMore.config_load_success_some (Some conf_path)
                              (files m)) as Hsome.
       rewrite Hload in Hsome. cbn [fst snd] in Hsome. apply Hsome; [exact Hrc|reflexivity]. }
  destruct (ConfigMore.config_load_validated _ _ _ _ Hload) as [_ Hvalid].
  pose proof (SystemInfoFacts.agent_get_system_info_count (system_report m))
    as (_ & Hcount & Hrange).
  destruct (agent_get_system_info (system_report m)) as [info_rc info].
  cbn [snd] in Hcount, Hrange.
  assert (Hctx : forall c ctx,
             config_validate (Some c) = ERR_SUCCESS ->
             agent_id c <> None ->
             Some (mk_context
                     (if missing_or_empty (hostname c)
                      then set_hostname (Some (c_str (gethostname m))) c else c)
                     AGENT_STATE_REGISTERING false 0 0
                     (os_out info) (arch_out info) (ips_out info) (ip_count_out info))
             = Some ctx ->
             state ctx = AGENT_STATE_REGISTERING
             /\ authorized ctx = false
             /\ last_heartbeat ctx = 0
             /\ retry_count ctx = 0
             /\ config_validate (Some (config ctx)) = ERR_SUCCESS
             /\ agent_id (config ctx) <> None
             /\ hostname (config ctx) <> None
             /\ ip_address_count ctx = Z.of_nat (List.length (ip_addresses ctx))
             /\ 1 <= ip_address_count ctx <= 16
             /\ exists url, heartbeat_url ctx = Some url).
  { intros c ctx Hc Hid Hx. inversion Hx; subst ctx. clear Hx.
    cbn [state authorized last_heartbeat retry_count config ip_address_count
         ip_addresses].
    destruct (ConfigMore.config_validate_success c Hc) as (Hurl & _ & _).
    assert (Hkeep : forall c',
               c' = (if missing_or_empty (hostname c)
                     then set_hostname (Some (c_str (gethostname m))) c else c) ->
               config_validate (Some c') = ERR_SUCCESS
               /\ agent_id c' <> None /\ hostname c' <> None
               /\ controller_url c' = controller_url c).
    { intros c' Hc'. subst c'. destruct (missing_or_empty (hostname c)) eqn:Hhost.
      - split; [exact Hc|]. split; [exact Hid|]. split; [discriminate|reflexivity].
      - split; [exact Hc|]. split; [exact Hid|]. split; [|reflexivity].
        destruct (hostname c); [discriminate|discriminate]. }
    destruct (Hkeep _ eq_refl) as (Hv & Ha & Hh & Hu).
    repeat (split; [first [reflexivity|assumption|lia]|]).
    unfold heartbeat_url. cbn [config]. rewrite Hu.
    destruct (controller_url c) as [base|]; [|discriminate].
    apply AgentMore.build_url_some. }
  destruct (missing_or_empty (agent_id cfg)) eqn:Hid.
  - unfold agent_get_or_generate_uuid.
    destruct (utils_generate_uuid m) as [uuid|]; cbn [Z.eqb negb ERR_SUCCESS
                                                     ERR_INVALID_RESPONSE].
    + split.
      * split; [discriminate|].
        intros [Hx|[Hx|(c & Hc & _ & Hx)]]; [discriminate|contradiction|discriminate].
      * intros ctx. apply Hctx; [exact Hvalid|discriminate].
    + split; [|discriminate]. split; [|reflexivity].
      intros _. right. right. exists cfg. auto.
  - split.
    + split; [discriminate|].
      intros [Hx|[Hx|(c & Hc & Hm & _)]]; [discriminate|contradiction|].
      inversion Hc; subst c. congruence.
    + intros ctx. apply Hctx; [exact Hvalid|].
      destruct (agent_id cfg); [discriminate|discriminate].
Qed.

(** X21. [agent_init] gives no context exactly when libcurl does not
    initialize, when [config_load] fails for the given path (or the
    default path of the platform when none is given), or when the file
    has no agent id and no UUID can be generated. A context it gives is
    registering, not authorized, with zero heartbeat time and retry count,
    a configuration that passes [config_validate], an agent id and a host
    name, between 1 and 16 addresses counted correctly, and a heartbeat
    URL. *)
Theorem agent_init_context :
  forall config_path m,
    let conf_path :=
      match config_path with
      | Some path => path
      | None => config_get_default_path (built_for m)
      end in
    let loaded := config_load (Some conf_path) (files m) in
    (agent_init config_path m = None
     <-> curl_global_init_ok m = false
         \/ fst loaded <> ERR_SUCCESS
         \/ exists config,
              snd loaded = Some config
              /\ missing_or_empty (agent_id config) = true
              /\ utils_generate_uuid m = None)
    /\ forall ctx,
         agent_init config_path m = Some ctx ->
         state ctx = AGENT_STATE_REGISTERING
         /\ authorized ctx = false
         /\ last_heartbeat ctx = 0
         /\ retry_count ctx = 0
         /\ config_validate (Some (config ctx)) = ERR_SUCCESS
         /\ agent_id (config ctx) <> None
         /\ hostname (config ctx) <> None
         /\ ip_address_count ctx = Z.of_nat (List.length (ip_addresses ctx))
         /\ 1 <= ip_address_count ctx <= 16
         /\ exists url, heartbeat_url ctx = Some url.
Proof. exact agent_init_cases. Qed.

(** X21 at the sample machine. *)
Lemma agent_init_context_witness :
  state started_context = AGENT_STATE_REGISTERING
  /\ authorized started_context = false
  /\ last_heartbeat started_context = 0
  /\ retry_count started_context = 0
  /\ config_validate (Some (config started_context)) = ERR_SUCCESS
  /\ agent_id (config started_context) <> None
  /\ hostname (config started_context) <> None
  /\ ip_address_count started_context
     = Z.of_nat (List.length (ip_addresses started_context))
  /\ 1 <= ip_address_count started_context <= 16
  /\ exists url, heartbeat_url started_context = Some url.
Proof.
  apply (proj2 (agent_init_context None sample_machine) started_context).
  vm_compute. reflexivity.
Defined.

Lemma parse_arguments_path : forall n args acc config_path,
  (List.length args <= n)%nat ->
  parse_arguments args acc = ArgumentsPath config_path ->
  (args = [] /\ config_path = acc)
  \/ exists before flag path,
       args = (before ++ [flag; path])%list
       /\ (flag = "-c" \/ flag = "--config")
       /\ config_path = Some path.
Proof.
  induction n as [|n IH]; intros args acc config_path Hlen Hparse.
  - destruct args; [|cbn in Hlen; lia]. cbn in Hparse. inversion Hparse. left. auto.
  - destruct args as [|arg rest]; [cbn in Hparse; inversion Hparse; left; auto|].
    right. cbn [parse_arguments] in Hparse. unfold strcmp_eq in Hparse.
    destruct (String.eqb_spec arg "-h"); [discriminate|].
    destruct (String.eqb_spec arg "--help"); [discriminate|].
    destruct (String.eqb_spec arg "-v"); [discriminate|].
    destruct (String.eqb_spec arg "--version"); [discriminate|].
    cbn [orb] in Hparse.
    assert (Hflag : arg = "-c" \/ arg = "--config").
    { destruct (String.eqb_spec arg "-c"); [left; assumption|].
      destruct (String.eqb_spec arg "--config"); [right; assumption|discriminate]. }
    assert (Hrest : match rest with
                    | path :: after => parse_arguments after (Some path)
                    | [] => ArgumentsExit 1
                    end = ArgumentsPath config_path).
    { destruct (String.eqb_spec arg "-c"); [exact Hparse|].
      destruct (String.eqb_spec arg "--config"); [exact Hparse|discriminate]. }
    destruct rest as [|path after]; [discriminate|].
    destruct (IH after (Some path) config_path ltac:(cbn in Hlen; lia) Hrest)
      as [[Hnil Hcp]|(before & flag & path' & Hafter & Hf & Hcp)].
    + subst after. exists [], arg, path. split; [reflexivity|]. split; assumption.
    + subst after. exists (arg :: path :: before), flag, path'.
      split; [reflexivity|]. split; assumption.
Qed.

Lemma parse_arguments_exit : forall n args acc code,
  (List.length args <= n)%nat ->
  parse_arguments args acc = ArgumentsExit code -> code = 0 \/ code = 1.
Proof.
  induction n as [|n IH]; intros args acc code Hlen Hparse.
  - destruct args; [|cbn in Hlen; lia]. discriminate.
  - destruct args as [|arg rest]; [discriminate|].
    cbn [parse_arguments] in Hparse.
    destruct (strcmp_eq arg "-h" || strcmp_eq arg "--help");
      [inversion Hparse; left; reflexivity|].
    destruct (strcmp_eq arg "-v" || strcmp_eq arg "--version");
      [inversion Hparse; left; reflexivity|].
    destruct (strcmp_eq arg "-c" || strcmp_eq arg "--config");
      [|inversion Hparse; right; reflexivity].
    destruct rest as [|path after]; [inversion Hparse; right; reflexivity|].
    apply (IH after (Some path) code); [cbn in Hlen; lia|exact Hparse].
Qed.

Lemma parse_arguments_pairs : forall n args acc,
  (List.length args <= n)%nat ->
  match config_pairs args with
  | Some paths => parse_arguments args acc = ArgumentsPath (last_path paths acc)
  | None => exists code, parse_arguments args acc = ArgumentsExit code
  end.
Proof.
  induction n as [|n IH]; intros args acc Hlen.
  - destruct args; [reflexivity|cbn in Hlen; lia].
  - destruct args as [|flag [|path rest]]; [reflexivity| |].
    + cbn [config_pairs parse_arguments].
      destruct (strcmp_eq flag "-h" || strcmp_eq flag "--help"); [eauto|].
      destruct (strcmp_eq flag "-v" || strcmp_eq flag "--version"); [eauto|].
      destruct (strcmp_eq flag "-c" || strcmp_eq flag "--config"); eauto.
    + cbn [config_pairs parse_arguments]. unfold strcmp_eq.
      destruct (String.eqb_spec flag "-h") as [Hh|_]; [subst flag; cbn; eauto|].
      destruct (String.eqb_spec flag "--help") as [Hh|_]; [subst flag; cbn; eauto|].
      destruct (String.eqb_spec flag "-v") as [Hv|_]; [subst flag; cbn; eauto|].
      destruct (String.eqb_spec flag "--version") as [Hv|_]; [subst flag; cbn; eauto|].
      cbn [orb].
      destruct (String.eqb flag "-c" || String.eqb flag "--config"); [|eauto].
      specialize (IH rest (Some path) ltac:(cbn in Hlen; lia)).
      destruct (config_pairs rest) as [paths|]; cbn [option_map last_path]; exact IH.
Qed.

(** X22. [main] returns 0 or 1 when it returns. It enters the main loop
    exactly when the arguments after the program name are pairs of a [-c]
    or [--config] flag and a path, with nothing else before, between or
    after them, and [agent_init] succeeds on the path of the last pair, or
    on the default path when there is no argument at all; the context it
    runs with is the one [agent_init] made. *)
Theorem main_arguments :
  forall argv m,
    (forall code, main argv m = MainReturns code -> code = 0 \/ code = 1)
    /\ (forall ctx,
          main argv m = MainRuns ctx
          <-> exists paths,
                config_pairs (tl argv) = Some paths
                /\ agent_init (last_path paths None) m = Some ctx).
Proof.
  intros argv m. unfold main. split.
  - intros code Hmain.
    destruct (parse_arguments (tl argv) None) as [exit_code|config_path] eqn:Hparse.
    + inversion Hmain; subst.
      exact (parse_arguments_exit _ _ _ _ (Nat.le_refl _) Hparse).
    + destruct (agent_init config_path m); inversion Hmain. right. reflexivity.
  - intros ctx.
    pose proof (parse_arguments_pairs _ (tl argv) None (Nat.le_refl _)) as Hpairs.
    destruct (config_pairs (tl argv)) as [paths|].
    + rewrite Hpairs. split.
      * intros Hmain. exists paths. split; [reflexivity|].
        destruct (agent_init (last_path paths None) m); inversion Hmain. reflexivity.
      * intros (paths' & Heq & Hinit). inversion Heq; subst paths'.
        rewrite Hinit. reflexivity.
    + destruct Hpairs as [code Hexit]. rewrite Hexit. split.
      * discriminate.
      * intros (paths & Heq & _). discriminate.
Qed.

(** X22 at a command line that names two configuration files: the agent
    starts with the second. *)
Lemma main_arguments_witness :
  main ["gvm-agent"; "-c"; "first.conf"; "--config"; "agent.conf"] sample_machine
  = MainRuns started_context.
Proof.
  apply (proj2 (main_arguments
                  ["gvm-agent"; "-c"; "first.conf"; "--config"; "agent.conf"]
                  sample_machine)).
  exists ["first.conf"; "agent.conf"]. split; [reflexivity|].
  vm_compute. reflexivity.
Defined.

End StartupFacts.

(* ===================================================================== *)
(** ** utils.c, nvt_feed.c and auto_update.c *)
(* ===================================================================== *)

Module UtilsFacts.
Import MonadFacts AgentSpec RunShape Samples.

(** X23. [utils_get_random_jitter_ms] does nothing outside and returns 0
    for a bound of zero or less, and otherwise a jitter from 0 up to, but
    not including, the bound. *)
Theorem jitter_within_bound :
  forall max_jitter_ms w,
    trace_of (utils_get_random_jitter_ms max_jitter_ms w) = []
    /\ (max_jitter_ms <= 0 ->
        result_of (utils_get_random_jitter_ms max_jitter_ms w) = 0)
    /\ (0 < max_jitter_ms ->
        0 <= result_of (utils_get_random_jitter_ms max_jitter_ms w) < max_jitter_ms).
Proof.
  intros max_jitter_ms w. unfold utils_get_random_jitter_ms.
  destruct (Z.leb_spec max_jitter_ms 0) as [Hle|Hlt].
  - cbn. split; [reflexivity|]. split; [reflexivity|lia].
  - unfold bind, rand, ret. destruct (rand_values w) as [|r rest];
      cbn -[Z.rem].
    + split; [reflexivity|]. split; [lia|]. intros _. rewrite Z.rem_0_l by lia. lia.
    + split; [reflexivity|]. split; [lia|]. intros _.
      apply Z.rem_bound_pos; lia.
Qed.

(** X23 at the default jitter of 30 seconds. *)
Lemma jitter_within_bound_witness :
  0 <= result_of (utils_get_random_jitter_ms 30000 (sample_world [])) < 30000.
Proof.
  apply (proj2 (proj2 (jitter_within_bound 30000 (sample_world [])))).
  reflexivity.
Defined.

Lemma wrap_long_small : forall z,
  CStr.LONG_MIN <= z <= CStr.LONG_MAX -> CStr.wrap_long z = z.
Proof.
  intros z Hz. unfold CStr.wrap_long, CStr.LONG_MIN, CStr.LONG_MAX in *.
  rewrite Z.mod_small; lia.
Qed.

(** X24. For a time of the last synchronization and a clock that are
    [long] values whose difference is one too, and an interval that is an
    [int]: with a positive interval, [nvt_feed_sync_needed] says yes
    exactly when at least that many full hours have passed since the last
    synchronization; a clock that has been set back never asks for one.
    With an interval of zero or less it says yes whenever the clock has
    not been set back. It reads the clock and does nothing else. *)
Theorem sync_needed_after_interval :
  forall last_sync_time sync_interval_hours w,
    CStr.LONG_MIN <= last_sync_time <= CStr.LONG_MAX ->
    CStr.INT_MIN <= sync_interval_hours <= CStr.INT_MAX ->
    CStr.LONG_MIN <= clock w <= CStr.LONG_MAX ->
    CStr.LONG_MIN <= clock w - last_sync_time <= CStr.LONG_MAX ->
    let r := nvt_feed_sync_needed last_sync_time sync_interval_hours w in
    trace_of r = [] /\ world_of r = w
    /\ (0 < sync_interval_hours ->
        (result_of r = true <-> 3600 * sync_interval_hours <= clock w - last_sync_time))
    /\ (sync_interval_hours <= 0 -> last_sync_time <= clock w -> result_of r = true).
Proof.
  intros last_sync_time sync_interval_hours w Hlast Hinterval Hclock Hdiff. cbv zeta.
  unfold nvt_feed_sync_needed, utils_get_unix_timestamp, time, bind, ret,
    result_of, world_of, trace_of.
  cbn [fst snd app].
  split; [reflexivity|]. split; [reflexivity|].
  rewrite (wrap_long_small _ Hdiff).
  set (d := clock w - last_sync_time) in *.
  pose proof (Z.quot_rem' d 3600) as Hqr.
  assert (Hquot : CStr.LONG_MIN <= Z.quot d 3600 <= CStr.LONG_MAX).
  { unfold CStr.LONG_MIN, CStr.LONG_MAX in *.
    destruct (Z.le_gt_cases 0 d) as [Hd|Hd].
    - pose proof (Z.rem_bound_pos d 3600 Hd ltac:(lia)) as Hr. lia.
    - pose proof (Z.rem_bound_pos_neg d 3600 ltac:(lia) ltac:(lia)) as Hr. lia. }
  rewrite (wrap_long_small _ Hquot).
  split.
  - intros Hpos. rewrite Z.leb_le.
    destruct (Z.le_gt_cases 0 d) as [Hd|Hd].
    + pose proof (Z.rem_bound_pos d 3600 Hd ltac:(lia)) as Hr. lia.
    + pose proof (Z.rem_bound_pos_neg d 3600 ltac:(lia) ltac:(lia)) as Hr. lia.
  - intros Hzero Hd. rewrite Z.leb_le.
    pose proof (Z.rem_bound_pos d 3600 ltac:(unfold d; lia) ltac:(lia)) as Hr.
    unfold d in *. lia.
Qed.

(** X24 at a daily synchronization, 25 hours after the last one. *)
Lemma sync_needed_after_interval_witness :
  result_of (nvt_feed_sync_needed 1700000000 24
               (mk_world [] [] [] [] 1700090000 (fun _ => None) false)) = true
  <-> 3600 * 24
      <= clock (mk_world [] [] [] [] 1700090000 (fun _ => None) false) - 1700000000.
Proof.
  apply (proj1 (proj2 (proj2 (sync_needed_after_interval 1700000000 24
                                (mk_world [] [] [] [] 1700090000 (fun _ => None) false)
                                ltac:(vm_compute; split; discriminate)
                                ltac:(vm_compute; split; discriminate)
                                ltac:(vm_compute; split; discriminate)
                                ltac:(vm_compute; split; discriminate))))).
  reflexivity.
Defined.

(** At that input the answer is yes. *)
Example sync_needed_sample :
  result_of (nvt_feed_sync_needed 1700000000 24
               (mk_world [] [] [] [] 1700090000 (fun _ => None) false)) = true.
Proof. vm_compute. reflexivity. Qed.

Lemma auto_update_check_cases : forall ctx w,
  let r := auto_update_check ctx w in
  (fst (result_of r) = ERR_SUCCESS \/ fst (result_of r) = ERR_SERVER_ERROR
   \/ fst (result_of r) = ERR_NETWORK_UNREACHABLE)
  /\ (fst (result_of r) = ERR_SUCCESS <-> snd (result_of r) <> None)
  /\ (forall info,
        snd (result_of r) = Some info ->
        exists body rest,
          http_replies w = HttpReply 200 body :: rest
          /\ update_available info
             = match http_parse_json_bool (CStr.c_str body) "update_available" with
               | Some b => b
               | None => false
               end
          /\ download_url info = http_parse_json_string (CStr.c_str body) "download_url"
          /\ checksum info = http_parse_json_string (CStr.c_str body) "checksum")
  /\ (forall url,
        utils_build_url (controller_url (config ctx)) (Some UPDATES_PATH) = Some url ->
        trace_of r
        = [EvHttpGet url
             ("Accept: application/json" :: bearer_header (auth_token (config ctx)))]).
Proof.
  intros ctx w. cbv zeta. unfold auto_update_check.
  destruct (utils_build_url (controller_url (config ctx)) (Some UPDATES_PATH))
    as [url|].
  2: { cbn. split; [auto|]. split; [split; [discriminate|congruence]|].
       split; discriminate. }
  unfold http_get, bind, emit, curl_easy_perform, result_of, world_of, trace_of.
  destruct (http_replies w) as [|[msg|st bd] rest] eqn:Hrep;
    cbn -[http_parse_json_bool http_parse_json_string bearer_header Z.eqb].
  - split; [auto|]. split; [split; [discriminate|congruence]|].
    split; [discriminate|]. intros u Hu. inversion Hu. reflexivity.
  - split; [auto|]. split; [split; [discriminate|congruence]|].
    split; [discriminate|]. intros u Hu. inversion Hu. reflexivity.
  - destruct (Z.eqb_spec st 200) as [H200|H200];
      cbn -[http_parse_json_bool http_parse_json_string bearer_header].
    + subst st. split; [auto|]. split; [split; [discriminate|reflexivity]|].
      split.
      * intros info Hinfo. inversion Hinfo; subst info. exists bd, rest.
        cbn [update_available download_url checksum]. repeat split.
      * intros u Hu. inversion Hu. reflexivity.
    + split; [auto|]. split; [split; [discriminate|congruence]|].
      split; [discriminate|]. intros u Hu. inversion Hu. reflexivity.
Qed.

Ltac reply_absurd :=
  intros;
  repeat match goal with
         | H : exists _, _ |- _ => destruct H
         | H : _ /\ _ |- _ => destruct H
         | H : _ \/ _ |- _ => destruct H
         end;
  try discriminate; try congruence.

(** The code [auto_update_check] returns, by the reply it takes. *)
Lemma auto_update_check_codes : forall ctx w url,
  utils_build_url (controller_url (config ctx)) (Some UPDATES_PATH) = Some url ->
  let r := auto_update_check ctx w in
  (fst (result_of r) = ERR_SUCCESS
   <-> exists body rest, http_replies w = HttpReply 200 body :: rest)
  /\ (fst (result_of r) = ERR_SERVER_ERROR
      <-> exists status body rest,
            http_replies w = HttpReply status body :: rest /\ status <> 200)
  /\ (fst (result_of r) = ERR_NETWORK_UNREACHABLE
      <-> http_replies w = []
          \/ exists message rest, http_replies w = TransportError message :: rest).
Proof.
  intros ctx w url Hurl. cbv zeta. unfold auto_update_check. rewrite Hurl.
  unfold http_get, bind, emit, curl_easy_perform, result_of, world_of, trace_of.
  destruct (http_replies w) as [|[msg|st bd] rest] eqn:Hrep;
    cbn -[http_parse_json_bool http_parse_json_string bearer_header Z.eqb].
  - split; [split; reply_absurd|]. split; [split; reply_absurd|].
    split; [left; reflexivity|reflexivity].
  - split; [split; reply_absurd|]. split; [split; reply_absurd|].
    split; [right; eauto|reflexivity].
  - destruct (Z.eqb_spec st 200) as [H200|H200];
      cbn -[http_parse_json_bool http_parse_json_string bearer_header].
    + subst st. split; [split; [eauto|reflexivity]|].
      split; [split; reply_absurd|]. split; reply_absurd.
    + split; [split; reply_absurd|].
      split; [split; [intros _; exists st, bd, rest; auto|reflexivity]|].
      split; reply_absurd.
Qed.

(** X25. For an agent whose configuration holds a controller address and
    a token of at most 489 characters, [auto_update_check] sends one GET
    to [/api/v1/agents/updates] under the address, with the headers
    [Accept: application/json] and [Authorization: Bearer] followed by
    the token. It returns [ERR_SUCCESS] exactly on an HTTP 200,
    [ERR_SERVER_ERROR] exactly on any other status (a 401 included) and
    [ERR_NETWORK_UNREACHABLE] exactly when no reply comes. It hands over
    update information exactly on success; and it announces an update, a
    download address or a checksum only when the body of that reply holds
    them after the first occurrence of their keys. *)
Theorem update_notice_is_written :
  forall ctx w base token,
    controller_url (config ctx) = Some base ->
    auth_token (config ctx) = Some token ->
    (String.length token <= 489)%nat ->
    let r := auto_update_check ctx w in
    trace_of r
    = [EvHttpGet (base ++ "/api/v1/agents/updates")
         ["Accept: application/json"; "Authorization: Bearer " ++ token]]
    /\ (fst (result_of r) = ERR_SUCCESS
        <-> exists body rest, http_replies w = HttpReply 200 body :: rest)
    /\ (fst (result_of r) = ERR_SERVER_ERROR
        <-> exists status body rest,
              http_replies w = HttpReply status body :: rest /\ status <> 200)
    /\ (fst (result_of r) = ERR_NETWORK_UNREACHABLE
        <-> http_replies w = []
            \/ exists message rest, http_replies w = TransportError message :: rest)
    /\ (fst (result_of r) = ERR_SUCCESS <-> snd (result_of r) <> None)
    /\ (forall info,
          snd (result_of r) = Some info ->
          exists body rest,
            http_replies w = HttpReply 200 body :: rest
            /\ (update_available info = true ->
                json_first_member (CStr.c_str body) "update_available" "true")
            /\ (forall text, download_url info = Some text ->
                  json_first_member (CStr.c_str body) "download_url" (CStr.quoted text))
            /\ (forall text, checksum info = Some text ->
                  json_first_member (CStr.c_str body) "checksum" (CStr.quoted text))).
Proof.
  intros ctx w base token Hbase Htoken Htok. cbv zeta.
  assert (Hurl : utils_build_url (controller_url (config ctx)) (Some UPDATES_PATH)
                 = Some (base ++ "/api/v1/agents/updates")).
  { rewrite Hbase. unfold UPDATES_PATH. apply AgentFacts.build_url_absolute. }
  destruct (auto_update_check_cases ctx w) as (_ & Hsome & Hinfo & Htrace).
  destruct (auto_update_check_codes ctx w _ Hurl) as (Hok & Hserver & Hnet).
  cbv zeta in Hsome, Hinfo, Htrace, Hok, Hserver, Hnet.
  split.
  { rewrite (Htrace _ Hurl), Htoken, (AgentMore.bearer_header_exact token Htok).
    reflexivity. }
  split; [exact Hok|]. split; [exact Hserver|]. split; [exact Hnet|].
  split; [exact Hsome|].
  intros info Hi. destruct (Hinfo info Hi) as (body & rest & Hw & Hflag & Hdl & Hsum).
  exists body, rest. split; [exact Hw|]. split; [|split].
  - intros Hup. rewrite Hflag in Hup.
    destruct (http_parse_json_bool (CStr.c_str body) "update_available")
      as [[|]|] eqn:Hb; try discriminate.
    exact (proj1 (HttpFacts.json_first_values (CStr.c_str body)
                    "update_available" eq_refl eq_refl) true Hb).
  - intros text Ht. rewrite Hdl in Ht.
    exact (proj1 (proj1 (proj2 (HttpFacts.json_first_values (CStr.c_str body)
                                  "download_url" eq_refl eq_refl)) text Ht)).
  - intros text Ht. rewrite Hsum in Ht.
    exact (proj1 (proj1 (proj2 (HttpFacts.json_first_values (CStr.c_str body)
                                  "checksum" eq_refl eq_refl)) text Ht)).
Qed.

(** X25 at a controller that answers 401: one GET with the two headers,
    and a server error. *)
Lemma update_notice_is_written_witness :
  trace_of (auto_update_check sample_context (sample_world [HttpReply 401 "denied"]))
  = [EvHttpGet "https://controller.example.org/api/v1/agents/updates"
       ["Accept: application/json"; "Authorization: Bearer s3cr3t"]]
  /\ fst (result_of (auto_update_check sample_context
                       (sample_world [HttpReply 401 "denied"])))
     = ERR_SERVER_ERROR.
Proof.
  pose proof (update_notice_is_written sample_context
                (sample_world [HttpReply 401 "denied"])
                "https://controller.example.org" "s3cr3t"
                eq_refl eq_refl ltac:(cbn; lia))
    as (Htrace & _ & Hserver & _).
  split; [exact Htrace|].
  apply (proj2 Hserver). exists 401, "denied", []. split; [reflexivity|discriminate].
Defined.

(** At a controller that announces version 1.1.0. *)
Example update_notice_sample :
  option_map (fun info => (update_available info, latest_version info))
    (snd (result_of (auto_update_check sample_context (sample_world [update_reply]))))
  = Some (true, Some "1.1.0").
Proof. vm_compute. reflexivity. Qed.

End UtilsFacts.
